(** * lakera_clip/preprocessor.py: the CLIP image preprocessing pipeline

    A shallow embedding of the class [Preprocess] (methods [_smart_resize],
    [_assert_pil] and [encode_image]) together with the parts of Python,
    NumPy and OpenCV the three methods rely on, followed by the properties
    of the pipeline.

    - Python integers are [Z]; Python floats and NumPy float64 samples are
      IEEE-754 binary64 numbers ([spec_float] at precision 53), float32
      samples are binary32 numbers (precision 24).  All float operations
      round to nearest, ties to even.
    - An [ndarray] is its shape together with its samples in row-major
      nesting.
    - Exceptions are values of [exn]; a call either returns or raises.
    - The class attributes of [Preprocess] and the objects reachable by
      the caller live in a [World] threaded through every call. *)

From stdpp Require Import base option list gmap strings.
From Stdlib Require Import ZArith QArith Qabs Floats.SpecFloat.

Local Open Scope Z_scope.

(** Mapping over a Python list or one axis of an array. *)
Abbreviation lmap := (fmap (M:=list)).

(** ** Exceptions and results *)

(** The [ValueError]s NumPy and the built-ins can raise on the paths of
    this module, by cause. *)
Inductive value_error : Type :=
  | cannot_convert_nan_to_integer
  | pad_negative_width
  | pad_width_mismatch
  | broadcast_mismatch (a b : list Z)
  | axis_out_of_bounds
  | transpose_axes_mismatch
  | reshape_size_mismatch (size : Z) (newshape : list Z).

Inductive exn : Type :=
  | AssertionError (msg : string)
  | ZeroDivisionError
  | OverflowError
  | ValueError (why : value_error)
  | cv2_error.

Inductive result (A : Type) : Type :=
  | Ok (a : A)
  | Raise (e : exn).
Arguments Ok {A} a.
Arguments Raise {A} e.

Global Instance result_ret : MRet result := fun A a => Ok a.
Global Instance result_bind : MBind result := fun A B f r =>
  match r with
  | Ok a => f a
  | Raise e => Raise e
  end.

(** ** Python numbers *)

Module Py.

(** binary64 *)
Definition float : Type := spec_float.
Definition prec64 : Z := 53.
Definition emax64 : Z := 1024.
(** binary32 *)
Definition prec32 : Z := 24.
Definition emax32 : Z := 128.

Definition fdiv : float -> float -> float := SFdiv prec64 emax64.
Definition fsub : float -> float -> float := SFsub prec64 emax64.
Definition fmul : float -> float -> float := SFmul prec64 emax64.
Definition fadd : float -> float -> float := SFadd prec64 emax64.

(** The integer [z] as an unrounded operand: sign, magnitude, exponent 0. *)
Definition exact_int (z : Z) : float :=
  match z with
  | Z0 => S754_zero false
  | Zpos p => S754_finite false p 0
  | Zneg p => S754_finite true p 0
  end.

(** [float(z)]: the integer rounded to binary64. *)
Definition of_int (z : Z) : float := binary_normalize prec64 emax64 z 0 false.

(** A decimal literal [n / 10^k], read as the nearest binary64 number. *)
Definition literal (n : Z) (k : nat) : float :=
  fdiv (exact_int n) (exact_int (10 ^ Z.of_nat k)).

(** [a / b] on two ints: true division, the exact quotient rounded once
    to binary64. *)
Definition truediv (a b : Z) : result float :=
  if b =? 0 then Raise ZeroDivisionError
  else match fdiv (exact_int a) (exact_int b) with
       | S754_infinity _ => Raise OverflowError
       | q => Ok q
       end.

(** [n / d] rounded to the nearest integer, ties to the even one
    ([0 < d]). *)
Definition div_half_even (n d : Z) : Z :=
  let q := n / d in
  match (2 * (n mod d)) ?= d with
  | Lt => q
  | Gt => q + 1
  | Eq => if Z.even q then q else q + 1
  end.

(** [round(x)] with one argument: float to int, ties to even. *)
Definition round (x : float) : result Z :=
  match x with
  | S754_zero _ => Ok 0
  | S754_nan => Raise (ValueError cannot_convert_nan_to_integer)
  | S754_infinity _ => Raise OverflowError
  | S754_finite s m e =>
      Ok (cond_Zopp s (if 0 <=? e then Z.pos m * 2 ^ e
                       else div_half_even (Z.pos m) (2 ^ (- e))))
  end.

(** Normalisation of a slice bound against a sequence of length [n]:
    negative bounds count from the end, everything is clamped. *)
Definition slice_bound (i n : Z) : Z :=
  if i <? 0 then Z.max 0 (n + i) else Z.min i n.

(** [l[start:stop]] *)
Definition slice {A} (start stop : Z) (l : list A) : list A :=
  let n := Z.of_nat (length l) in
  let a := slice_bound start n in
  let b := slice_bound stop n in
  take (Z.to_nat (b - a)) (drop (Z.to_nat a) l).

(** The value of a float as a rational (zero for the non-finite ones). *)
Definition to_Q (x : float) : Q :=
  match x with
  | S754_finite s m e =>
      let v := if 0 <=? e then inject_Z (Z.pos m * 2 ^ e)
               else Qmake (Z.pos m) (Z.to_pos (2 ^ (- e))) in
      if s then Qopp v else v
  | _ => 0%Q
  end.

Definition is_finite (x : float) : bool :=
  match x with
  | S754_zero _ | S754_finite _ _ _ => true
  | _ => false
  end.

End Py.

Global Instance float_inhabited : Inhabited Py.float := populate S754_nan.

(** ** NumPy arrays *)

Module Np.

(** Arrays of two and three dimensions: the shape, and the samples as
    nested rows (rows of samples, or rows of pixels of channel samples). *)
Inductive ndarray (A : Type) : Type :=
  | Nd2 (h w : Z) (rows : list (list A))
  | Nd3 (h w c : Z) (rows : list (list (list A))).
Arguments Nd2 {A} h w rows.
Arguments Nd3 {A} h w c rows.

(** The four-dimensional result of the final [reshape]. *)
Inductive tensor4 (A : Type) : Type :=
  | Nd4 (n c h w : Z) (items : list (list (list (list A)))).
Arguments Nd4 {A} n c h w items.

Definition shape {A} (a : ndarray A) : list Z :=
  match a with
  | Nd2 h w _ => [h; w]
  | Nd3 h w c _ => [h; w; c]
  end.

Definition shape4 {A} (t : tensor4 A) : list Z :=
  match t with Nd4 n c h w _ => [n; c; h; w] end.

Definition items4 {A} (t : tensor4 A) : list (list (list (list A))) :=
  match t with Nd4 _ _ _ _ d => d end.

(** [len(a.shape)] *)
Definition ndim {A} (a : ndarray A) : Z := Z.of_nat (length (shape a)).

(** [a.size] *)
Definition size {A} (a : ndarray A) : Z := foldr Z.mul 1 (shape a).

(** [h, w = a.shape[0:2]] *)
Definition shape2 {A} (a : ndarray A) : Z * Z :=
  match a with
  | Nd2 h w _ => (h, w)
  | Nd3 h w _ _ => (h, w)
  end.

(** The number of channels of an image array. *)
Definition channels {A} (a : ndarray A) : Z :=
  match a with
  | Nd2 _ _ _ => 1
  | Nd3 _ _ c _ => c
  end.

(** The samples agree with the shape. *)
Definition rows_wf {A} (h w : Z) (rows : list (list A)) : Prop :=
  0 <= h /\ 0 <= w /\ length rows = Z.to_nat h /\
  Forall (fun r => length r = Z.to_nat w) rows.

Definition wf {A} (a : ndarray A) : Prop :=
  match a with
  | Nd2 h w rows => rows_wf h w rows
  | Nd3 h w c rows =>
      rows_wf h w rows /\ 0 <= c /\
      Forall (Forall (fun px => length px = Z.to_nat c)) rows
  end.

Definition wf4 {A} (t : tensor4 A) : Prop :=
  match t with
  | Nd4 n c h w items =>
      0 <= n /\ 0 <= c /\ length items = Z.to_nat n /\
      Forall (fun planes => length planes = Z.to_nat c /\
                Forall (rows_wf h w) planes) items
  end.

(** Every sample satisfies [P]. *)
Definition all {A} (P : A -> Prop) (a : ndarray A) : Prop :=
  match a with
  | Nd2 _ _ rows => Forall (Forall P) rows
  | Nd3 _ _ _ rows => Forall (Forall (Forall P)) rows
  end.

(** [a[i, j, k]] and [t[n, c, i, j]] for indices in range. *)
Definition item3 {A} (a : ndarray A) (i j k : nat) : option A :=
  match a with
  | Nd2 _ _ _ => None
  | Nd3 _ _ _ rows =>
      row ← rows !! i; px ← (row : list (list A)) !! j; (px : list A) !! k
  end.

Definition item4 {A} (t : tensor4 A) (n c i j : nat) : option A :=
  planes ← items4 t !! n;
  rows ← (planes : list (list (list A))) !! c;
  row ← (rows : list (list A)) !! i;
  (row : list A) !! j.

(** Elementwise application (ufuncs with a scalar, [astype]). *)
Definition map {A B} (f : A -> B) (a : ndarray A) : ndarray B :=
  match a with
  | Nd2 h w rows => Nd2 h w (lmap (lmap f) rows)
  | Nd3 h w c rows => Nd3 h w c (lmap (lmap (lmap f)) rows)
  end.

(** One axis of [np.pad] in constant mode. *)
Definition pad_axis {A} (width : Z * Z) (fill : A) (l : list A) : list A :=
  replicate (Z.to_nat width.1) fill ++ l ++ replicate (Z.to_nat width.2) fill.

(** [np.pad(a, padding, constant_values=fill)]: one (before, after) pair
    per axis, padded axis after axis. *)
Definition pad {A} (a : ndarray A) (padding : list (Z * Z)) (fill : A)
  : result (ndarray A) :=
  if existsb (fun p => (p.1 <? 0) || (p.2 <? 0)) padding
  then Raise (ValueError pad_negative_width)
  else match a, padding with
       | Nd2 h w rows, [p0; p1] =>
           let rows0 := pad_axis p0 (replicate (Z.to_nat w) fill) rows in
           Ok (Nd2 (p0.1 + h + p0.2) (p1.1 + w + p1.2)
                 (lmap (pad_axis p1 fill) rows0))
       | Nd3 h w c rows, [p0; p1; p2] =>
           let px0 := replicate (Z.to_nat c) fill in
           let rows0 := pad_axis p0 (replicate (Z.to_nat w) px0) rows in
           let rows1 := lmap (pad_axis p1 px0) rows0 in
           Ok (Nd3 (p0.1 + h + p0.2) (p1.1 + w + p1.2) (p2.1 + c + p2.2)
                 (lmap (lmap (pad_axis p2 fill)) rows1))
       | _, _ => Raise (ValueError pad_width_mismatch)
       end.

(** The length of [range(n)[start:stop]]. *)
Definition slice_len (start stop n : Z) : Z :=
  Z.max 0 (Py.slice_bound stop n - Py.slice_bound start n).

(** [a[r0:r1, c0:c1]]: basic slicing of the two leading axes. *)
Definition getitem2 {A} (a : ndarray A) (r c : Z * Z) : ndarray A :=
  match a with
  | Nd2 h w rows =>
      Nd2 (slice_len r.1 r.2 h) (slice_len c.1 c.2 w)
        (lmap (Py.slice c.1 c.2) (Py.slice r.1 r.2 rows))
  | Nd3 h w k rows =>
      Nd3 (slice_len r.1 r.2 h) (slice_len c.1 c.2 w) k
        (lmap (Py.slice c.1 c.2) (Py.slice r.1 r.2 rows))
  end.

(** [np.expand_dims(a, axis=2)] of a two-dimensional array. *)
Definition expand_dims2 {A} (h w : Z) (rows : list (list A)) : ndarray A :=
  Nd3 h w 1 (lmap (lmap (fun v => [v])) rows).

(** [np.concatenate((a,) * 3, axis=2)] *)
Definition concatenate3 {A} (a : ndarray A) : result (ndarray A) :=
  match a with
  | Nd2 _ _ _ => Raise (ValueError axis_out_of_bounds)
  | Nd3 h w c rows =>
      Ok (Nd3 h w (c + c + c) (lmap (lmap (fun px => px ++ px ++ px)) rows))
  end.

(** Broadcasting of one axis: equal lengths pair up, a length of one is
    stretched. *)
Definition bcast_dim (n m : Z) : option Z :=
  if n =? m then Some n
  else if n =? 1 then Some m
  else if m =? 1 then Some n
  else None.

Definition bcast_zip {A B C} (f : A -> B -> C) (n m : Z)
    (xs : list A) (ys : list B) : list C :=
  if n =? m then zip_with f xs ys
  else if n =? 1 then match xs with x :: _ => lmap (f x) ys | [] => [] end
  else match ys with y :: _ => lmap (fun x => f x y) xs | [] => [] end.

(** A two-dimensional operand is aligned to the trailing axes. *)
Definition as3 {A} (a : ndarray A) : Z * Z * Z * list (list (list A)) :=
  match a with
  | Nd2 h w rows => (1, h, w, [rows])
  | Nd3 h w c rows => (h, w, c, rows)
  end.

(** A binary ufunc ([a - b], [a / b]) on two arrays, with broadcasting. *)
Definition binop {A} (f : A -> A -> A) (a b : ndarray A) : result (ndarray A) :=
  let '(h, w, c, ra) := as3 a in
  let '(h', w', c', rb) := as3 b in
  match bcast_dim h h', bcast_dim w w', bcast_dim c c' with
  | Some H, Some W, Some C =>
      Ok (Nd3 H W C (bcast_zip (bcast_zip (bcast_zip f c c') w w') h h' ra rb))
  | _, _, _ => Raise (ValueError (broadcast_mismatch (shape a) (shape b)))
  end.

(** [np.transpose(a, (2, 0, 1))]: channel-last to channel-first. *)
Definition transpose201 {A} `{Inhabited A} (a : ndarray A) : result (ndarray A) :=
  match a with
  | Nd2 _ _ _ => Raise (ValueError transpose_axes_mismatch)
  | Nd3 h w c rows =>
      Ok (Nd3 c h w
            (lmap (fun k => lmap (lmap (fun px : list A => px !!! k)) rows)
               (seq 0 (Z.to_nat c))))
  end.

(** The samples in C order. *)
Definition ravel {A} (a : ndarray A) : list A :=
  match a with
  | Nd2 _ _ rows => concat rows
  | Nd3 _ _ _ rows => concat (concat rows)
  end.

(** [k] consecutive chunks of [n] elements. *)
Fixpoint chunks {A} (k n : nat) (l : list A) : list (list A) :=
  match k with
  | O => []
  | S k' => take n l :: chunks k' n (drop n l)
  end.

(** [a.reshape(n, c, h, w)] *)
Definition reshape4 {A} (a : ndarray A) (n c h w : Z) : result (tensor4 A) :=
  if size a =? n * c * h * w then
    let rows := chunks (Z.to_nat (n * c * h)) (Z.to_nat w) (ravel a) in
    let planes := chunks (Z.to_nat (n * c)) (Z.to_nat h) rows in
    Ok (Nd4 n c h w (chunks (Z.to_nat n) (Z.to_nat c) planes))
  else Raise (ValueError (reshape_size_mismatch (size a) [n; c; h; w])).

(** uint8 samples *)
Definition saturate_u8 (x : Z) : Z := Z.max 0 (Z.min 255 x).

(** [a / 255.0] on a uint8 array: float64 true division. *)
Definition truediv_scalar (a : ndarray Z) (d : Py.float) : ndarray Py.float :=
  map (fun v => Py.fdiv (Py.of_int v) d) a.

(** [a.astype(np.float32)] *)
Definition to_float32 (x : Py.float) : Py.float :=
  match x with
  | S754_finite s m e => binary_round Py.prec32 Py.emax32 s m e
  | _ => x
  end.

Definition astype_float32 (a : ndarray Py.float) : ndarray Py.float :=
  map to_float32 a.

End Np.

(** ** OpenCV *)

Module Cv.

(** The value [cv.resize] interpolates, before saturation, for the
    destination sample at row [i], column [j], channel [k] of a
    destination of size [dsize = (width, height)].  The arithmetic of
    the interpolation belongs to OpenCV, the development is
    parametric in it. *)
Definition kernel : Type := Np.ndarray Z -> Z * Z -> nat -> nat -> nat -> Z.

(** The most channels an array may have: 512 in OpenCV 4 (128 in OpenCV
    5).  An 8-bit PIL image has at most four bands; no property of the
    methods depends on the limit beyond that. *)
Definition CV_CN_MAX : Z := 512.

Section Resize.
Variable INTER_LINEAR : kernel.

(** [cv.resize(src, dsize, interpolation=cv.INTER_LINEAR)] on a uint8
    array.  An empty source or an empty [dsize] (no scale factors are
    given) fails OpenCV's assertions; a single channel comes back
    without its channel axis.  OpenCV holds [dsize] in two C ints and
    needs the memory for the result; neither limit is part of this
    definition, which stands for [cv.resize] on targets that fit.  The
    properties that depend on the size of the target bound it: 672 rows
    and columns with the class body, at most 1024 otherwise. *)
Definition resize (src : Np.ndarray Z) (dsize : Z * Z) : result (Np.ndarray Z) :=
  let '(h, w) := Np.shape2 src in
  let cn := Np.channels src in
  if (h <=? 0) || (w <=? 0) || (cn <=? 0) || (CV_CN_MAX <? cn)
  then Raise cv2_error
  else if (dsize.1 <=? 0) || (dsize.2 <=? 0) then Raise cv2_error
  else
    let sample i j k := Np.saturate_u8 (INTER_LINEAR src dsize i j k) in
    let rows := seq 0 (Z.to_nat dsize.2) in
    let cols := seq 0 (Z.to_nat dsize.1) in
    if cn =? 1 then
      Ok (Np.Nd2 dsize.2 dsize.1
            (lmap (fun i => lmap (fun j => sample i j O) cols) rows))
    else
      Ok (Np.Nd3 dsize.2 dsize.1 cn
            (lmap (fun i => lmap (fun j =>
               lmap (fun k => sample i j k) (seq 0 (Z.to_nat cn))) cols) rows)).
End Resize.

End Cv.

(** ** Objects, the world and calls *)

(** A decoded [PIL.Image.Image] in one of the 8-bit modes: what
    [np.array(img)] makes of it (height by width, with a channel axis when
    the mode has more than one band) and the metadata that travels with the
    object. *)
Record Image : Type := {
  im_array : Np.ndarray Z;
  im_info : string;
}.

Definition im_height (img : Image) : Z := (Np.shape2 (im_array img)).1.
Definition im_width (img : Image) : Z := (Np.shape2 (im_array img)).2.
Definition im_channels (img : Image) : Z := Np.channels (im_array img).

(** The values a caller can pass for [img]. *)
Inductive PyObj : Type :=
  | PilImage (img : Image)
  | PyBytes (b : list Z)
  | PyArray (a : Np.ndarray Z)
  | PyStr (s : string)
  | PyInt (z : Z)
  | PyNone.

(** [type(o)], as an f-string prints it. *)
Definition type_repr (o : PyObj) : string :=
  match o with
  | PilImage _ => "<class 'PIL.Image.Image'>"
  | PyBytes _ => "<class 'bytes'>"
  | PyArray _ => "<class 'numpy.ndarray'>"
  | PyStr _ => "<class 'str'>"
  | PyInt _ => "<class 'int'>"
  | PyNone => "<class 'NoneType'>"
  end.

(** The attributes of the class object [Preprocess]. *)
Record PreprocessCls : Type := {
  CLIP_INPUT_SIZE : Z;
  CROP_CENTER_PADDING : Z;
  NORM_MEAN : Np.ndarray Py.float;
  NORM_STD : Np.ndarray Py.float;
}.

(** The state a call runs in: the class object and every object the
    caller holds (the argument among them). *)
Record World : Type := {
  Preprocess_cls : PreprocessCls;
  heap : gmap nat PyObj;
}.

(** A call: from a world to a result or an exception, and a world. *)
Definition M (A : Type) : Type := World -> result A * World.

Global Instance M_ret : MRet M := fun A a w => (Ok a, w).
Global Instance M_bind : MBind M := fun A B f m w =>
  match m w with
  | (Ok a, w') => f a w'
  | (Raise e, w') => (Raise e, w')
  end.

(** A library call that does not touch the world. *)
Definition lift {A} (r : result A) : M A := fun w => (r, w).

Definition raise {A} (e : exn) : M A := lift (Raise e).

(** [Preprocess.NAME] *)
Definition getattr {A} (name : PreprocessCls -> A) : M A :=
  fun w => (Ok (name (Preprocess_cls w)), w).

(** ** class Preprocess *)

Module Preprocess.

(** The class body, lines 11-14. *)
Definition class_body : PreprocessCls := {|
  CLIP_INPUT_SIZE := 224;
  CROP_CENTER_PADDING := 224;
  NORM_MEAN :=
    Np.Nd3 1 1 3 [[[Py.literal 485 3; Py.literal 456 3; Py.literal 406 3]]];
  NORM_STD :=
    Np.Nd3 1 1 3 [[[Py.literal 229 3; Py.literal 224 3; Py.literal 225 3]]];
|}.

Section Methods.
Variable INTER_LINEAR : Cv.kernel.

(** [_smart_resize], lines 20-33: the side of the square, and the
    size of the image after the resize and before the padding. *)
Definition resized_size (h w : Z) : M (Z * Z * Z) :=
  input_size ← getattr CLIP_INPUT_SIZE;
  padding ← getattr CROP_CENTER_PADDING;
  let resized_sq_size := input_size + 2 * padding in
  if h >? w then
    let resized_h := resized_sq_size in
    q ← lift (Py.truediv (resized_h * w) h);
    resized_w ← lift (Py.round q);
    mret (resized_sq_size, resized_h, resized_w)
  else
    let resized_w := resized_sq_size in
    q ← lift (Py.truediv (resized_w * h) w);
    resized_h ← lift (Py.round q);
    mret (resized_sq_size, resized_h, resized_w).

(** [_smart_resize], lines 38-59: pad the resized image to the
    square. *)
Definition pad_to_square (resized_sq_size resized_h resized_w : Z)
    (img : Np.ndarray Z) : result (Np.ndarray Z) :=
  let vert_residual := resized_sq_size - resized_h in
  let hor_residual := resized_sq_size - resized_w in
  let vert_pad := vert_residual `div` 2 in
  let hor_pad := hor_residual `div` 2 in
  let padding :=
    if Np.ndim img =? 3 then
      [(vert_pad, vert_residual - vert_pad);
       (hor_pad, hor_residual - hor_pad);
       (0, 0)]
    else
      [(vert_pad, vert_residual - vert_pad);
       (hor_pad, hor_residual - hor_pad)] in
  Np.pad img padding 0.

Definition _smart_resize (img : Image) : M (Np.ndarray Z) :=
  let img := im_array img in
  let '(h, w) := Np.shape2 img in
  '(resized_sq_size, resized_h, resized_w) ← resized_size h w;
  img ← lift (Cv.resize INTER_LINEAR img (resized_w, resized_h));
  lift (pad_to_square resized_sq_size resized_h resized_w img).

(** The [isinstance] check; past it the argument is an [Image]. *)
Definition _assert_pil (img : PyObj) : M Image :=
  match img with
  | PilImage im => mret im
  | _ =>
      raise (AssertionError
               ("Expected PIL Image but instead got " +:+ type_repr img))
  end.

(** [encode_image], lines 81-87: resize and pad, crop the center. *)
Definition crop_center (img : Image) : M (Np.ndarray Z) :=
  img ← _smart_resize img;
  padding ← getattr CROP_CENTER_PADDING;
  mret (Np.getitem2 img (padding, - padding) (padding, - padding)).

(** [encode_image], lines 89-96: scale to [0, 1]; a gray image gets a
    channel axis and the channel three times. *)
Definition scale_to_unit (img : Np.ndarray Z) : result (Np.ndarray Py.float) :=
  let img := Np.truediv_scalar img (Py.of_int 255) in
  match img with
  | Np.Nd2 h w rows =>
      let img := Np.expand_dims2 h w rows in
      Np.concatenate3 img
  | Np.Nd3 _ _ _ _ => Ok img
  end.

(** [encode_image], lines 98-99. *)
Definition normalize_channels (img : Np.ndarray Py.float)
  : M (Np.ndarray Py.float) :=
  mean ← getattr NORM_MEAN;
  img ← lift (Np.binop Py.fsub img mean);
  std ← getattr NORM_STD;
  lift (Np.binop Py.fdiv img std).

(** [encode_image], lines 101-103. *)
Definition to_model_format (img : Np.ndarray Py.float)
  : result (Np.tensor4 Py.float) :=
  img ← Np.transpose201 img;
  Np.reshape4 (Np.astype_float32 img) 1 3 224 224.

Definition encode_image (img : PyObj) : M (Np.tensor4 Py.float) :=
  img ← _assert_pil img;
  img ← crop_center img;
  img ← lift (scale_to_unit img);
  img ← normalize_channels img;
  lift (to_model_format img).

End Methods.

End Preprocess.

(** ** Objects in memory *)

Module Mem.

Definition loc : Type := nat.

(** How an [ndarray] object looks at its buffer: the slices, added axes
    and transpositions that made it from the array that owns the
    buffer. *)
Inductive view_op : Type :=
  | Slice2 (r c : Z * Z)
  | ExpandDims2
  | Transpose201.

(** An [ndarray] object. *)
Record ndarray_ref : Type := {
  buffer : loc;
  views : list view_op;
}.

(** The object [reshape] returns: a view again, of four dimensions. *)
Record tensor_ref : Type := {
  tensor_of : ndarray_ref;
  tensor_shape : Z * Z * Z * Z;
}.

(** What a location holds: a Python object that is not an array (a PIL
    image with its pixels and metadata, bytes, ...), or the buffer of an
    array. *)
Inductive cell : Type :=
  | Object (o : PyObj)
  | Uint8 (a : Np.ndarray Z)
  | Float (a : Np.ndarray Py.float).

(** The class object: its two arrays are objects in memory. *)
Record ClassObj : Type := {
  CLIP_INPUT_SIZE : Z;
  CROP_CENTER_PADDING : Z;
  NORM_MEAN : ndarray_ref;
  NORM_STD : ndarray_ref;
}.

Record Store : Type := {
  Preprocess_cls : option ClassObj;
  cells : gmap loc cell;
}.

(** One view on an array. *)
Definition view {A} `{Inhabited A} (op : view_op) (a : Np.ndarray A)
  : option (Np.ndarray A) :=
  match op with
  | Slice2 r c => Some (Np.getitem2 a r c)
  | ExpandDims2 =>
      match a with
      | Np.Nd2 h w rows => Some (Np.expand_dims2 h w rows)
      | Np.Nd3 _ _ _ _ => None
      end
  | Transpose201 =>
      match Np.transpose201 a with
      | Ok b => Some b
      | Raise _ => None
      end
  end.

(** What an array object shows of the array in its buffer. *)
Definition look {A} `{Inhabited A} (ops : list view_op) (a : Np.ndarray A)
  : option (Np.ndarray A) :=
  foldl (fun acc op => acc ≫= view op) (Some a) ops.

(** The value of an array object in a store. *)
Definition uint8_of (s : Store) (a : ndarray_ref) : option (Np.ndarray Z) :=
  match cells s !! buffer a with
  | Some (Uint8 base) => look (views a) base
  | _ => None
  end.

Definition float_of (s : Store) (a : ndarray_ref) : option (Np.ndarray Py.float) :=
  match cells s !! buffer a with
  | Some (Float base) => look (views a) base
  | _ => None
  end.

Definition tensor_value (s : Store) (t : tensor_ref) : option (Np.tensor4 Py.float) :=
  x ← float_of s (tensor_of t);
  let '(n, c, h, w) := tensor_shape t in
  match Np.reshape4 x n c h w with
  | Ok v => Some v
  | Raise _ => None
  end.

(** What a call has come to, with the tensor read from the store. *)
Definition outcome (s : Store) (r : result tensor_ref)
  : option (result (Np.tensor4 Py.float)) :=
  match r with
  | Ok t => Ok <$> tensor_value s t
  | Raise e => Some (Raise e)
  end.

(** A call on objects in memory: it returns or raises in a new store; it
    has no outcome ([None]) where a reference has nothing behind it, which
    no Python program can bring about. *)
Definition S (A : Type) : Type := Store -> option (result A * Store).

Global Instance S_ret : MRet S := fun A a s => Some (Ok a, s).
Global Instance S_bind : MBind S := fun A B f m s =>
  match m s with
  | Some (Ok a, s') => f a s'
  | Some (Raise e, s') => Some (Raise e, s')
  | None => None
  end.

Definition lift {A} (r : result A) : S A := fun s => Some (r, s).
Definition raise {A} (e : exn) : S A := lift (Raise e).
Definition stuck {A} : S A := fun _ => None.

(** A new object, at a location not in use. *)
Definition alloc (c : cell) : S loc := fun s =>
  let l := fresh (dom (cells s)) in
  Some (Ok l, {| Preprocess_cls := Preprocess_cls s; cells := <[l := c]> (cells s) |}).

Definition load (l : loc) : S cell := fun s =>
  match cells s !! l with
  | Some c => Some (Ok c, s)
  | None => None
  end.

(** Writing into an object in place (item assignment, [out=], the
    augmented assignments). *)
Definition store (l : loc) (c : cell) : S unit := fun s =>
  Some (Ok tt, {| Preprocess_cls := Preprocess_cls s; cells := <[l := c]> (cells s) |}).

(** [Preprocess.NAME] *)
Definition getattr {A} (name : ClassObj -> A) : S A := fun s =>
  match Preprocess_cls s with
  | Some c => Some (Ok (name c), s)
  | None => None
  end.

(** The binding of the name [Preprocess] at the end of the class
    statement. *)
Definition bind_class (c : ClassObj) : S unit := fun s =>
  Some (Ok tt, {| Preprocess_cls := Some c; cells := cells s |}).

(** *** NumPy and OpenCV on objects *)

Definition read_uint8 (a : ndarray_ref) : S (Np.ndarray Z) := fun s =>
  match uint8_of s a with
  | Some x => Some (Ok x, s)
  | None => None
  end.

Definition read_float (a : ndarray_ref) : S (Np.ndarray Py.float) := fun s =>
  match float_of s a with
  | Some x => Some (Ok x, s)
  | None => None
  end.

(** A new array that owns its buffer. *)
Definition new_uint8 (x : Np.ndarray Z) : S ndarray_ref :=
  l ← alloc (Uint8 x); mret {| buffer := l; views := [] |}.

Definition new_float (x : Np.ndarray Py.float) : S ndarray_ref :=
  l ← alloc (Float x); mret {| buffer := l; views := [] |}.

(** A new array object on the buffer of [a]. *)
Definition add_view (a : ndarray_ref) (op : view_op) : ndarray_ref :=
  {| buffer := buffer a; views := views a ++ [op] |}.

(** [np.array(img)] on a PIL image: a new array with a copy of the
    pixels. *)
Definition np_array (img : loc) : S ndarray_ref :=
  c ← load img;
  match c with
  | Object (PilImage im) => new_uint8 (im_array im)
  | _ => stuck
  end.

(** [a.shape[0:2]] and [len(a.shape)] *)
Definition shape2 (a : ndarray_ref) : S (Z * Z) :=
  x ← read_uint8 a; mret (Np.shape2 x).

Definition ndim_uint8 (a : ndarray_ref) : S Z :=
  x ← read_uint8 a; mret (Np.ndim x).

Definition ndim_float (a : ndarray_ref) : S Z :=
  x ← read_float a; mret (Np.ndim x).

(** [cv.resize] reads its source and returns a new array. *)
Definition cv_resize (INTER_LINEAR : Cv.kernel) (src : ndarray_ref) (dsize : Z * Z)
  : S ndarray_ref :=
  x ← read_uint8 src;
  r ← lift (Cv.resize INTER_LINEAR x dsize);
  new_uint8 r.

(** [np.pad] returns a new array. *)
Definition np_pad (a : ndarray_ref) (padding : list (Z * Z)) (fill : Z)
  : S ndarray_ref :=
  x ← read_uint8 a;
  r ← lift (Np.pad x padding fill);
  new_uint8 r.

(** Basic slicing returns a view. *)
Definition getitem2 (a : ndarray_ref) (r c : Z * Z) : S ndarray_ref :=
  mret (add_view a (Slice2 r c)).

(** [a / 255.0] returns a new float64 array. *)
Definition truediv_scalar (a : ndarray_ref) (d : Py.float) : S ndarray_ref :=
  x ← read_uint8 a;
  new_float (Np.truediv_scalar x d).

(** [np.expand_dims(a, axis=2)] of a two-dimensional array: a view. *)
Definition expand_dims2 (a : ndarray_ref) : S ndarray_ref :=
  x ← read_float a;
  match x with
  | Np.Nd2 _ _ _ => mret (add_view a ExpandDims2)
  | Np.Nd3 _ _ _ _ => stuck
  end.

(** [np.concatenate((a,) * 3, axis=2)] returns a new array. *)
Definition concatenate3 (a : ndarray_ref) : S ndarray_ref :=
  x ← read_float a;
  r ← lift (Np.concatenate3 x);
  new_float r.

(** [a - b] and [a / b] return new arrays. *)
Definition binop (f : Py.float -> Py.float -> Py.float) (a b : ndarray_ref)
  : S ndarray_ref :=
  x ← read_float a;
  y ← read_float b;
  r ← lift (Np.binop f x y);
  new_float r.

(** [np.transpose(a, (2, 0, 1))] returns a view. *)
Definition transpose201 (a : ndarray_ref) : S ndarray_ref :=
  x ← read_float a;
  _ ← lift (Np.transpose201 x);
  mret (add_view a Transpose201).

(** [a.astype(np.float32)] returns a new array. *)
Definition astype_float32 (a : ndarray_ref) : S ndarray_ref :=
  x ← read_float a;
  new_float (Np.astype_float32 x).

(** [a.reshape(n, c, h, w)] returns a view. *)
Definition reshape4 (a : ndarray_ref) (n c h w : Z) : S tensor_ref :=
  x ← read_float a;
  _ ← lift (Np.reshape4 x n c h w);
  mret {| tensor_of := a; tensor_shape := (n, c, h, w) |}.

(** *** class Preprocess *)

(** The class statement, lines 6-14: the two arrays are made, then the
    name is bound. *)
Definition class_body : S unit :=
  mean ← new_float
    (Np.Nd3 1 1 3 [[[Py.literal 485 3; Py.literal 456 3; Py.literal 406 3]]]);
  std ← new_float
    (Np.Nd3 1 1 3 [[[Py.literal 229 3; Py.literal 224 3; Py.literal 225 3]]]);
  bind_class {| CLIP_INPUT_SIZE := 224; CROP_CENTER_PADDING := 224;
                NORM_MEAN := mean; NORM_STD := std |}.

Section Methods.
Variable INTER_LINEAR : Cv.kernel.

Definition _smart_resize (img : loc) : S ndarray_ref :=
  img ← np_array img;
  input_size ← getattr CLIP_INPUT_SIZE;
  padding ← getattr CROP_CENTER_PADDING;
  let resized_sq_size := input_size + 2 * padding in
  '(h, w) ← shape2 img;
  '(resized_h, resized_w) ←
    (if h >? w then
       let resized_h := resized_sq_size in
       q ← lift (Py.truediv (resized_h * w) h);
       resized_w ← lift (Py.round q);
       mret (resized_h, resized_w)
     else
       let resized_w := resized_sq_size in
       q ← lift (Py.truediv (resized_w * h) w);
       resized_h ← lift (Py.round q);
       mret (resized_h, resized_w));
  img ← cv_resize INTER_LINEAR img (resized_w, resized_h);
  let vert_residual := resized_sq_size - resized_h in
  let hor_residual := resized_sq_size - resized_w in
  let vert_pad := vert_residual `div` 2 in
  let hor_pad := hor_residual `div` 2 in
  ndim ← ndim_uint8 img;
  let padding :=
    if ndim =? 3 then
      [(vert_pad, vert_residual - vert_pad);
       (hor_pad, hor_residual - hor_pad);
       (0, 0)]
    else
      [(vert_pad, vert_residual - vert_pad);
       (hor_pad, hor_residual - hor_pad)] in
  np_pad img padding 0.

Definition _assert_pil (img : loc) : S unit :=
  c ← load img;
  match c with
  | Object (PilImage _) => mret tt
  | Object o =>
      raise (AssertionError
               ("Expected PIL Image but instead got " +:+ type_repr o))
  | _ => stuck
  end.

Definition encode_image (img : loc) : S tensor_ref :=
  _ ← _assert_pil img;
  img ← _smart_resize img;
  padding ← getattr CROP_CENTER_PADDING;
  img ← getitem2 img (padding, - padding) (padding, - padding);
  img ← truediv_scalar img (Py.of_int 255);
  ndim ← ndim_float img;
  img ← (if ndim =? 2 then
           img ← expand_dims2 img;
           concatenate3 img
         else mret img);
  mean ← getattr NORM_MEAN;
  img ← binop Py.fsub img mean;
  std ← getattr NORM_STD;
  img ← binop Py.fdiv img std;
  img ← transpose201 img;
  img ← astype_float32 img;
  reshape4 img 1 3 224 224.

End Methods.

End Mem.

(** The class of a store as the value-level methods read it. *)
Definition world_of (c : Mem.ClassObj) (mean std : Np.ndarray Py.float) : World :=
  {| Preprocess_cls :=
       {| CLIP_INPUT_SIZE := Mem.CLIP_INPUT_SIZE c;
          CROP_CENTER_PADDING := Mem.CROP_CENTER_PADDING c;
          NORM_MEAN := mean;
          NORM_STD := std |};
     heap := ∅ |}.

(** ** The pipeline in closed form

    What the stages of [encode_image] compute, written out on the rows of
    the arrays.  The theorems below relate these forms to the methods. *)

(** A uint8 sample. *)
Definition is_u8 (v : Z) : Prop := 0 <= v <= 255.

(** The square the padding produces: [top] rows of fill, every row of the
    image between [left] and [right] fills, [bottom] rows of fill. *)
Definition framed {B} (side : Z) (fill : B) (top bottom left right : Z)
    (rows : list (list B)) : list (list B) :=
  replicate (Z.to_nat top) (replicate (Z.to_nat side) fill) ++
  lmap (fun row => replicate (Z.to_nat left) fill ++ row ++
                   replicate (Z.to_nat right) fill) rows ++
  replicate (Z.to_nat bottom) (replicate (Z.to_nat side) fill).

(** [_smart_resize], lines 38-59, on a resized image. *)
Definition padded (side : Z) (img : Np.ndarray Z) : Np.ndarray Z :=
  let '(h, w) := Np.shape2 img in
  let vert_pad := (side - h) `div` 2 in
  let hor_pad := (side - w) `div` 2 in
  match img with
  | Np.Nd2 _ _ rows =>
      Np.Nd2 side side
        (framed side 0 vert_pad (side - h - vert_pad) hor_pad (side - w - hor_pad) rows)
  | Np.Nd3 _ _ c rows =>
      Np.Nd3 side side c
        (framed side (replicate (Z.to_nat c) 0)
           vert_pad (side - h - vert_pad) hor_pad (side - w - hor_pad) rows)
  end.

(** The center crop, lines 84-87. *)
Definition cropped (img : Np.ndarray Z) : Np.ndarray Z :=
  Np.getitem2 img (224, -224) (224, -224).

(** The side of the crop [p : -p] of a square of side [s + 2 * p]. *)
Definition crop_side (s p : Z) : Z := if p =? 0 then 0 else s.

(** Line 90 on one sample. *)
Definition unit_sample (v : Z) : Py.float := Py.fdiv (Py.of_int v) (Py.of_int 255).

(** The array before the channel normalisation, lines 90-96, as rows of
    pixels, and its number of channels. *)
Definition unit_pixels (img : Np.ndarray Z) : list (list (list Py.float)) :=
  match img with
  | Np.Nd2 _ _ rows =>
      lmap (lmap (fun v => [unit_sample v; unit_sample v; unit_sample v])) rows
  | Np.Nd3 _ _ _ rows => lmap (lmap (lmap unit_sample)) rows
  end.

Definition unit_channels (img : Np.ndarray Z) : Z :=
  match img with
  | Np.Nd2 _ _ _ => 3
  | Np.Nd3 _ _ c _ => c
  end.

(** [NORM_MEAN[0, 0, k]] and [NORM_STD[0, 0, k]] of the class body. *)
Definition channel_mean (k : nat) : Py.float :=
  [Py.literal 485 3; Py.literal 456 3; Py.literal 406 3] !!! k.
Definition channel_std (k : nat) : Py.float :=
  [Py.literal 229 3; Py.literal 224 3; Py.literal 225 3] !!! k.

(** Line 99 on one pixel of three channels. *)
Definition normalize_px (px : list Py.float) : list Py.float :=
  zip_with Py.fdiv
    (zip_with Py.fsub px [channel_mean 0; channel_mean 1; channel_mean 2])
    [channel_std 0; channel_std 1; channel_std 2].

(** Lines 99 and 103 on one sample of channel [k]: normalised in float64,
    stored as float32. *)
Definition normalized (k : nat) (x : Py.float) : Py.float :=
  Np.to_float32 (Py.fdiv (Py.fsub x (channel_mean k)) (channel_std k)).

(** Channel [k] of the output. *)
Definition plane (k : nat) (rows : list (list (list Py.float)))
  : list (list Py.float) :=
  lmap (lmap (fun px : list Py.float => normalized k (px !!! k))) rows.

(** The expression [x * NORM_STD[k] + NORM_MEAN[k]] on an output sample,
    as NumPy evaluates it (float64). *)
Definition denormalized (k : nat) (x : Py.float) : Py.float :=
  Py.fadd (Py.fmul x (channel_std k)) (channel_mean k).

(** The same expression in float32 arithmetic (what NumPy evaluates when
    the statistics are taken as float32), and on the decimal constants as
    real numbers. *)
Definition denormalized32 (k : nat) (x : Py.float) : Py.float :=
  SFadd Py.prec32 Py.emax32
    (SFmul Py.prec32 Py.emax32 x (Np.to_float32 (channel_std k)))
    (Np.to_float32 (channel_mean k)).

Definition decimal_mean (k : nat) : Q :=
  match k with
  | O => 485 # 1000
  | S O => 456 # 1000
  | _ => 406 # 1000
  end.
Definition decimal_std (k : nat) : Q :=
  match k with
  | O => 229 # 1000
  | S O => 224 # 1000
  | _ => 225 # 1000
  end.
Definition denormalized_real (k : nat) (x : Py.float) : Q :=
  Py.to_Q x * decimal_std k + decimal_mean k.

(** The per-channel bounds [(0 - MEAN) / STD] and [(1 - MEAN) / STD] on the
    decimal constants, as real numbers. *)
Definition range_lo (k : nat) : Q :=
  match k with
  | O => - 485 # 229
  | S O => - 456 # 224
  | _ => - 406 # 225
  end.
Definition range_hi (k : nat) : Q :=
  match k with
  | O => 515 # 229
  | S O => 544 # 224
  | _ => 594 # 225
  end.

(** The same bounds as the source's arithmetic gives them, in float64. *)
Definition range_lo64 (k : nat) : Py.float :=
  Py.fdiv (Py.fsub (Py.of_int 0) (channel_mean k)) (channel_std k).
Definition range_hi64 (k : nat) : Py.float :=
  Py.fdiv (Py.fsub (Py.of_int 1) (channel_mean k)) (channel_std k).

Definition u8_values : list Z := seqZ 0 256.

(** [a[i, j]] of a two-dimensional array, for indices in range. *)
Definition item2 {A} (a : Np.ndarray A) (i j : nat) : option A :=
  match a with
  | Np.Nd2 _ _ rows => row ← rows !! i; (row : list A) !! j
  | Np.Nd3 _ _ _ _ => None
  end.

(** A sample of an image array: [a[i, j]] of a gray one, [a[i, j, k]] of
    one with a channel axis. *)
Definition sample (a : Np.ndarray Z) (i j k : nat) : option Z :=
  match a with
  | Np.Nd2 _ _ _ => item2 a i j
  | Np.Nd3 _ _ _ _ => Np.item3 a i j k
  end.

(** A sample of the array before the normalisation: a uint8 over 255.0. *)
Definition unit_of_u8 (v : Py.float) : Prop :=
  exists g, is_u8 g /\ v = unit_sample g.

(** Rounding slack: half a unit in the last place of a float32 in [2, 4),
    and the slack of the round trip through the normalisation. *)
Definition eps23 : Q := 1 # (2 ^ 23).
Definition eps25 : Q := 1 # (2 ^ 25).

(** ** Checks over the 256 samples *)

Definition unit_sample_ok (g : Z) : bool :=
  Py.is_finite (unit_sample g) &&
  Qle_bool 0 (Py.to_Q (unit_sample g)) && Qle_bool (Py.to_Q (unit_sample g)) 1.

Definition normalized_ok (k : nat) (g : Z) : bool :=
  let x := normalized k (unit_sample g) in
  Py.is_finite x &&
  Qle_bool (Py.to_Q (normalized k (unit_sample 0))) (Py.to_Q x) &&
  Qle_bool (Py.to_Q x) (Py.to_Q (normalized k (unit_sample 255))).

Definition denormalized_ok (k : nat) (g : Z) : bool :=
  let y := denormalized k (normalized k (unit_sample g)) in
  Py.is_finite y &&
  Qle_bool (Qabs (Py.to_Q y - Py.to_Q (unit_sample g))) eps25 &&
  Qle_bool (Qabs (denormalized_real k (normalized k (unit_sample g)) -
                  Py.to_Q (unit_sample g))) eps25.

Definition range_ok (k : nat) : bool :=
  Qle_bool (range_lo k - eps23) (Py.to_Q (normalized k (unit_sample 0))) &&
  Qle_bool (Py.to_Q (normalized k (unit_sample 255))) (range_hi k + eps23).

Definition increasing_ok (k : nat) (g : Z) : bool :=
  negb (Qle_bool (Py.to_Q (normalized k (unit_sample (g + 1))))
                 (Py.to_Q (normalized k (unit_sample g)))).

(** ** Calls that leave the world alone *)

(** [m] returns the world it was given. *)
Definition preserves {A} (m : M A) : Prop := forall W, (m W).2 = W.

(** The result of [m] depends on the world through the class object only. *)
Definition reads_class {A} (m : M A) : Prop :=
  forall W W', Preprocess_cls W = Preprocess_cls W' -> (m W).1 = (m W').1.

(** Two results agree up to the samples: the same exception, or values of
    the same shape. *)
Definition same_outcome {A} (shape_of : A -> list Z) (r r' : result A) : Prop :=
  match r, r' with
  | Ok a, Ok a' => shape_of a = shape_of a'
  | Raise e, Raise e' => e = e'
  | _, _ => False
  end.

(** Two calls agree up to the samples, and leave the world alone. *)
Definition same_run {A} (shape_of : A -> list Z) (m m' : M A) (W : World) : Prop :=
  same_outcome shape_of (m W).1 (m' W).1 /\ (m W).2 = W /\ (m' W).2 = W.

(** [s'] holds every object of [s], unchanged, and the same class. *)
Definition extends (s s' : Mem.Store) : Prop :=
  Mem.Preprocess_cls s' = Mem.Preprocess_cls s /\ Mem.cells s ⊆ Mem.cells s'.

(** The call [m] has an outcome in [s], in a store that extends [s]. *)
Definition returns {A} (m : Mem.S A) (s : Mem.Store)
    (Q : result A -> Mem.Store -> Prop) : Prop :=
  exists r s', m s = Some (r, s') /\ extends s s' /\ Q r s'.

(** ** Rounding of shifted mantissas *)

(** The least integer above the number a shift record stands for. *)
Definition ceil_rec (x : shr_record) : Z :=
  shr_m x + (if shr_r x || shr_s x then 1 else 0).

Definition ceil_loc (m : Z) (l : location) : Z :=
  m + match l with loc_Exact => 0 | _ => 1 end.

(** ** Objects for the examples *)

(** A stand-in for OpenCV's interpolation: the nearest source sample. *)
Definition nearest : Cv.kernel := fun src dsize i j k =>
  let '(h, w) := Np.shape2 src in
  let si := Z.to_nat (Z.of_nat i * h `div` dsize.2) in
  let sj := Z.to_nat (Z.of_nat j * w `div` dsize.1) in
  match src with
  | Np.Nd2 _ _ rows => default 0 (row ← rows !! si; (row : list Z) !! sj)
  | Np.Nd3 _ _ _ rows =>
      default 0 (row ← rows !! si; px ← (row : list (list Z)) !! sj;
                 (px : list Z) !! k)
  end.

Definition image_of (a : Np.ndarray Z) : Image :=
  {| im_array := a; im_info := "" |}.

(** A gray strip, 1 pixel high and 4 wide. *)
Definition gray_1x4 : Image := image_of (Np.Nd2 1 4 [[10; 20; 30; 40]]).
(** A gray strip, 1 pixel high and 1344 wide. *)
Definition gray_1x1344 : Image := image_of (Np.Nd2 1 1344 [replicate 1344 128]).
(** One RGB pixel and one RGBA pixel. *)
Definition rgb_1x1 : Image := image_of (Np.Nd3 1 1 3 [[[255; 128; 0]]]).
Definition rgba_1x1 : Image := image_of (Np.Nd3 1 1 4 [[[255; 128; 0; 255]]]).
(** What a decoder gone wrong could hand over: no rows, no columns. *)
Definition empty_0x0 : Image := image_of (Np.Nd2 0 0 []).

(** The world after the import of the module, the caller holding the
    strip. *)
Definition world0 : World :=
  {| Preprocess_cls := Preprocess.class_body;
     heap := {[ 0%nat := PilImage gray_1x4 ]} |}.

(** The class with other sizes, and a world that holds it. *)
Definition class_with (input_size padding : Z) : PreprocessCls := {|
  CLIP_INPUT_SIZE := input_size;
  CROP_CENTER_PADDING := padding;
  NORM_MEAN := NORM_MEAN Preprocess.class_body;
  NORM_STD := NORM_STD Preprocess.class_body;
|}.

Definition world_with (input_size padding : Z) : World :=
  {| Preprocess_cls := class_with input_size padding; heap := ∅ |}.

(** The store after the import of the module, the caller holding the
    gray strip: the two arrays of the class at 0 and 1, the image at 2. *)
Definition class0 : Mem.ClassObj :=
  {| Mem.CLIP_INPUT_SIZE := 224;
     Mem.CROP_CENTER_PADDING := 224;
     Mem.NORM_MEAN := {| Mem.buffer := 0%nat; Mem.views := [] |};
     Mem.NORM_STD := {| Mem.buffer := 1%nat; Mem.views := [] |} |}.

Definition store0 : Mem.Store :=
  {| Mem.Preprocess_cls := Some class0;
     Mem.cells :=
       {[ 0%nat := Mem.Float (NORM_MEAN Preprocess.class_body);
          1%nat := Mem.Float (NORM_STD Preprocess.class_body);
          2%nat := Mem.Object (PilImage gray_1x4) ]} |}.

(** * Properties *)

(** ** Rounding of the quotient of two ints *)

Lemma ceil_rec_of_loc m l : ceil_rec (shr_record_of_loc m l) = ceil_loc m l.
Proof. destruct l as [|[]]; reflexivity. Qed.

Lemma shr_m_of_loc m l : shr_m (shr_record_of_loc m l) = m.
Proof. destruct l as [|[]]; reflexivity. Qed.

Lemma digits2_pos_lower p : 2 ^ (Z.pos (digits2_pos p) - 1) <= Z.pos p.
Proof.
    induction p as [p IH|p IH|]; cbn [digits2_pos].
    - rewrite Pos2Z.inj_succ. replace (Z.succ (Z.pos (digits2_pos p)) - 1)
        with (Z.succ (Z.pos (digits2_pos p) - 1)) by lia.
      rewrite Z.pow_succ_r by lia. lia.
    - rewrite Pos2Z.inj_succ. replace (Z.succ (Z.pos (digits2_pos p)) - 1)
        with (Z.succ (Z.pos (digits2_pos p) - 1)) by lia.
      rewrite Z.pow_succ_r by lia. lia.
    - reflexivity.
Qed.

Lemma Zdigits2_le m k : 0 <= m < 2 ^ k -> 0 <= k -> Zdigits2 m <= k.
Proof.
    intros [Hm Hlt] Hk. destruct m as [|p|p]; cbn [Zdigits2]; [lia| |lia].
    destruct (Z_le_gt_dec (Z.pos (digits2_pos p)) k) as [|Hgt]; [assumption|].
    pose proof (digits2_pos_lower p) as Hl.
    assert (2 ^ k <= 2 ^ (Z.pos (digits2_pos p) - 1)) by (apply Z.pow_le_mono_r; lia).
    lia.
Qed.

Lemma new_location_exact d r : 0 <= r -> ceil_loc 0 (new_location d r) = if r =? 0 then 0 else 1.
Proof.
    intros Hr. unfold new_location, new_location_even, new_location_odd, ceil_loc.
    destruct (Z.even d); destruct (r =? 0); try reflexivity;
      destruct (_ ?= _); reflexivity.
Qed.

Lemma shr_1_between x B C :
  0 <= shr_m x -> ceil_rec x <= 2 * B -> 2 * C <= shr_m x ->
  0 <= shr_m (shr_1 x) /\ ceil_rec (shr_1 x) <= B /\ C <= shr_m (shr_1 x).
Proof.
  destruct x as [m r s]. unfold ceil_rec. cbn [shr_m shr_r shr_s].
  destruct m as [|[p|p|]|p]; destruct r, s; cbn; lia.
Qed.

Lemma iter_shr_1_between p : forall x B C,
  0 <= shr_m x -> ceil_rec x <= 2 ^ Z.pos p * B -> 2 ^ Z.pos p * C <= shr_m x ->
  0 <= shr_m (iter_pos shr_1 p x) /\ ceil_rec (iter_pos shr_1 p x) <= B /\
  C <= shr_m (iter_pos shr_1 p x).
Proof.
  induction p as [p IH|p IH|]; intros x B C Hm Hc Hl; cbn [iter_pos].
  - assert (E : 2 ^ Z.pos p~1 = 2 * (2 ^ Z.pos p * 2 ^ Z.pos p)).
    { replace (Z.pos p~1) with (1 + Z.pos p + Z.pos p) by lia.
      rewrite !Z.pow_add_r by lia. change (2 ^ 1) with 2. lia. }
    rewrite E in Hc, Hl.
    destruct (shr_1_between x (2 ^ Z.pos p * (2 ^ Z.pos p * B))
                (2 ^ Z.pos p * (2 ^ Z.pos p * C))) as (H1 & H2 & H3); [lia..|].
    destruct (IH _ _ _ H1 H2 H3) as (H4 & H5 & H6).
    exact (IH _ _ _ H4 H5 H6).
  - assert (E : 2 ^ Z.pos p~0 = 2 ^ Z.pos p * 2 ^ Z.pos p).
    { replace (Z.pos p~0) with (Z.pos p + Z.pos p) by lia.
      rewrite Z.pow_add_r by lia. reflexivity. }
    rewrite E in Hc, Hl.
    destruct (IH x (2 ^ Z.pos p * B) (2 ^ Z.pos p * C)) as (H4 & H5 & H6); [lia..|].
    exact (IH _ _ _ H4 H5 H6).
  - apply shr_1_between; [lia|..]; change (2 ^ 1) with 2 in *; lia.
Qed.

Lemma digits2_pos_upper p : Z.pos p < 2 ^ Z.pos (digits2_pos p).
Proof.
  induction p as [p IH|p IH|]; cbn [digits2_pos]; [| |reflexivity];
    rewrite Pos2Z.inj_succ, Z.pow_succ_r by lia; lia.
Qed.

Section Between.
Variables L U t : Z.
Hypothesis t_range : 0 <= t <= 1074.
Hypothesis L_nonneg : 0 <= L.
Hypothesis U_range : 0 <= U < 2 ^ 53.

Lemma shr_fexp_between m e l :
  0 <= m -> e <= - t ->
  ceil_loc m l <= U * 2 ^ (- e - t) -> L * 2 ^ (- e - t) <= m ->
  forall x' e', shr_fexp 53 1024 m e l = (x', e') ->
  e' <= - t /\ 0 <= shr_m x' /\
  ceil_rec x' <= U * 2 ^ (- e' - t) /\ L * 2 ^ (- e' - t) <= shr_m x'.
Proof.
  intros Hm He Hc Hl x' e'. unfold shr_fexp, shr.
  assert (Hd : Zdigits2 m + e - 53 <= - t).
  { assert (Zdigits2 m <= 53 - e - t); [|lia].
    apply Zdigits2_le; [|lia]. split; [assumption|].
    assert (ceil_loc m l >= m) by (unfold ceil_loc; destruct l; lia).
    assert (0 < 2 ^ (- e - t)) by (apply Z.pow_pos_nonneg; lia).
    replace (53 - e - t) with (53 + (- e - t)) by lia.
    rewrite Z.pow_add_r by lia. nia. }
  destruct (fexp 53 1024 (Zdigits2 m + e) - e) as [|p|p] eqn:En;
    intros [= <- <-]; rewrite ?ceil_rec_of_loc, ?shr_m_of_loc;
    try (split; [lia|split; [assumption|split; assumption]]).
  assert (Hp : e + Z.pos p <= - t).
  { unfold fexp, emin in En. lia. }
  split; [assumption|].
  assert (E : 2 ^ (- e - t) = 2 ^ Z.pos p * 2 ^ (- (e + Z.pos p) - t)).
  { rewrite <- Z.pow_add_r by lia. f_equal. lia. }
  rewrite E in Hc, Hl.
  apply iter_shr_1_between; rewrite ?ceil_rec_of_loc, ?shr_m_of_loc; [assumption|lia|lia].
Qed.

Lemma round_nearest_even_between x :
  0 <= shr_m x ->
  shr_m x <= round_nearest_even (shr_m x) (loc_of_shr_record x) <= ceil_rec x.
Proof.
  destruct x as [m r s]. unfold ceil_rec. cbn [shr_m shr_r shr_s].
  destruct r, s; cbn; try destruct (Z.even m); lia.
Qed.

Lemma binary_round_aux_between m e l :
  0 <= m -> e <= - t ->
  ceil_loc m l <= U * 2 ^ (- e - t) -> L * 2 ^ (- e - t) <= m ->
  binary_round_aux 53 1024 false m e l = S754_zero false /\ L = 0 \/
  exists m' e', binary_round_aux 53 1024 false m e l = S754_finite false m' e' /\
                e' <= - t /\
                L * 2 ^ (- e' - t) <= Z.pos m' <= U * 2 ^ (- e' - t).
Proof.
  intros Hm He Hc Hl. unfold binary_round_aux.
  destruct (shr_fexp 53 1024 m e l) as [x1 e1] eqn:E1.
  destruct (shr_fexp_between _ _ _ Hm He Hc Hl _ _ E1) as (He1 & Hm1 & Hc1 & Hl1).
  pose proof (round_nearest_even_between x1 Hm1) as [Hr0 Hr1].
  destruct (shr_fexp 53 1024 _ e1 loc_Exact) as [x2 e2] eqn:E2.
  apply shr_fexp_between in E2 as (He2 & Hm2 & Hc2 & Hl2);
    [|lia|assumption|unfold ceil_loc; lia|lia].
  assert (shr_m x2 <= ceil_rec x2) by (unfold ceil_rec; destruct (_ || _); lia).
  assert (0 < 2 ^ (- e2 - t)) by (apply Z.pow_pos_nonneg; lia).
  destruct (shr_m x2) as [|p|p] eqn:Ex; [left; split; [reflexivity|nia]| |lia].
  right. exists p, e2.
  replace (e2 <=? 1024 - 53) with true by (symmetry; apply Z.leb_le; lia).
  repeat split; [assumption|lia|lia].
Qed.

Lemma truediv_between a b :
  0 <= a -> 0 < b -> L * b <= a * 2 ^ t -> a * 2 ^ t <= U * b ->
  Py.truediv a b = Ok (S754_zero false) /\ L = 0 \/
  exists m e, Py.truediv a b = Ok (S754_finite false m e) /\
              e <= - t /\ L * 2 ^ (- e - t) <= Z.pos m <= U * 2 ^ (- e - t).
Proof.
  intros Ha Hb Hlo Hhi. unfold Py.truediv.
  replace (b =? 0) with false by (symmetry; apply Z.eqb_neq; lia).
  destruct b as [|pb|]; try lia.
  destruct a as [|pa|]; try lia.
  { left. split; [reflexivity|]. nia. }
  cbn [Py.exact_int]. unfold Py.fdiv, SFdiv, Py.prec64, Py.emax64.
  unfold SFdiv_core_binary.
  assert (Ht : 0 < 2 ^ t) by (apply Z.pow_pos_nonneg; lia).
  assert (Hdig : Zdigits2 (Z.pos pa) + 0 - (Zdigits2 (Z.pos pb) + 0) - 53 <= - t).
  { pose proof (digits2_pos_upper pb) as Hub. cbn [Zdigits2].
    assert (0 < 2 ^ Z.pos (digits2_pos pb)) by (apply Z.pow_pos_nonneg; lia).
    assert (Hlt : Z.pos pa * 2 ^ t < 2 ^ 53 * 2 ^ Z.pos (digits2_pos pb)) by nia.
    assert (t < 53 + Z.pos (digits2_pos pb)).
    { destruct (Z_lt_le_dec t (53 + Z.pos (digits2_pos pb))) as [|Hge]; [assumption|].
      rewrite <- Z.pow_add_r in Hlt by lia.
      assert (2 ^ (53 + Z.pos (digits2_pos pb)) <= 2 ^ t)
        by (apply Z.pow_le_mono_r; lia).
      nia. }
    assert (Zdigits2 (Z.pos pa) <= 53 + Z.pos (digits2_pos pb) - t); [|cbn [Zdigits2] in *; lia].
    apply Zdigits2_le; [|lia]. split; [lia|].
    rewrite <- Z.pow_add_r in Hlt by lia.
    replace (53 + Z.pos (digits2_pos pb)) with (53 + Z.pos (digits2_pos pb) - t + t) in Hlt by lia.
    rewrite Z.pow_add_r in Hlt by lia. nia. }
  set (e' := Z.min _ _).
  assert (He' : e' <= - t) by (unfold e', fexp, emin; lia).
  replace (0 - 0 - e') with (- e') by lia.
  set (m' := match - e' with Z.pos _ => _ | Z0 => _ | Z.neg _ => _ end).
  assert (Hm' : m' = Z.pos pa * 2 ^ (- e')).
  { unfold m'. destruct (- e') as [|p|p] eqn:E; [lia| |lia].
    rewrite Z.shiftl_mul_pow2 by lia. reflexivity. }
  clearbody m' e'. clear Hdig.
  pose proof (Z_div_mod m' (Z.pos pb) ltac:(lia)) as Hdm.
  destruct (Z.div_eucl m' (Z.pos pb)) as [q r]. cbn [xorb].
  destruct Hdm as [Hq Hr].
  assert (H2 : 0 < 2 ^ (- e' - t)) by (apply Z.pow_pos_nonneg; lia).
  assert (Hsplit : 2 ^ (- e') = 2 ^ t * 2 ^ (- e' - t)).
  { rewrite <- Z.pow_add_r by lia. f_equal. lia. }
  assert (Hq0 : 0 <= q) by nia.
  assert (Hc : ceil_loc q (new_location (Z.pos pb) r) <= U * 2 ^ (- e' - t)).
  { pose proof (new_location_exact (Z.pos pb) r ltac:(lia)) as Hl.
    unfold ceil_loc in *. destruct (Z.eqb_spec r 0); nia. }
  assert (Hl : L * 2 ^ (- e' - t) <= q) by nia.
  destruct (binary_round_aux_between q e' _ Hq0 He' Hc Hl)
    as [[-> ->]|(m1 & e1 & -> & He1 & Hm1)].
  - left. split; reflexivity.
  - right. exists m1, e1. repeat split; [assumption|lia|lia].
Qed.
End Between.

(** The rounded quotient of two ints stays below an integer bound on the
    quotient, whatever the size of the ints. *)
Lemma div_half_even_bound K n d :
  0 < d -> 0 <= n <= K * d -> 0 <= Py.div_half_even n d <= K.
Proof.
  intros Hd [Hn HK]. unfold Py.div_half_even.
  pose proof (Z.div_mod n d ltac:(lia)) as Hdm.
  pose proof (Z.mod_pos_bound n d Hd) as Hmod.
  assert (0 <= n / d) by (apply Z.div_pos; lia).
  assert (n / d <= K) by (apply Z.div_le_upper_bound; lia).
  destruct (Z.compare_spec (2 * (n mod d)) d) as [E|E|E]; try destruct (Z.even _); try lia;
    (assert (n / d <> K) by nia; lia).
Qed.

Lemma truediv_round_bound K a b :
  0 <= K < 2 ^ 53 -> 0 <= a -> 0 < b -> a <= K * b ->
  exists q n, Py.truediv a b = Ok q /\ Py.round q = Ok n /\ 0 <= n <= K.
Proof.
  intros HK Ha Hb Hab.
  destruct (truediv_between 0 K 0 ltac:(lia) ltac:(lia) HK a b)
    as [[-> _]|(m & e & -> & He & Hm)]; [lia..| |].
  { exists (S754_zero false), 0. cbn. repeat split; lia. }
  eexists _, _. split; [reflexivity|]. cbn [Py.round cond_Zopp]. split; [reflexivity|].
  rewrite Z.sub_0_r in Hm. destruct (Z.leb_spec 0 e).
  - replace e with 0 in * by lia. cbn in Hm. lia.
  - apply div_half_even_bound; [apply Z.pow_pos_nonneg; lia|lia].
Qed.

(** [round] on a finite float between two dyadic bounds around the
    integer it has to give. *)
Lemma round_finite m e :
  e < 0 -> Py.round (S754_finite false m e) = Ok (Py.div_half_even (Z.pos m) (2 ^ (- e))).
Proof.
  intros He. cbn [Py.round cond_Zopp].
  destruct (Z.leb_spec 0 e); [lia|reflexivity].
Qed.

Lemma div_half_even_unique n d q r :
  0 < d -> n = q * d + r -> 0 <= r < d ->
  Py.div_half_even n d =
  match 2 * r ?= d with
  | Lt => q
  | Gt => q + 1
  | Eq => if Z.even q then q else q + 1
  end.
Proof.
  intros Hd Hn Hr. unfold Py.div_half_even.
  assert (Hq : n `div` d = q) by (symmetry; apply (Z.div_unique _ _ _ r); lia).
  assert (Hm : n `mod` d = r) by (symmetry; apply (Z.mod_unique _ _ q); lia).
  by rewrite Hq, Hm.
Qed.

(** Below 2^40 the float quotient rounds as the exact quotient does. *)
Lemma truediv_round_exact a b :
  0 <= a -> 0 < b <= 2 ^ 40 -> a <= 672 * b ->
  exists q, Py.truediv a b = Ok q /\ Py.round q = Ok (Py.div_half_even a b).
Proof.
  intros Ha [Hb Hb40] Hab.
  pose proof (Z.div_mod a b ltac:(lia)) as Hdm.
  pose proof (Z.mod_pos_bound a b Hb) as Hmod.
  assert (Hq0 : 0 <= a `div` b) by (apply Z.div_pos; lia).
  assert (Hq672 : a `div` b <= 672) by (apply Z.div_le_upper_bound; lia).
  unfold Py.div_half_even.
  set (q := a `div` b) in *. set (r := a `mod` b) in *. clearbody q r.
  assert (H40 : 2 ^ 40 = 1099511627776) by reflexivity.
  assert (H41 : 2 ^ 41 = 2199023255552) by reflexivity.
  assert (H53 : 2 ^ 53 = 9007199254740992) by reflexivity.
  destruct (Z.compare_spec (2 * r) b) as [Htie|Hlt|Hgt].
  - (* the quotient is q + 1/2 *)
    destruct (truediv_between (2 * q + 1) (2 * q + 1) 1 ltac:(lia) ltac:(lia) ltac:(lia) a b)
      as [[_ ?]|(m & e & -> & He & Hm)]; [lia..| |].
    { lia. }
    eexists. split; [reflexivity|]. rewrite round_finite by lia. f_equal.
    assert (Hs : 2 ^ (- e) = 2 * 2 ^ (- e - 1)).
    { replace (- e) with (1 + (- e - 1)) at 1 by lia.
      rewrite Z.pow_add_r by lia. reflexivity. }
    assert (0 < 2 ^ (- e - 1)) by (apply Z.pow_pos_nonneg; lia).
    rewrite (div_half_even_unique (Z.pos m) (2 ^ (- e)) q (2 ^ (- e - 1))) by lia.
    replace (2 * 2 ^ (- e - 1) ?= 2 ^ (- e)) with Eq; [reflexivity|].
    symmetry. apply Z.compare_eq_iff. lia.
  - (* below the half: q *)
    destruct (truediv_between (q * 2 ^ 41) ((2 * q + 1) * 2 ^ 40 - 1) 41
                ltac:(lia) ltac:(lia) ltac:(lia) a b)
      as [[-> HL]|(m & e & -> & He & Hm)]; [lia..| |].
    { exists (S754_zero false). split; [reflexivity|]. cbn. f_equal. lia. }
    eexists. split; [reflexivity|]. rewrite round_finite by lia. f_equal.
    assert (Hs : 2 ^ (- e) = 2 ^ 41 * 2 ^ (- e - 41)).
    { rewrite <- Z.pow_add_r by lia. f_equal. lia. }
    assert (0 < 2 ^ (- e - 41)) by (apply Z.pow_pos_nonneg; lia).
    set (s := 2 ^ (- e - 41)) in *. clearbody s.
    rewrite (div_half_even_unique (Z.pos m) (2 ^ (- e)) q (Z.pos m - q * 2 ^ (- e))) by nia.
    replace (2 * (Z.pos m - q * 2 ^ (- e)) ?= 2 ^ (- e)) with Lt; [reflexivity|].
    symmetry. apply Z.compare_lt_iff. nia.
  - (* above the half: q + 1 *)
    destruct (truediv_between ((2 * q + 1) * 2 ^ 40 + 1) ((q + 1) * 2 ^ 41) 41
                ltac:(lia) ltac:(lia) ltac:(lia) a b)
      as [[_ ?]|(m & e & -> & He & Hm)]; [lia..| |].
    { lia. }
    eexists. split; [reflexivity|]. rewrite round_finite by lia. f_equal.
    assert (Hs : 2 ^ (- e) = 2 ^ 41 * 2 ^ (- e - 41)).
    { rewrite <- Z.pow_add_r by lia. f_equal. lia. }
    assert (0 < 2 ^ (- e - 41)) by (apply Z.pow_pos_nonneg; lia).
    set (s := 2 ^ (- e - 41)) in *. clearbody s.
    destruct (Z.eq_dec (Z.pos m) ((q + 1) * 2 ^ (- e))) as [Etop|Ntop].
    + rewrite (div_half_even_unique (Z.pos m) (2 ^ (- e)) (q + 1) 0) by lia.
      replace (2 * 0 ?= 2 ^ (- e)) with Lt; [reflexivity|].
      symmetry. apply Z.compare_lt_iff. lia.
    + rewrite (div_half_even_unique (Z.pos m) (2 ^ (- e)) q (Z.pos m - q * 2 ^ (- e))) by nia.
      replace (2 * (Z.pos m - q * 2 ^ (- e)) ?= 2 ^ (- e)) with Gt; [reflexivity|].
      symmetry. apply Z.compare_gt_iff. nia.
Qed.

(** ** Lists and arrays *)

Section ListFacts.
Context {A : Type}.
Implicit Types (l : list A) (P : A -> Prop).

Lemma slice_bound_range i n : 0 <= n -> 0 <= Py.slice_bound i n <= n.
Proof. unfold Py.slice_bound. destruct (i <? 0) eqn:E; lia. Qed.

Lemma length_slice a b l :
  length (Py.slice a b l) = Z.to_nat (Np.slice_len a b (Z.of_nat (length l))).
Proof.
  unfold Py.slice, Np.slice_len.
  pose proof (slice_bound_range a (Z.of_nat (length l)) ltac:(lia)).
  pose proof (slice_bound_range b (Z.of_nat (length l)) ltac:(lia)).
  rewrite length_take, length_drop. lia.
Qed.

Lemma Forall_slice P a b l : Forall P l -> Forall P (Py.slice a b l).
Proof. intros H. unfold Py.slice. by apply Forall_take, Forall_drop. Qed.

Lemma length_pad_axis p (fill : A) l :
  length (Np.pad_axis p fill l) = (Z.to_nat p.1 + length l + Z.to_nat p.2)%nat.
Proof. unfold Np.pad_axis. rewrite !length_app, !length_replicate. lia. Qed.

Lemma Forall_pad_axis P p (fill : A) l :
  P fill -> Forall P l -> Forall P (Np.pad_axis p fill l).
Proof.
  intros Hf Hl. unfold Np.pad_axis.
  rewrite !Forall_app. auto using Forall_replicate.
Qed.

Lemma chunks_concat n (ls : list (list A)) :
  Forall (fun l => length l = n) ls ->
  Np.chunks (length ls) n (concat ls) = ls.
Proof.
  induction 1 as [|l ls Hl _ IH]; [reflexivity|].
  cbn [length Np.chunks concat].
  rewrite take_app_length', drop_app_length' by (symmetry; assumption).
  by rewrite IH.
Qed.

Lemma length_concat_uniform n (ls : list (list A)) :
  Forall (fun l => length l = n) ls -> length (concat ls) = (length ls * n)%nat.
Proof.
  induction 1 as [|l ls Hl _ IH]; [reflexivity|].
  cbn [concat length]. rewrite length_app. lia.
Qed.
End ListFacts.

Section ArrayFacts.
Context {A : Type}.
Implicit Types (a : Np.ndarray A) (P : A -> Prop).

Lemma rows_wf_pad {B} (h w : Z) (rows : list (list B)) (p0 p1 : Z * Z) (fill : B) :
  Np.rows_wf h w rows -> 0 <= p0.1 -> 0 <= p0.2 -> 0 <= p1.1 -> 0 <= p1.2 ->
  Np.rows_wf (p0.1 + h + p0.2) (p1.1 + w + p1.2)
    (lmap (Np.pad_axis p1 fill)
       (Np.pad_axis p0 (replicate (Z.to_nat w) fill) rows)).
Proof.
  intros (Hh & Hw & Hl & Hr) ? ? ? ?. repeat split; [lia|lia| |].
  - rewrite length_fmap, length_pad_axis. lia.
  - apply Forall_fmap, Forall_pad_axis.
    + cbn. rewrite length_pad_axis, length_replicate. lia.
    + eapply Forall_impl; [exact Hr|]. intros r Hlen. cbn in Hlen |- *.
      rewrite length_pad_axis. lia.
Qed.

Lemma pad_checked (padding : list (Z * Z)) :
  existsb (fun p => (p.1 <? 0) || (p.2 <? 0)) padding = false ->
  Forall (fun p => 0 <= p.1 /\ 0 <= p.2) padding.
Proof.
  induction padding as [|p ps IH]; cbn; [constructor|].
  intros [[H1 H2]%orb_false_elim H3]%orb_false_elim.
  constructor; [lia|auto].
Qed.

Lemma pad_wf a padding (fill : A) r :
  Np.wf a -> Np.pad a padding fill = Ok r -> Np.wf r.
Proof.
  intros Hwf. unfold Np.pad.
  destruct (existsb _ padding) eqn:E; [discriminate|].
  apply pad_checked in E.
  destruct a as [h w rows|h w c rows].
  - destruct padding as [|p0 [|p1 [|]]]; try discriminate. intros [= <-].
    apply Forall_cons in E as [[] [[] _]%Forall_cons]. by apply rows_wf_pad.
  - destruct padding as [|p0 [|p1 [|p2 [|]]]]; try discriminate. intros [= <-].
    apply Forall_cons in E as [[] [[] [[] _]%Forall_cons]%Forall_cons].
    destruct Hwf as (Hrows & Hc & Hpx). split; [|split].
    + pose proof (rows_wf_pad h w rows p0 p1 (replicate (Z.to_nat c) fill) Hrows) as Hp.
      destruct Hp as (? & ? & Hlen & Hall); [lia..|].
      repeat split; [lia|lia|by rewrite length_fmap|].
      apply Forall_fmap. eapply Forall_impl; [exact Hall|].
      intros row Hrow. cbn in Hrow |- *. by rewrite length_fmap.
    + lia.
    + apply Forall_fmap, Forall_fmap, Forall_pad_axis.
      * cbn. apply Forall_fmap, Forall_pad_axis.
        -- cbn. rewrite length_pad_axis, length_replicate. lia.
        -- apply Forall_replicate. cbn. rewrite length_pad_axis, length_replicate. lia.
      * eapply Forall_impl; [exact Hpx|]. intros row Hrow. cbn in Hrow |- *.
        apply Forall_fmap, Forall_pad_axis.
        -- cbn. rewrite length_pad_axis, length_replicate. lia.
        -- eapply Forall_impl; [exact Hrow|]. intros px Hlen. cbn in Hlen |- *.
           rewrite length_pad_axis. lia.
Qed.

Lemma pad_all P a padding (fill : A) r :
  P fill -> Np.all P a -> Np.pad a padding fill = Ok r -> Np.all P r.
Proof.
  intros Hf Ha. unfold Np.pad.
  destruct (existsb _ padding); [discriminate|].
  destruct a as [h w rows|h w c rows].
  - destruct padding as [|p0 [|p1 [|]]]; try discriminate. intros [= <-]. cbn in *.
    apply Forall_fmap, Forall_pad_axis.
    + cbn. apply Forall_pad_axis; [assumption|by apply Forall_replicate].
    + eapply Forall_impl; [exact Ha|]. intros row Hrow. cbn in Hrow |- *. by apply Forall_pad_axis.
  - destruct padding as [|p0 [|p1 [|p2 [|]]]]; try discriminate. intros [= <-]. cbn in *.
    assert (Hpx : Forall P (Np.pad_axis p2 fill (replicate (Z.to_nat c) fill))).
    { apply Forall_pad_axis; [assumption|by apply Forall_replicate]. }
    apply Forall_fmap, Forall_fmap, Forall_pad_axis.
    + cbn. apply Forall_fmap, Forall_pad_axis; [exact Hpx|].
      apply Forall_replicate. exact Hpx.
    + eapply Forall_impl; [exact Ha|]. intros row Hrow. cbn in Hrow |- *.
      apply Forall_fmap, Forall_pad_axis; [exact Hpx|].
      eapply Forall_impl; [exact Hrow|]. intros px Hp. cbn in Hp |- *. by apply Forall_pad_axis.
Qed.

Lemma slice_len_nonneg (i j n : Z) : 0 <= Np.slice_len i j n.
Proof. unfold Np.slice_len. lia. Qed.

Lemma rows_wf_slice {B} (h w : Z) (rows : list (list B)) r c :
  Np.rows_wf h w rows ->
  Np.rows_wf (Np.slice_len r.1 r.2 h) (Np.slice_len c.1 c.2 w)
    (lmap (Py.slice c.1 c.2) (Py.slice r.1 r.2 rows)).
Proof.
  intros (Hh & Hw & Hl & Hr).
  repeat split; [apply slice_len_nonneg..| |].
  - rewrite length_fmap, length_slice, Hl, Z2Nat.id by assumption. reflexivity.
  - apply Forall_fmap, Forall_slice. eapply Forall_impl; [exact Hr|].
    intros row Hrow. cbn in Hrow |- *. rewrite length_slice, Hrow, Z2Nat.id by assumption. reflexivity.
Qed.

Lemma getitem2_wf a r c : Np.wf a -> Np.wf (Np.getitem2 a r c).
Proof.
  destruct a as [h w rows|h w k rows]; cbn.
  - apply rows_wf_slice.
  - intros (Hrows & Hk & Hpx). split; [by apply rows_wf_slice|]. split; [assumption|].
    apply Forall_fmap, Forall_slice. eapply Forall_impl; [exact Hpx|].
    intros row Hrow. cbn in Hrow |- *. by apply Forall_slice.
Qed.

Lemma getitem2_all P a r c : Np.all P a -> Np.all P (Np.getitem2 a r c).
Proof.
  destruct a as [h w rows|h w k rows]; cbn; intros Ha;
    apply Forall_fmap, Forall_slice; (eapply Forall_impl; [exact Ha|]);
    intros row Hrow; cbn; by apply Forall_slice.
Qed.

Lemma map_wf {B} (f : A -> B) a : Np.wf a -> Np.wf (Np.map f a).
Proof.
  destruct a as [h w rows|h w k rows]; cbn.
  - intros (Hh & Hw & Hl & Hr). repeat split; [assumption..|by rewrite length_fmap|].
    apply Forall_fmap. eapply Forall_impl; [exact Hr|]. intros row Hrow. cbn in Hrow |- *.
    by rewrite length_fmap.
  - intros ((Hh & Hw & Hl & Hr) & Hk & Hpx). repeat split; [assumption..|by rewrite length_fmap| |assumption|].
    + apply Forall_fmap. eapply Forall_impl; [exact Hr|]. intros row Hrow. cbn in Hrow |- *.
      by rewrite length_fmap.
    + apply Forall_fmap. eapply Forall_impl; [exact Hpx|]. intros row Hrow. cbn in Hrow |- *.
      apply Forall_fmap. eapply Forall_impl; [exact Hrow|]. intros px Hlen. cbn in Hlen |- *.
      by rewrite length_fmap.
Qed.

Lemma map_all {B} (f : A -> B) P (Q : B -> Prop) a :
  (forall x, P x -> Q (f x)) -> Np.all P a -> Np.all Q (Np.map f a).
Proof.
  intros Hf. destruct a as [h w rows|h w k rows]; cbn; intros Ha.
  - apply Forall_fmap. eapply Forall_impl; [exact Ha|]. intros row Hrow. cbn in Hrow |- *.
    apply Forall_fmap. eapply Forall_impl; [exact Hrow|]. auto.
  - apply Forall_fmap. eapply Forall_impl; [exact Ha|]. intros row Hrow. cbn in Hrow |- *.
    apply Forall_fmap. eapply Forall_impl; [exact Hrow|]. intros px Hp. cbn in Hp |- *.
    apply Forall_fmap. eapply Forall_impl; [exact Hp|]. auto.
Qed.
End ArrayFacts.

(** ** Running the methods *)

Lemma saturate_u8_range x : is_u8 (Np.saturate_u8 x).
Proof. unfold is_u8, Np.saturate_u8. lia. Qed.

(** Running a call. *)
Lemma run_bind_ok {A B} (m : M A) (f : A -> M B) W a W' :
  m W = (Ok a, W') -> (m ≫= f) W = f a W'.
Proof. intros H. unfold mbind, M_bind. by rewrite H. Qed.

Lemma run_bind_raise {A B} (m : M A) (f : A -> M B) W e W' :
  m W = (Raise e, W') -> (m ≫= f) W = (Raise e, W').
Proof. intros H. unfold mbind, M_bind. by rewrite H. Qed.

Lemma run_getattr {A} (name : PreprocessCls -> A) W :
  getattr name W = (Ok (name (Preprocess_cls W)), W).
Proof. reflexivity. Qed.

Lemma run_lift {A} (r : result A) W : lift r W = (r, W).
Proof. reflexivity. Qed.

Section Pipeline.
Variable INTER_LINEAR : Cv.kernel.
Variable W : World.
Hypothesis class_intact : Preprocess_cls W = Preprocess.class_body.

Lemma resize_ok src dw dh :
  1 <= (Np.shape2 src).1 -> 1 <= (Np.shape2 src).2 ->
  1 <= Np.channels src <= Cv.CV_CN_MAX -> 1 <= dw -> 1 <= dh ->
  exists r, Cv.resize INTER_LINEAR src (dw, dh) = Ok r /\
            Np.wf r /\ Np.all is_u8 r /\
            Np.shape r = if Np.channels src =? 1 then [dh; dw]
                         else [dh; dw; Np.channels src].
Proof.
  intros Hh Hw [Hc1 Hc2] Hdw Hdh. unfold Cv.resize.
  destruct (Np.shape2 src) as [h w]. cbn [fst snd] in *.
  replace ((h <=? 0) || (w <=? 0) || (Np.channels src <=? 0) ||
           (Cv.CV_CN_MAX <? Np.channels src)) with false
    by (symmetry; rewrite !orb_false_iff, !Z.leb_gt, Z.ltb_ge; lia).
  replace ((dw <=? 0) || (dh <=? 0)) with false
    by (symmetry; rewrite !orb_false_iff, !Z.leb_gt; lia).
  destruct (Np.channels src =? 1) eqn:E; eexists; (split; [reflexivity|]); cbn.
  - repeat split; try lia.
    + by rewrite length_fmap, length_seq.
    + apply Forall_fmap, Forall_forall. intros i _. cbn.
      by rewrite length_fmap, length_seq.
    + apply Forall_fmap, Forall_forall. intros i _. cbn.
      apply Forall_fmap, Forall_forall. intros j _. apply saturate_u8_range.
  - repeat split; try lia.
    + by rewrite length_fmap, length_seq.
    + apply Forall_fmap, Forall_forall. intros i _. cbn.
      by rewrite length_fmap, length_seq.
    + apply Forall_fmap, Forall_forall. intros i _. cbn.
      apply Forall_fmap, Forall_forall. intros j _. cbn.
      by rewrite length_fmap, length_seq.
    + apply Forall_fmap, Forall_forall. intros i _. cbn.
      apply Forall_fmap, Forall_forall. intros j _. cbn.
      apply Forall_fmap, Forall_forall. intros c _. apply saturate_u8_range.
Qed.

Lemma resized_size_tall h w :
  1 <= w -> w < h ->
  exists q n, Py.truediv (672 * w) h = Ok q /\ Py.round q = Ok n /\
              0 <= n <= 672 /\
              Preprocess.resized_size h w W = (Ok (672, 672, n), W).
Proof.
  intros Hw Hlt.
  destruct (truediv_round_bound 672 (672 * w) h ltac:(split; [lia|reflexivity])) as (q & n & Hq & Hn & Hr);
    [lia..|].
  exists q, n. repeat split; [assumption..|lia|lia|].
  unfold Preprocess.resized_size.
  rewrite (run_bind_ok _ _ _ _ _ (run_getattr _ _)).
  rewrite (run_bind_ok _ _ _ _ _ (run_getattr _ _)).
  rewrite class_intact. cbn [CLIP_INPUT_SIZE CROP_CENTER_PADDING Preprocess.class_body].
  change (224 + 2 * 224) with 672.
  replace (h >? w) with true by (symmetry; apply Z.gtb_lt; lia).
  rewrite (run_bind_ok _ _ _ q W) by (by rewrite run_lift, Hq).
  rewrite (run_bind_ok _ _ _ n W) by (by rewrite run_lift, Hn).
  reflexivity.
Qed.

Lemma resized_size_wide h w :
  1 <= h -> h <= w ->
  exists q n, Py.truediv (672 * h) w = Ok q /\ Py.round q = Ok n /\
              0 <= n <= 672 /\
              Preprocess.resized_size h w W = (Ok (672, n, 672), W).
Proof.
  intros Hh Hle.
  destruct (truediv_round_bound 672 (672 * h) w ltac:(split; [lia|reflexivity])) as (q & n & Hq & Hn & Hr);
    [lia..|].
  exists q, n. repeat split; [assumption..|lia|lia|].
  unfold Preprocess.resized_size.
  rewrite (run_bind_ok _ _ _ _ _ (run_getattr _ _)).
  rewrite (run_bind_ok _ _ _ _ _ (run_getattr _ _)).
  rewrite class_intact. cbn [CLIP_INPUT_SIZE CROP_CENTER_PADDING Preprocess.class_body].
  change (224 + 2 * 224) with 672.
  replace (h >? w) with false by (symmetry; rewrite Z.gtb_ltb; apply Z.ltb_ge; lia).
  rewrite (run_bind_ok _ _ _ q W) by (by rewrite run_lift, Hq).
  rewrite (run_bind_ok _ _ _ n W) by (by rewrite run_lift, Hn).
  reflexivity.
Qed.
End Pipeline.

(** ** The resize target in integers *)

Lemma div_half_even_positive n d :
  0 <= n -> 0 < d -> (1 <= Py.div_half_even n d <-> d < 2 * n).
Proof.
  intros Hn Hd. unfold Py.div_half_even.
  pose proof (Z.div_mod n d ltac:(lia)) as Hdm.
  pose proof (Z.mod_pos_bound n d Hd) as Hmod.
  assert (Hq : 0 <= n `div` d) by (apply Z.div_pos; lia).
  destruct (Z.eq_dec (n `div` d) 0) as [E|E].
  - rewrite E in *. cbn [Z.even].
    destruct (Z.compare_spec (2 * (n `mod` d)) d); lia.
  - destruct (Z.compare_spec (2 * (n `mod` d)) d); try destruct (Z.even _); split; nia.
Qed.

Section Target.
Variable W : World.
Hypothesis class_intact : Preprocess_cls W = Preprocess.class_body.

(** For sides up to 2^40 the float arithmetic of lines 28-33 is the exact
  quotient rounded half to even. *)
Lemma resized_size_exact h w :
1 <= h <= 2 ^ 40 -> 1 <= w <= 2 ^ 40 ->
Preprocess.resized_size h w W =
(Ok (if h >? w then (672, 672, Py.div_half_even (672 * w) h)
     else (672, Py.div_half_even (672 * h) w, 672)), W).
Proof.
intros Hh Hw. destruct (Z.gtb_spec h w) as [Hgt|Hle].
- destruct (resized_size_tall W class_intact h w ltac:(lia) Hgt)
    as (q & n & Hq & Hn & _ & E).
  destruct (truediv_round_exact (672 * w) h) as (q' & Hq' & Hn'); [lia..|].
  rewrite E. congruence.
- destruct (resized_size_wide W class_intact h w ltac:(lia) Hle)
    as (q & n & Hq & Hn & _ & E).
  destruct (truediv_round_exact (672 * h) w) as (q' & Hq' & Hn'); [lia..|].
  rewrite E. congruence.
Qed.

(** The target has a row and a column exactly when the longer side is
  less than 1344 times the shorter. *)
Lemma resize_target_aspect h w :
1 <= h <= 2 ^ 40 -> 1 <= w <= 2 ^ 40 ->
exists rh rw,
  Preprocess.resized_size h w W = (Ok (672, rh, rw), W) /\
  (1 <= rh /\ 1 <= rw <-> Z.max h w < 1344 * Z.min h w).
Proof.
intros Hh Hw. rewrite (resized_size_exact h w Hh Hw).
destruct (Z.gtb_spec h w) as [Hgt|Hle]; eexists _, _; (split; [reflexivity|]).
- rewrite Z.max_l, Z.min_r by lia.
  pose proof (div_half_even_positive (672 * w) h ltac:(lia) ltac:(lia)). lia.
- rewrite Z.max_r, Z.min_l by lia.
  pose proof (div_half_even_positive (672 * h) w ltac:(lia) ltac:(lia)). lia.
Qed.
End Target.

Lemma pad_axes_framed {B} (fill : B) (p0 p1 : Z * Z) (w : Z) (rows : list (list B)) :
  0 <= p1.1 -> 0 <= p1.2 -> 0 <= w ->
  lmap (Np.pad_axis p1 fill) (Np.pad_axis p0 (replicate (Z.to_nat w) fill) rows) =
  framed (p1.1 + w + p1.2) fill p0.1 p0.2 p1.1 p1.2 rows.
Proof.
  intros H1 H2 Hw. unfold framed, Np.pad_axis at 2.
  rewrite !fmap_app, !fmap_replicate.
  assert (E : Np.pad_axis p1 fill (replicate (Z.to_nat w) fill) =
              replicate (Z.to_nat (p1.1 + w + p1.2)) fill).
  { unfold Np.pad_axis. rewrite <- !replicate_add. f_equal. lia. }
  by rewrite E.
Qed.

Lemma pad_axis_none {B} (fill : B) (l : list B) : Np.pad_axis (0, 0) fill l = l.
Proof. unfold Np.pad_axis. cbn. by rewrite app_nil_r. Qed.

Lemma fmap_fmap_id {B} (f : B -> B) (rows : list (list B)) :
  (forall x, f x = x) -> lmap (lmap f) rows = rows.
Proof.
  intros Hf. rewrite <- (list_fmap_id rows) at 2.
  apply list_fmap_ext. intros _ row _. rewrite <- (list_fmap_id row) at 2.
  apply list_fmap_ext. auto.
Qed.

Lemma ltb_nonneg x : 0 <= x -> (x <? 0) = false.
Proof. intros. apply Z.ltb_ge. assumption. Qed.

Lemma half_range x : 0 <= x -> 0 <= x `div` 2 <= x.
Proof.
  intros Hx. split; [apply Z.div_pos; lia|].
  apply Z.div_le_upper_bound; lia.
Qed.

Lemma pad_to_square_padded side img :
  0 <= (Np.shape2 img).1 <= side -> 0 <= (Np.shape2 img).2 <= side ->
  Preprocess.pad_to_square side (Np.shape2 img).1 (Np.shape2 img).2 img
  = Ok (padded side img).
Proof.
  intros Hh Hw. unfold Preprocess.pad_to_square, padded, Np.pad, Np.ndim.
  destruct img as [h w rows|h w c rows]; cbn [Np.shape2 Np.ndim Np.shape fst snd length] in *.
  - change (Z.of_nat 2 =? 3) with false. cbv iota. cbn [existsb fst snd].
    pose proof (half_range (side - h) ltac:(lia)) as Hv.
    pose proof (half_range (side - w) ltac:(lia)) as Hz.
    set (vp := (side - h) `div` 2) in *. set (hp := (side - w) `div` 2) in *.
    clearbody vp hp.
    rewrite !ltb_nonneg by lia. cbn [orb].
    rewrite pad_axes_framed by (cbn [fst snd]; lia). cbn [fst snd].
    f_equal. f_equal; [lia|lia|]. f_equal; lia.
  - change (Z.of_nat 3 =? 3) with true. cbv iota. cbn [existsb fst snd].
    pose proof (half_range (side - h) ltac:(lia)) as Hv.
    pose proof (half_range (side - w) ltac:(lia)) as Hz.
    set (vp := (side - h) `div` 2) in *. set (hp := (side - w) `div` 2) in *.
    clearbody vp hp.
    rewrite !ltb_nonneg by lia. cbn [orb].
    rewrite pad_axes_framed by (cbn [fst snd]; lia). cbn [fst snd].
    assert (E : forall rows' : list (list (list Z)),
              lmap (lmap (Np.pad_axis (0, 0) 0)) rows' = rows').
    { intros rows'. apply fmap_fmap_id, pad_axis_none. }
    rewrite E. f_equal. f_equal; [lia|lia|lia|]. f_equal; lia.
Qed.

Lemma padded_wf side img :
  Np.wf img -> 0 <= (Np.shape2 img).1 <= side -> 0 <= (Np.shape2 img).2 <= side ->
  Np.wf (padded side img).
Proof.
  intros Hwf Hh Hw. eapply pad_wf; [exact Hwf|].
  exact (pad_to_square_padded side img Hh Hw).
Qed.

Lemma padded_all side img :
  Np.all is_u8 img -> 0 <= (Np.shape2 img).1 <= side -> 0 <= (Np.shape2 img).2 <= side ->
  Np.all is_u8 (padded side img).
Proof.
  intros Hall Hh Hw. eapply (pad_all is_u8 _ _ 0); [|exact Hall|].
  - unfold is_u8. lia.
  - exact (pad_to_square_padded side img Hh Hw).
Qed.

Lemma padded_shape side img :
  Np.shape (padded side img) =
  match img with
  | Np.Nd2 _ _ _ => [side; side]
  | Np.Nd3 _ _ c _ => [side; side; c]
  end.
Proof. by destruct img. Qed.

Lemma cropped_shape img :
  Np.shape2 img = (672, 672) ->
  Np.shape (cropped img) =
  match img with
  | Np.Nd2 _ _ _ => [224; 224]
  | Np.Nd3 _ _ c _ => [224; 224; c]
  end.
Proof. destruct img; cbn; intros [= -> ->]; reflexivity. Qed.

Lemma scale_to_unit_gray h w rows :
  Preprocess.scale_to_unit (Np.Nd2 h w rows) =
  Ok (Np.Nd3 h w 3 (lmap (lmap (fun v => [unit_sample v; unit_sample v; unit_sample v])) rows)).
Proof.
  unfold Preprocess.scale_to_unit, Np.truediv_scalar. cbn.
  do 2 f_equal. rewrite <- !list_fmap_compose.
  apply list_fmap_ext. intros _ row _. cbn.
  rewrite <- !list_fmap_compose. reflexivity.
Qed.

Lemma scale_to_unit_color h w c rows :
  Preprocess.scale_to_unit (Np.Nd3 h w c rows) =
  Ok (Np.Nd3 h w c (lmap (lmap (lmap unit_sample)) rows)).
Proof. reflexivity. Qed.

Lemma reshape4_batch {A} (c h w : Z) (planes : list (list (list A))) :
  Np.wf (Np.Nd3 c h w planes) ->
  Np.reshape4 (Np.Nd3 c h w planes) 1 c h w = Ok (Np.Nd4 1 c h w [planes]).
Proof.
  intros ((Hc & Hh & Hlen & Hrows) & Hw & Hpx). unfold Np.reshape4, Np.size.
  cbn [Np.shape foldr Np.ravel].
  replace (c * (h * (w * 1)) =? 1 * c * h * w) with true
    by (symmetry; apply Z.eqb_eq; lia).
  assert (E1 : Z.to_nat (1 * c * h) = length (concat planes)).
  { rewrite (length_concat_uniform (Z.to_nat h)) by exact Hrows. lia. }
  assert (Hcc : Forall (fun r : list A => length r = Z.to_nat w) (concat planes)).
  { apply Forall_concat. exact Hpx. }
  rewrite E1, (chunks_concat _ _ Hcc).
  replace (Z.to_nat (1 * c)) with (length planes) by lia.
  rewrite (chunks_concat _ _ Hrows).
  change (Z.to_nat 1) with 1%nat. cbn [Np.chunks].
  rewrite take_ge by lia. reflexivity.
Qed.

Section Stages.
Variable W : World.
Hypothesis class_intact : Preprocess_cls W = Preprocess.class_body.

Lemma normalize_channels_rgb rows :
  Preprocess.normalize_channels (Np.Nd3 224 224 3 rows) W =
  (Ok (Np.Nd3 224 224 3 (lmap (lmap normalize_px) rows)), W).
Proof.
  unfold Preprocess.normalize_channels.
  rewrite (run_bind_ok _ _ _ _ _ (run_getattr _ _)), class_intact.
  cbn [NORM_MEAN Preprocess.class_body].
  erewrite run_bind_ok; [|rewrite run_lift; reflexivity].
  rewrite (run_bind_ok _ _ _ _ _ (run_getattr _ _)), class_intact.
  cbn [NORM_STD Preprocess.class_body].
  rewrite run_lift. unfold Np.binop, Np.bcast_dim, Np.bcast_zip. cbn [Np.as3].
  change (224 =? 1) with false. change (3 =? 3) with true. cbv iota.
  do 3 f_equal. rewrite <- list_fmap_compose.
  apply list_fmap_ext. intros _ row _. cbn.
  rewrite <- list_fmap_compose. reflexivity.
Qed.

Lemma normalize_channels_mismatch c rows :
  c <> 1 -> c <> 3 ->
  Preprocess.normalize_channels (Np.Nd3 224 224 c rows) W =
  (Raise (ValueError (broadcast_mismatch [224; 224; c] [1; 1; 3])), W).
Proof.
  intros H1 H3. unfold Preprocess.normalize_channels.
  rewrite (run_bind_ok _ _ _ _ _ (run_getattr _ _)), class_intact.
  cbn [NORM_MEAN Preprocess.class_body].
  apply run_bind_raise. rewrite run_lift. f_equal.
  unfold Np.binop, Np.bcast_dim. cbn [Np.as3].
  change (224 =? 1) with false. cbv iota.
  destruct (Z.eqb_spec c 3); [contradiction|].
  destruct (Z.eqb_spec c 1); [contradiction|].
  reflexivity.
Qed.
End Stages.

Lemma normalize_px_lookup px k :
  length px = 3%nat -> (k < 3)%nat ->
  Np.to_float32 (normalize_px px !!! k) = normalized k (px !!! k).
Proof.
  intros Hlen Hk. destruct px as [|a [|b [|c [|]]]]; try discriminate.
  destruct k as [|[|[|]]]; try lia; reflexivity.
Qed.

Lemma to_model_format_rgb rows :
  Np.wf (Np.Nd3 224 224 3 rows) ->
  Preprocess.to_model_format (Np.Nd3 224 224 3 (lmap (lmap normalize_px) rows)) =
  Ok (Np.Nd4 1 3 224 224 [[plane 0 rows; plane 1 rows; plane 2 rows]]).
Proof.
  intros ((_ & _ & Hlen & Hrows) & _ & Hpx).
  unfold Preprocess.to_model_format, Np.transpose201.
  change (Z.to_nat 3) with 3%nat. cbn [seq fmap list_fmap mbind result_bind].
  unfold Np.astype_float32, Np.map. cbn [fmap list_fmap].
  assert (E : forall k, (k < 3)%nat ->
            lmap (lmap Np.to_float32)
              (lmap (lmap (fun px : list Py.float => px !!! k))
                 (lmap (lmap normalize_px) rows)) = plane k rows).
  { intros k Hk. unfold plane. rewrite <- !list_fmap_compose.
    apply Forall_fmap_ext. eapply Forall_impl; [exact Hpx|].
    intros row Hrow. cbn in Hrow |- *. rewrite <- !list_fmap_compose.
    apply Forall_fmap_ext. eapply Forall_impl; [exact Hrow|].
    intros px Hlenpx. cbn in Hlenpx |- *. by apply normalize_px_lookup. }
  rewrite !E by lia.
  apply reshape4_batch. repeat split; try lia.
  - repeat constructor; unfold plane; rewrite length_fmap; exact Hlen.
  - repeat constructor; unfold plane; apply Forall_fmap;
      (eapply Forall_impl; [exact Hrows|]); intros row Hrow; cbn in Hrow |- *;
      by rewrite length_fmap.
Qed.

Lemma scale_to_unit_pixels img :
  Preprocess.scale_to_unit img =
  Ok (Np.Nd3 (Np.shape2 img).1 (Np.shape2 img).2 (unit_channels img)
        (unit_pixels img)).
Proof.
  destruct img; [apply scale_to_unit_gray|apply scale_to_unit_color].
Qed.

Lemma unit_pixels_wf img :
  Np.wf img -> unit_channels img = 3 ->
  Np.wf (Np.Nd3 (Np.shape2 img).1 (Np.shape2 img).2 3 (unit_pixels img)).
Proof.
  destruct img as [h w rows|h w c rows]; cbn [Np.wf Np.shape2 unit_channels unit_pixels fst snd].
  - intros (Hh & Hw & Hlen & Hrows) _. repeat split; try lia.
    + by rewrite length_fmap.
    + apply Forall_fmap. eapply Forall_impl; [exact Hrows|].
      intros row Hrow. cbn in Hrow |- *. by rewrite length_fmap.
    + apply Forall_fmap, Forall_forall. intros row _. cbn.
      apply Forall_fmap, Forall_forall. intros v _. reflexivity.
  - intros ((Hh & Hw & Hlen & Hrows) & Hc & Hpx) Hc3. subst c.
    repeat split; try lia.
    + by rewrite length_fmap.
    + apply Forall_fmap. eapply Forall_impl; [exact Hrows|].
      intros row Hrow. cbn in Hrow |- *. by rewrite length_fmap.
    + apply Forall_fmap. eapply Forall_impl; [exact Hpx|].
      intros row Hrow. cbn in Hrow |- *.
      apply Forall_fmap. eapply Forall_impl; [exact Hrow|].
      intros px Hlen'. cbn in Hlen' |- *. by rewrite length_fmap.
Qed.

Section Encode.
Variable INTER_LINEAR : Cv.kernel.
Variable W : World.
Hypothesis class_intact : Preprocess_cls W = Preprocess.class_body.

Lemma resized_size_range h w sq rh rw :
  1 <= h -> 1 <= w ->
  Preprocess.resized_size h w W = (Ok (sq, rh, rw), W) ->
  sq = 672 /\ 0 <= rh <= 672 /\ 0 <= rw <= 672.
Proof.
  intros Hh Hw Hsz. destruct (Z_lt_le_dec w h) as [Hlt|Hle].
  - destruct (resized_size_tall W class_intact h w Hw Hlt) as (q & n & _ & _ & Hn & E).
    rewrite E in Hsz. injection Hsz as <- <- <-. lia.
  - destruct (resized_size_wide W class_intact h w Hh Hle) as (q & n & _ & _ & Hn & E).
    rewrite E in Hsz. injection Hsz as <- <- <-. lia.
Qed.

Lemma smart_resize_ok img sq rh rw :
  1 <= im_height img -> 1 <= im_width img ->
  1 <= im_channels img <= Cv.CV_CN_MAX ->
  Preprocess.resized_size (im_height img) (im_width img) W = (Ok (sq, rh, rw), W) ->
  1 <= rh -> 1 <= rw ->
  exists resized,
    Cv.resize INTER_LINEAR (im_array img) (rw, rh) = Ok resized /\
    Np.wf resized /\ Np.all is_u8 resized /\
    Np.shape resized = (if im_channels img =? 1 then [rh; rw]
                        else [rh; rw; im_channels img]) /\
    rh <= 672 /\ rw <= 672 /\
    Preprocess._smart_resize INTER_LINEAR img W = (Ok (padded 672 resized), W).
Proof.
  intros Hh Hw Hc Hsz Hrh Hrw.
  destruct (resized_size_range _ _ _ _ _ Hh Hw Hsz) as (-> & Hrh' & Hrw').
  destruct (resize_ok INTER_LINEAR (im_array img) rw rh Hh Hw Hc Hrw Hrh)
    as (resized & Hres & Hwf & Hall & Hshape).
  exists resized. repeat split; try assumption; try lia.
  unfold Preprocess._smart_resize. unfold im_height, im_width in Hsz.
  destruct (Np.shape2 (im_array img)) as [h w]. cbn [fst snd] in Hsz.
  rewrite (run_bind_ok _ _ _ _ _ Hsz).
  rewrite (run_bind_ok _ _ _ resized W) by (by rewrite run_lift, Hres).
  rewrite run_lift. f_equal.
  assert (Hs2 : Np.shape2 resized = (rh, rw)).
  { unfold im_channels in Hshape.
    destruct (Np.channels (im_array img) =? 1), resized; cbn in Hshape |- *; congruence. }
  pose proof (pad_to_square_padded 672 resized) as Hp.
  rewrite Hs2 in Hp. cbn [fst snd] in Hp. apply Hp; lia.
Qed.

Lemma crop_center_ok img sq rh rw :
  1 <= im_height img -> 1 <= im_width img ->
  1 <= im_channels img <= Cv.CV_CN_MAX ->
  Preprocess.resized_size (im_height img) (im_width img) W = (Ok (sq, rh, rw), W) ->
  1 <= rh -> 1 <= rw ->
  exists resized,
    Cv.resize INTER_LINEAR (im_array img) (rw, rh) = Ok resized /\
    Np.shape2 resized = (rh, rw) /\ Np.channels resized = im_channels img /\
    Np.wf (cropped (padded 672 resized)) /\
    Np.all is_u8 (cropped (padded 672 resized)) /\
    Np.shape (cropped (padded 672 resized)) =
      (if im_channels img =? 1 then [224; 224] else [224; 224; im_channels img]) /\
    Preprocess.crop_center INTER_LINEAR img W =
      (Ok (cropped (padded 672 resized)), W).
Proof.
  intros Hh Hw Hc Hsz Hrh Hrw.
  destruct (smart_resize_ok img sq rh rw Hh Hw Hc Hsz Hrh Hrw)
    as (resized & Hres & Hwf & Hall & Hshape & Hrh' & Hrw' & Hrun).
  assert (Hs2 : Np.shape2 resized = (rh, rw)).
  { destruct (im_channels img =? 1), resized; cbn in Hshape |- *; congruence. }
  assert (Hcn : Np.channels resized = im_channels img).
  { destruct (Z.eqb_spec (im_channels img) 1) as [E|E], resized;
      cbn in Hshape |- *; congruence. }
  assert (Hb1 : 0 <= (Np.shape2 resized).1 <= 672) by (rewrite Hs2; cbn; lia).
  assert (Hb2 : 0 <= (Np.shape2 resized).2 <= 672) by (rewrite Hs2; cbn; lia).
  exists resized. split; [assumption|]. split; [assumption|]. split; [assumption|].
  split; [apply getitem2_wf, padded_wf; assumption|].
  split; [apply getitem2_all, padded_all; assumption|].
  split.
  - rewrite cropped_shape by (by destruct resized).
    destruct (Z.eqb_spec (im_channels img) 1) as [E|E], resized;
      cbn in Hshape, Hcn |- *; congruence.
  - unfold Preprocess.crop_center.
    rewrite (run_bind_ok _ _ _ _ _ Hrun).
    rewrite (run_bind_ok _ _ _ _ _ (run_getattr _ _)), class_intact.
    reflexivity.
Qed.

(** The whole of [encode_image] on an image of one or three channels. *)
Lemma encode_image_ok img sq rh rw :
  1 <= im_height img -> 1 <= im_width img ->
  im_channels img = 1 \/ im_channels img = 3 ->
  Preprocess.resized_size (im_height img) (im_width img) W = (Ok (sq, rh, rw), W) ->
  1 <= rh -> 1 <= rw ->
  exists resized,
    Cv.resize INTER_LINEAR (im_array img) (rw, rh) = Ok resized /\
    Np.shape2 resized = (rh, rw) /\ Np.channels resized = im_channels img /\
    let u8 := cropped (padded 672 resized) in
    let pre := unit_pixels u8 in
    Np.wf u8 /\ Np.all is_u8 u8 /\
    Np.shape u8 = (if im_channels img =? 1 then [224; 224]
                   else [224; 224; im_channels img]) /\
    Preprocess.crop_center INTER_LINEAR img W = (Ok u8, W) /\
    Preprocess.scale_to_unit u8 = Ok (Np.Nd3 224 224 3 pre) /\
    Np.wf (Np.Nd3 224 224 3 pre) /\
    Preprocess.encode_image INTER_LINEAR (PilImage img) W =
      (Ok (Np.Nd4 1 3 224 224 [[plane 0 pre; plane 1 pre; plane 2 pre]]), W).
Proof.
  intros Hh Hw Hc Hsz Hrh Hrw.
  assert (Hc' : 1 <= im_channels img <= Cv.CV_CN_MAX)
    by (unfold Cv.CV_CN_MAX; lia).
  destruct (crop_center_ok img sq rh rw Hh Hw Hc' Hsz Hrh Hrw)
    as (resized & Hres & Hs2 & Hcn & Hwf & Hall & Hshape & Hrun).
  exists resized. split; [assumption|]. split; [assumption|]. split; [assumption|].
  cbv zeta. set (u8 := cropped (padded 672 resized)) in *.
  assert (Hs : Np.shape2 u8 = (224, 224) /\ unit_channels u8 = 3).
  { clearbody u8. destruct Hc as [E|E]; rewrite E in Hshape; cbn in Hshape;
      destruct u8; cbn in Hshape |- *; try discriminate;
      injection Hshape as -> ->; subst; auto. }
  destruct Hs as (Hs & Hc3).
  pose proof (scale_to_unit_pixels u8) as Hscale.
  pose proof (unit_pixels_wf u8 Hwf Hc3) as Hpre.
  rewrite Hs in Hscale, Hpre. rewrite Hc3 in Hscale. cbn [fst snd] in Hscale, Hpre.
  repeat (split; [assumption|]).
  unfold Preprocess.encode_image.
  erewrite run_bind_ok; [|reflexivity].
  rewrite (run_bind_ok _ _ _ _ _ Hrun).
  erewrite run_bind_ok; [|rewrite run_lift, Hscale; reflexivity].
  erewrite run_bind_ok; [|apply normalize_channels_rgb; exact class_intact].
  rewrite run_lift. f_equal. by apply to_model_format_rgb.
Qed.
End Encode.

(** ** Calls and the world *)

Lemma preserves_ret {A} (a : A) : preserves (mret a).
Proof. intros W. reflexivity. Qed.

Lemma preserves_lift {A} (r : result A) : preserves (lift r).
Proof. intros W. reflexivity. Qed.

Lemma preserves_getattr {A} (name : PreprocessCls -> A) : preserves (getattr name).
Proof. intros W. reflexivity. Qed.

Lemma preserves_bind {A B} (m : M A) (f : A -> M B) :
  preserves m -> (forall a, preserves (f a)) -> preserves (m ≫= f).
Proof.
  intros Hm Hf W. unfold mbind, M_bind. specialize (Hm W).
  destruct (m W) as [[a|e] W']; cbn in Hm; subst W'; [apply Hf|reflexivity].
Qed.

Lemma reads_class_ret {A} (a : A) : reads_class (mret a).
Proof. intros W W' _. reflexivity. Qed.

Lemma reads_class_lift {A} (r : result A) : reads_class (lift r).
Proof. intros W W' _. reflexivity. Qed.

Lemma reads_class_getattr {A} (name : PreprocessCls -> A) : reads_class (getattr name).
Proof. intros W W' E. cbn. by rewrite E. Qed.

Lemma reads_class_bind {A B} (m : M A) (f : A -> M B) :
  preserves m -> reads_class m -> (forall a, reads_class (f a)) ->
  reads_class (m ≫= f).
Proof.
  intros Hp Hm Hf W W' E. unfold mbind, M_bind.
  pose proof (Hp W) as H1. pose proof (Hp W') as H2. specialize (Hm W W' E).
  destruct (m W) as [r1 W1], (m W') as [r2 W2]. cbn in *. subst.
  destruct r2; [by apply Hf|reflexivity].
Qed.

Section Purity.
Variable INTER_LINEAR : Cv.kernel.

Lemma resized_size_pure h w :
  preserves (Preprocess.resized_size h w) /\ reads_class (Preprocess.resized_size h w).
Proof.
  unfold Preprocess.resized_size. split.
  - repeat (apply preserves_bind; [|intros ?]);
      try apply preserves_getattr.
    destruct (_ >? _);
      repeat (apply preserves_bind; [|intros ?]);
      auto using preserves_lift, preserves_ret.
  - repeat (apply reads_class_bind; [| |intros ?]);
      try apply preserves_getattr; try apply reads_class_getattr.
    destruct (_ >? _);
      repeat (apply reads_class_bind; [| |intros ?]);
      auto using preserves_lift, preserves_ret, reads_class_lift, reads_class_ret.
Qed.

Lemma smart_resize_pure img :
  preserves (Preprocess._smart_resize INTER_LINEAR img) /\
  reads_class (Preprocess._smart_resize INTER_LINEAR img).
Proof.
  unfold Preprocess._smart_resize. destruct (Np.shape2 _) as [h w].
  destruct (resized_size_pure h w) as [Hp Hr]. split.
  - apply preserves_bind; [exact Hp|]. intros [[sq rh] rw].
    apply preserves_bind; [apply preserves_lift|]. intros ?. apply preserves_lift.
  - apply reads_class_bind; [exact Hp|exact Hr|]. intros [[sq rh] rw].
    apply reads_class_bind; [apply preserves_lift|apply reads_class_lift|].
    intros ?. apply reads_class_lift.
Qed.

Lemma crop_center_pure img :
  preserves (Preprocess.crop_center INTER_LINEAR img) /\
  reads_class (Preprocess.crop_center INTER_LINEAR img).
Proof.
  unfold Preprocess.crop_center.
  destruct (smart_resize_pure img) as [Hp Hr]. split.
  - apply preserves_bind; [exact Hp|]. intros ?.
    apply preserves_bind; [apply preserves_getattr|]. intros ?. apply preserves_ret.
  - apply reads_class_bind; [exact Hp|exact Hr|]. intros ?.
    apply reads_class_bind; [apply preserves_getattr|apply reads_class_getattr|].
    intros ?. apply reads_class_ret.
Qed.

Lemma normalize_channels_pure img :
  preserves (Preprocess.normalize_channels img) /\
  reads_class (Preprocess.normalize_channels img).
Proof.
  unfold Preprocess.normalize_channels. split.
  - repeat (apply preserves_bind; [|intros ?]);
      auto using preserves_getattr, preserves_lift.
  - repeat (apply reads_class_bind; [| |intros ?]);
      auto using preserves_getattr, preserves_lift, reads_class_getattr, reads_class_lift.
Qed.

Lemma assert_pil_pure o :
  preserves (Preprocess._assert_pil o) /\ reads_class (Preprocess._assert_pil o).
Proof.
  unfold Preprocess._assert_pil, raise.
  destruct o; split; auto using preserves_ret, preserves_lift, reads_class_ret, reads_class_lift.
Qed.

Lemma encode_image_pure o :
  preserves (Preprocess.encode_image INTER_LINEAR o) /\
  reads_class (Preprocess.encode_image INTER_LINEAR o).
Proof.
  unfold Preprocess.encode_image.
  destruct (assert_pil_pure o) as [Hp Hr]. split.
  - apply preserves_bind; [exact Hp|]. intros img.
    apply preserves_bind; [apply crop_center_pure|]. intros ?.
    apply preserves_bind; [apply preserves_lift|]. intros ?.
    apply preserves_bind; [apply normalize_channels_pure|]. intros ?.
    apply preserves_lift.
  - apply reads_class_bind; [exact Hp|exact Hr|]. intros img.
    apply reads_class_bind; [apply crop_center_pure..|]. intros ?.
    apply reads_class_bind; [apply preserves_lift|apply reads_class_lift|]. intros ?.
    apply reads_class_bind; [apply normalize_channels_pure..|]. intros ?.
    apply reads_class_lift.
Qed.
End Purity.

(** ** The 256 samples *)

Lemma u8_values_forallb (P : Z -> bool) :
  forallb P u8_values = true -> forall g, is_u8 g -> P g = true.
Proof.
  intros H g Hg. rewrite forallb_forall in H. apply H.
  apply list_elem_of_In, elem_of_seqZ. unfold is_u8 in Hg. lia.
Qed.

Lemma unit_sample_checked : forallb unit_sample_ok u8_values = true.
Proof. vm_compute. reflexivity. Qed.

Lemma normalized_checked :
  forallb (fun k => forallb (normalized_ok k) u8_values) [0; 1; 2]%nat = true.
Proof. vm_compute. reflexivity. Qed.

Lemma denormalized_checked :
  forallb (fun k => forallb (denormalized_ok k) u8_values) [0; 1; 2]%nat = true.
Proof. vm_compute. reflexivity. Qed.

Lemma range_checked : forallb range_ok [0; 1; 2]%nat = true.
Proof. vm_compute. reflexivity. Qed.

Lemma channels_forallb (P : nat -> bool) :
  forallb P [0; 1; 2]%nat = true -> forall k, (k < 3)%nat -> P k = true.
Proof.
  cbn. intros [H0 [H1 [H2 _]%andb_prop]%andb_prop]%andb_prop k Hk.
  destruct k as [|[|[|]]]; [assumption..|lia].
Qed.

Lemma unit_sample_range g :
  is_u8 g ->
  Py.is_finite (unit_sample g) = true /\
  (0 <= Py.to_Q (unit_sample g) <= 1)%Q.
Proof.
  intros Hg. pose proof (u8_values_forallb _ unit_sample_checked g Hg) as H.
  unfold unit_sample_ok in H.
  apply andb_prop in H as [[H1 H2]%andb_prop H3].
  by rewrite <- !Qle_bool_iff.
Qed.

Lemma normalized_range k g :
  (k < 3)%nat -> is_u8 g ->
  let x := normalized k (unit_sample g) in
  Py.is_finite x = true /\
  (Py.to_Q (normalized k (unit_sample 0)) <= Py.to_Q x)%Q /\
  (Py.to_Q x <= Py.to_Q (normalized k (unit_sample 255)))%Q.
Proof.
  intros Hk Hg.
  pose proof (channels_forallb _ normalized_checked k Hk) as H. cbv beta in H.
  apply u8_values_forallb with (g := g) in H; [|assumption].
  unfold normalized_ok in H. apply andb_prop in H as [[H1 H2]%andb_prop H3].
  cbv zeta. by rewrite <- !Qle_bool_iff.
Qed.

Lemma denormalized_close k g :
  (k < 3)%nat -> is_u8 g ->
  let y := denormalized k (normalized k (unit_sample g)) in
  Py.is_finite y = true /\
  (Qabs (Py.to_Q y - Py.to_Q (unit_sample g)) <= eps25)%Q /\
  (Qabs (denormalized_real k (normalized k (unit_sample g)) -
         Py.to_Q (unit_sample g)) <= eps25)%Q.
Proof.
  intros Hk Hg.
  pose proof (channels_forallb _ denormalized_checked k Hk) as H. cbv beta in H.
  apply u8_values_forallb with (g := g) in H; [|assumption].
  unfold denormalized_ok in H. apply andb_prop in H as [[H1 H2]%andb_prop H3].
  cbv zeta. by rewrite <- !Qle_bool_iff.
Qed.

Lemma range_close k :
  (k < 3)%nat ->
  (range_lo k - eps23 <= Py.to_Q (normalized k (unit_sample 0)))%Q /\
  (Py.to_Q (normalized k (unit_sample 255)) <= range_hi k + eps23)%Q.
Proof.
  intros Hk. pose proof (channels_forallb _ range_checked k Hk) as H.
  unfold range_ok in H. apply andb_prop in H as [H1 H2].
  by rewrite <- !Qle_bool_iff.
Qed.

Lemma range_ends k :
  (k < 3)%nat ->
  normalized k (unit_sample 0) = Np.to_float32 (range_lo64 k) /\
  normalized k (unit_sample 255) = Np.to_float32 (range_hi64 k).
Proof.
  intros Hk. destruct k as [|[|[|]]]; [..|lia]; split; vm_compute; reflexivity.
Qed.

(** ** The center crop *)

Lemma slice_center {A} (l : list A) :
  length l = 672%nat ->
  Py.slice 224 (-224) l = take 224 (drop 224 l) /\
  Py.slice 224 448 l = take 224 (drop 224 l).
Proof.
  intros Hlen. unfold Py.slice. rewrite Hlen.
  change (Z.of_nat 672) with 672. split; reflexivity.
Qed.

Lemma slice_center_lookup {A} (l : list A) i :
  length l = 672%nat -> (i < 224)%nat ->
  Py.slice 224 (-224) l !! i = l !! (224 + i)%nat.
Proof.
  intros Hlen Hi. rewrite (proj1 (slice_center l Hlen)).
  rewrite lookup_take, lookup_drop. by case_decide.
Qed.

Lemma cropped_explicit img :
  Np.wf img -> Np.shape2 img = (672, 672) ->
  cropped img = Np.getitem2 img (224, 448) (224, 448).
Proof.
  intros Hwf Hs. unfold cropped.
  assert (E : forall B (rows : list (list B)),
            Np.rows_wf 672 672 rows ->
            lmap (Py.slice 224 (-224)) (Py.slice 224 (-224) rows) =
            lmap (Py.slice 224 448) (Py.slice 224 448 rows)).
  { intros B rows (_ & _ & Hlen & Hrows).
    destruct (slice_center rows Hlen) as [-> ->].
    apply Forall_fmap_ext, Forall_take, Forall_drop.
    eapply Forall_impl; [exact Hrows|]. intros row Hrow. cbn in Hrow.
    by destruct (slice_center row Hrow) as [-> ->]. }
  destruct img as [h w rows|h w c rows]; cbn in Hs; injection Hs as -> ->; cbn [Np.getitem2 fst snd].
  - by rewrite E.
  - destruct Hwf as [Hrows _]. by rewrite E.
Qed.

(** ** Samples of the stages *)

Lemma unit_pixels_all img :
  Np.all is_u8 img -> Forall (Forall (Forall unit_of_u8)) (unit_pixels img).
Proof.
  destruct img as [h w rows|h w c rows]; cbn; intros Hall.
  - apply Forall_fmap. eapply Forall_impl; [exact Hall|].
    intros row Hrow. cbn in Hrow |- *.
    apply Forall_fmap. eapply Forall_impl; [exact Hrow|].
    intros g Hg. cbn. repeat constructor; by exists g.
  - apply Forall_fmap. eapply Forall_impl; [exact Hall|].
    intros row Hrow. cbn in Hrow |- *.
    apply Forall_fmap. eapply Forall_impl; [exact Hrow|].
    intros px Hpx. cbn in Hpx |- *.
    apply Forall_fmap. eapply Forall_impl; [exact Hpx|].
    intros g Hg. cbn. by exists g.
Qed.

Lemma item4_planes pre n c i j :
  Np.item4 (Np.Nd4 1 3 224 224 [[plane 0 pre; plane 1 pre; plane 2 pre]]) n c i j =
  if decide (n = 0%nat /\ (c < 3)%nat) then
    row ← pre !! i; px ← (row : list (list Py.float)) !! j;
    Some (normalized c ((px : list Py.float) !!! c))
  else None.
Proof.
  unfold Np.item4. cbn [Np.items4].
  destruct n as [|n]; [|case_decide; [lia|by destruct n]].
  cbn [lookup list_lookup mbind option_bind].
  destruct c as [|[|[|c]]]; cbn [lookup list_lookup mbind option_bind];
    try (case_decide; [|lia]; unfold plane; rewrite list_lookup_fmap;
         destruct (pre !! i) as [row|]; [|reflexivity]; cbn;
         rewrite list_lookup_fmap; by destruct (row !! j)).
  case_decide; [lia|reflexivity].
Qed.

Lemma pixel_sample (px : list Py.float) (c : nat) :
  length px = 3%nat -> (c < 3)%nat -> Forall unit_of_u8 px ->
  unit_of_u8 (px !!! c).
Proof.
  intros Hlen Hc Hpx. rewrite Forall_lookup in Hpx.
  destruct (lookup_lt_is_Some_2 px c ltac:(lia)) as [v Hv].
  rewrite (list_lookup_total_correct _ _ _ Hv). by eapply Hpx.
Qed.

(** ** Ties, and the ways to fail *)

Lemma round_tie q k :
  (Py.to_Q q == inject_Z k + (1 # 2))%Q ->
  Py.round q = Ok (if Z.even k then k else k + 1).
Proof.
  destruct q as [s|s| |s m e]; cbn [Py.to_Q Py.round];
    try (unfold Qeq, Qplus, inject_Z; cbn [Qnum Qden]; intros; exfalso; lia).
  destruct (Z.leb_spec 0 e) as [He|He].
  - set (X := Z.pos m * 2 ^ e). destruct s;
      unfold Qeq, Qplus, Qopp, inject_Z; cbn [Qnum Qden]; intros; exfalso; lia.
  - set (d := 2 ^ (- e)).
    assert (Hd2 : d = 2 * 2 ^ (- e - 1)).
    { unfold d. replace (- e) with (1 + (- e - 1)) at 1 by lia.
      rewrite Z.pow_add_r by lia. reflexivity. }
    assert (Hp : 0 < 2 ^ (- e - 1)) by (apply Z.pow_pos_nonneg; lia).
    set (d2 := 2 ^ (- e - 1)) in *.
    assert (Hpos : Z.pos (Z.to_pos d) = d) by (apply Z2Pos.id; lia).
    assert (Hdiv : forall k', Z.pos m = k' * d + d2 ->
              Py.div_half_even (Z.pos m) d = if Z.even k' then k' else k' + 1).
    { intros k' Hm. unfold Py.div_half_even.
      assert (Hq : Z.pos m `div` d = k')
        by (symmetry; apply (Z.div_unique _ _ _ d2); lia).
      assert (Hr : Z.pos m `mod` d = d2)
        by (symmetry; apply (Z.mod_unique _ _ k'); lia).
      rewrite Hq, Hr. replace (2 * d2 ?= d) with Eq; [reflexivity|].
      symmetry. apply Z.compare_eq_iff. lia. }
    destruct s; unfold Qeq, Qplus, Qopp, inject_Z; cbn [Qnum Qden cond_Zopp];
      rewrite Hpos; intros Heq.
    + rewrite (Hdiv (- k - 1)) by nia. f_equal.
      replace (- k - 1) with (- (Z.succ k)) by lia.
      rewrite Z.even_opp, Z.even_succ, <- Z.negb_even.
      destruct (Z.even k); cbn; lia.
    + rewrite (Hdiv k) by nia. reflexivity.
Qed.

Section Failures.
Variable INTER_LINEAR : Cv.kernel.
Variable W : World.
Hypothesis class_intact : Preprocess_cls W = Preprocess.class_body.

Lemma encode_image_run_crop img r :
  Preprocess.crop_center INTER_LINEAR img W = (r, W) ->
  Preprocess.encode_image INTER_LINEAR (PilImage img) W =
  match r with
  | Ok u8 =>
      (img ← lift (Preprocess.scale_to_unit u8);
       img ← Preprocess.normalize_channels img;
       lift (Preprocess.to_model_format img)) W
  | Raise e => (Raise e, W)
  end.
Proof.
  intros Hr. unfold Preprocess.encode_image.
  erewrite run_bind_ok; [|reflexivity].
  destruct r as [u8|e].
  - by rewrite (run_bind_ok _ _ _ _ _ Hr).
  - by rewrite (run_bind_raise _ _ _ _ _ Hr).
Qed.

Lemma crop_center_raise img e :
  Preprocess._smart_resize INTER_LINEAR img W = (Raise e, W) ->
  Preprocess.crop_center INTER_LINEAR img W = (Raise e, W).
Proof. intros H. unfold Preprocess.crop_center. by apply run_bind_raise. Qed.

(** A target without rows or without columns stops at [cv.resize]. *)
Lemma encode_image_empty_target img sq rh rw :
  Preprocess.resized_size (im_height img) (im_width img) W = (Ok (sq, rh, rw), W) ->
  im_height img <= 0 \/ im_width img <= 0 \/ rh <= 0 \/ rw <= 0 ->
  Preprocess.encode_image INTER_LINEAR (PilImage img) W = (Raise cv2_error, W).
Proof.
  intros Hsz Hdeg. rewrite (encode_image_run_crop img (Raise cv2_error)); [reflexivity|].
  apply crop_center_raise. unfold Preprocess._smart_resize.
  unfold im_height, im_width in *.
  destruct (Np.shape2 (im_array img)) as [h w] eqn:Es. cbn [fst snd] in *.
  rewrite (run_bind_ok _ _ _ _ _ Hsz).
  apply run_bind_raise. rewrite run_lift. f_equal.
  unfold Cv.resize. rewrite Es. cbn [fst snd].
  destruct (Z.leb_spec h 0); [reflexivity|].
  destruct (Z.leb_spec w 0); [reflexivity|].
  destruct (_ || _); [reflexivity|].
  destruct (Z.leb_spec rw 0); [reflexivity|].
  destruct (Z.leb_spec rh 0); [reflexivity|]. lia.
Qed.

Lemma truediv_zero b : b <> 0 -> Py.truediv 0 b = Ok (S754_zero (b <? 0)).
Proof.
  intros Hb. unfold Py.truediv.
  destruct (Z.eqb_spec b 0); [contradiction|]. by destruct b.
Qed.

Lemma resized_size_no_rows w :
  1 <= w -> Preprocess.resized_size 0 w W = (Ok (672, 0, 672), W).
Proof.
  intros Hw. unfold Preprocess.resized_size.
  rewrite (run_bind_ok _ _ _ _ _ (run_getattr _ _)).
  rewrite (run_bind_ok _ _ _ _ _ (run_getattr _ _)).
  rewrite class_intact. cbn [CLIP_INPUT_SIZE CROP_CENTER_PADDING Preprocess.class_body].
  change (224 + 2 * 224) with 672.
  replace (0 >? w) with false by (symmetry; rewrite Z.gtb_ltb; apply Z.ltb_ge; lia).
  rewrite Z.mul_0_r, truediv_zero by lia.
  reflexivity.
Qed.

Lemma resized_size_no_columns h :
  1 <= h -> Preprocess.resized_size h 0 W = (Ok (672, 672, 0), W).
Proof.
  intros Hh. unfold Preprocess.resized_size.
  rewrite (run_bind_ok _ _ _ _ _ (run_getattr _ _)).
  rewrite (run_bind_ok _ _ _ _ _ (run_getattr _ _)).
  rewrite class_intact. cbn [CLIP_INPUT_SIZE CROP_CENTER_PADDING Preprocess.class_body].
  change (224 + 2 * 224) with 672.
  replace (h >? 0) with true by (symmetry; apply Z.gtb_lt; lia).
  rewrite Z.mul_0_r, truediv_zero by lia.
  reflexivity.
Qed.

Lemma encode_image_no_pixels img :
  im_height img = 0 -> im_width img = 0 ->
  Preprocess.encode_image INTER_LINEAR (PilImage img) W = (Raise ZeroDivisionError, W).
Proof.
  intros Hh Hw.
  rewrite (encode_image_run_crop img (Raise ZeroDivisionError)); [reflexivity|].
  apply crop_center_raise. unfold Preprocess._smart_resize.
  unfold im_height, im_width in *.
  destruct (Np.shape2 (im_array img)) as [h w]. cbn [fst snd] in *. subst h w.
  apply run_bind_raise. unfold Preprocess.resized_size.
  rewrite (run_bind_ok _ _ _ _ _ (run_getattr _ _)).
  rewrite (run_bind_ok _ _ _ _ _ (run_getattr _ _)).
  reflexivity.
Qed.

(** A channel count that broadcasts against neither 3 nor 1 stops at the
    subtraction of line 99. *)
Lemma encode_image_extra_channels img sq rh rw :
  1 <= im_height img -> 1 <= im_width img ->
  2 <= im_channels img <= Cv.CV_CN_MAX -> im_channels img <> 3 ->
  Preprocess.resized_size (im_height img) (im_width img) W = (Ok (sq, rh, rw), W) ->
  1 <= rh -> 1 <= rw ->
  Preprocess.encode_image INTER_LINEAR (PilImage img) W =
  (Raise (ValueError (broadcast_mismatch [224; 224; im_channels img] [1; 1; 3])), W).
Proof.
  intros Hh Hw Hc Hc3 Hsz Hrh Hrw.
  destruct (crop_center_ok INTER_LINEAR W class_intact img sq rh rw Hh Hw
              ltac:(lia) Hsz Hrh Hrw)
    as (resized & _ & _ & _ & _ & _ & Hshape & Hrun).
  rewrite (encode_image_run_crop img _ Hrun).
  destruct (Z.eqb_spec (im_channels img) 1) as [E|_]; [lia|].
  destruct (cropped (padded 672 resized)) as [?|h w c rows]; [discriminate|].
  cbn in Hshape. injection Hshape as -> -> ->.
  erewrite run_bind_ok; [|rewrite run_lift, scale_to_unit_color; reflexivity].
  apply run_bind_raise. apply normalize_channels_mismatch; [assumption|lia|assumption].
Qed.
End Failures.

(** ** The examples, and samples of gray images *)

Lemma world0_class : Preprocess_cls world0 = Preprocess.class_body.
Proof. reflexivity. Qed.

Lemma plane_rows_wf k pre :
  Np.wf (Np.Nd3 224 224 3 pre) -> Np.rows_wf 224 224 (plane k pre).
Proof.
  intros ((_ & _ & Hlen & Hrows) & _). repeat split; [lia|lia| |].
  - unfold plane. by rewrite length_fmap.
  - unfold plane. apply Forall_fmap. eapply Forall_impl; [exact Hrows|].
    intros row Hrow. cbn in Hrow |- *. by rewrite length_fmap.
Qed.

(** The tensor of an image with a non-empty resize target. *)
Lemma encode_image_tensor (INTER_LINEAR : Cv.kernel) (W : World)
    (img : Image) (sq rh rw : Z) :
  Preprocess_cls W = Preprocess.class_body ->
  1 <= im_height img -> 1 <= im_width img ->
  im_channels img = 1 \/ im_channels img = 3 ->
  Preprocess.resized_size (im_height img) (im_width img) W = (Ok (sq, rh, rw), W) ->
  1 <= rh -> 1 <= rw ->
  exists t,
    Preprocess.encode_image INTER_LINEAR (PilImage img) W = (Ok t, W) /\
    Np.shape4 t = [1; 3; 224; 224] /\ Np.wf4 t.
Proof.
  intros Hcls Hh Hw Hc Hsz Hrh Hrw.
  destruct (encode_image_ok INTER_LINEAR W Hcls img sq rh rw Hh Hw Hc Hsz Hrh Hrw)
    as (resized & _ & _ & _ & _ & _ & _ & _ & _ & Hpre & Henc).
  eexists. split; [exact Henc|]. split; [reflexivity|].
  cbn. split; [lia|]. split; [lia|]. split; [reflexivity|].
  constructor; [|constructor]. split; [reflexivity|].
  repeat (constructor; [by apply plane_rows_wf|]). constructor.
Qed.

Lemma unit_pixels_gray_lookup h w rows i j g :
  item2 (Np.Nd2 h w rows) i j = Some g ->
  (row ← unit_pixels (Np.Nd2 h w rows) !! i; (row : list (list Py.float)) !! j) =
  Some [unit_sample g; unit_sample g; unit_sample g].
Proof.
  cbn [item2 unit_pixels]. intros H.
  rewrite list_lookup_fmap. destruct (rows !! i) as [row|]; [|discriminate].
  cbn in H |- *. rewrite list_lookup_fmap, H. reflexivity.
Qed.

Lemma item2_in_range {A} (h w : Z) (rows : list (list A)) (i j : nat) :
  Np.wf (Np.Nd2 h w rows) -> (i < Z.to_nat h)%nat -> (j < Z.to_nat w)%nat ->
  exists g, item2 (Np.Nd2 h w rows) i j = Some g.
Proof.
  intros (_ & _ & Hlen & Hrows) Hi Hj. cbn [item2].
  destruct (lookup_lt_is_Some_2 rows i ltac:(lia)) as [row Hrow].
  rewrite Forall_lookup in Hrows. specialize (Hrows i row Hrow). cbn in Hrows.
  destruct (lookup_lt_is_Some_2 row j ltac:(lia)) as [g Hg].
  exists g. rewrite Hrow. exact Hg.
Qed.

Lemma item2_all {A} (P : A -> Prop) (a : Np.ndarray A) (i j : nat) (g : A) :
  Np.all P a -> item2 a i j = Some g -> P g.
Proof.
  destruct a as [h w rows|]; [|discriminate]. cbn. intros Hall H.
  destruct (rows !! i) as [row|] eqn:Hrow; [|discriminate]. cbn in H.
  rewrite Forall_lookup in Hall. specialize (Hall i row Hrow).
  rewrite Forall_lookup in Hall. by eapply Hall.
Qed.

Lemma item4_gray pre i j c v :
  (c < 3)%nat ->
  (row ← pre !! i; (row : list (list Py.float)) !! j) = Some [v; v; v] ->
  Np.item3 (Np.Nd3 224 224 3 pre) i j c = Some v /\
  Np.item4 (Np.Nd4 1 3 224 224 [[plane 0 pre; plane 1 pre; plane 2 pre]]) 0 c i j =
    Some (normalized c v).
Proof.
  intros Hc H. rewrite item4_planes. case_decide; [|lia]. cbn [Np.item3].
  destruct (pre !! i) as [row|]; [|discriminate]. cbn in H |- *.
  rewrite H. cbn. destruct c as [|[|[|]]]; [..|lia]; split; reflexivity.
Qed.

(** The top left corner of the crop lies in the padding when the resized
    image has fewer than 223 rows. *)
Lemma cropped_padded_corner rh rw rows :
  Np.wf (Np.Nd2 rh rw rows) -> rh <= 222 -> rw <= 672 ->
  item2 (cropped (padded 672 (Np.Nd2 rh rw rows))) 0 0 = Some 0.
Proof.
  intros Hwf Hrh Hrw. pose proof Hwf as (Hh & Hw & _).
  pose proof (padded_wf 672 (Np.Nd2 rh rw rows) Hwf) as Hp.
  cbn [Np.shape2 fst snd padded Np.wf] in Hp.
  destruct Hp as (_ & _ & Hlen & Hrows); [lia|lia|].
  unfold cropped. cbn [padded Np.shape2 Np.getitem2 item2 fst snd].
  set (frows := framed 672 0 _ _ _ _ rows) in *.
  rewrite list_lookup_fmap, (slice_center_lookup frows 0) by (rewrite ?Hlen; lia).
  assert (Hrow : frows !! (224 + 0)%nat = Some (replicate (Z.to_nat 672) 0)).
  { unfold frows, framed.
    assert ((224 < Z.to_nat ((672 - rh) `div` 2))%nat).
    { assert (225 <= (672 - rh) `div` 2) by (apply Z.div_le_lower_bound; lia). lia. }
    rewrite lookup_app_l by (rewrite length_replicate; lia).
    apply lookup_replicate_2. lia. }
  rewrite Hrow. cbn [fmap option_fmap option_map mbind option_bind].
  rewrite slice_center_lookup by (rewrite ?length_replicate; lia).
  apply lookup_replicate_2. lia.
Qed.

(** On the gray strip: the tensor, and its corner samples, which come
    from the padding. *)
Lemma gray_1x4_corner :
  exists t,
    Preprocess.encode_image nearest (PilImage gray_1x4) world0 = (Ok t, world0) /\
    forall c, (c < 3)%nat ->
      Np.item4 t 0 c 0 0 = Some (normalized c (unit_sample 0)).
Proof.
  destruct (encode_image_ok nearest world0 world0_class gray_1x4 672 168 672)
    as (resized & Hres & Hs2 & Hcn & _ & _ & Hshape & _ & _ & _ & Henc);
    [vm_compute; discriminate|vm_compute; discriminate|by left|
     vm_compute; reflexivity|lia|lia|].
  eexists. split; [exact Henc|]. intros c Hc.
  assert (exists rows, resized = Np.Nd2 168 672 rows /\ Np.wf resized) as (rows & -> & Hwf).
  { assert (H1 : 1 <= (Np.shape2 (im_array gray_1x4)).1) by (cbn; lia).
    assert (H2 : 1 <= (Np.shape2 (im_array gray_1x4)).2) by (cbn; lia).
    assert (H3 : 1 <= Np.channels (im_array gray_1x4) <= Cv.CV_CN_MAX)
      by (unfold Cv.CV_CN_MAX; cbn; lia).
    destruct (resize_ok nearest (im_array gray_1x4) 672 168 H1 H2 H3 ltac:(lia) ltac:(lia))
      as (r & Hr & Hwf & _ & Hsh).
    assert (r = resized) by congruence. subst r.
    change (Np.channels (im_array gray_1x4) =? 1) with true in Hsh. cbv iota in Hsh.
    destruct resized as [h w rows|]; [|discriminate].
    injection Hsh as -> ->. exists rows. split; [reflexivity|exact Hwf]. }
  pose proof (cropped_padded_corner 168 672 rows Hwf ltac:(lia) ltac:(lia)) as Hcorner.
  destruct (cropped (padded 672 (Np.Nd2 168 672 rows))) as [h w crows|]; [|discriminate].
  apply item4_gray; [assumption|]. by apply unit_pixels_gray_lookup.
Qed.

Lemma range_within k :
  (k < 3)%nat ->
  (- (212 # 100) <= range_lo k - eps23)%Q /\ (range_hi k + eps23 <= (264 # 100) + eps23)%Q.
Proof.
  intros Hk. destruct k as [|[|[|]]]; [..|lia]; split; vm_compute; discriminate.
Qed.

(** ** Calls on objects in memory *)

Lemma extends_refl s : extends s s.
Proof. by split. Qed.

Lemma extends_trans s1 s2 s3 : extends s1 s2 -> extends s2 s3 -> extends s1 s3.
Proof.
  intros [H1 H2] [H3 H4]. split; [congruence|]. by etrans.
Qed.

Lemma extends_lookup s s' l c :
  extends s s' -> Mem.cells s !! l = Some c -> Mem.cells s' !! l = Some c.
Proof. intros [_ H] Hl. by eapply lookup_weaken. Qed.

Lemma extends_fresh s s' l :
  extends s s' -> Mem.cells s' !! l = None -> Mem.cells s !! l = None.
Proof.
  intros Hext Hnone. destruct (Mem.cells s !! l) as [c|] eqn:E; [|reflexivity].
  by rewrite (extends_lookup _ _ _ _ Hext E) in Hnone.
Qed.

Lemma uint8_of_extends s s' a x :
  extends s s' -> Mem.uint8_of s a = Some x -> Mem.uint8_of s' a = Some x.
Proof.
  intros Hext. unfold Mem.uint8_of.
  destruct (Mem.cells s !! Mem.buffer a) as [c|] eqn:E; [|discriminate].
  by rewrite (extends_lookup _ _ _ _ Hext E).
Qed.

Lemma float_of_extends s s' a x :
  extends s s' -> Mem.float_of s a = Some x -> Mem.float_of s' a = Some x.
Proof.
  intros Hext. unfold Mem.float_of.
  destruct (Mem.cells s !! Mem.buffer a) as [c|] eqn:E; [|discriminate].
  by rewrite (extends_lookup _ _ _ _ Hext E).
Qed.

Lemma outcome_extends s s' r v :
  extends s s' -> Mem.outcome s r = Some v -> Mem.outcome s' r = Some v.
Proof.
  intros Hext. destruct r as [t|e]; [|done]. unfold Mem.outcome, Mem.tensor_value.
  destruct (Mem.float_of s (Mem.tensor_of t)) as [x|] eqn:E; [|discriminate].
  by rewrite (float_of_extends _ _ _ _ Hext E).
Qed.

Lemma look_snoc {A} `{Inhabited A} (ops : list Mem.view_op) (op : Mem.view_op)
    (a : Np.ndarray A) :
  Mem.look (ops ++ [op]) a = Mem.look ops a ≫= Mem.view op.
Proof. unfold Mem.look. by rewrite foldl_app. Qed.

Lemma alloc_fresh (c : Mem.cell) s :
  exists l s', Mem.alloc c s = Some (Ok l, s') /\ extends s s' /\
               Mem.cells s !! l = None /\ Mem.cells s' !! l = Some c.
Proof.
  unfold Mem.alloc. set (l := fresh (dom (Mem.cells s))).
  assert (Hl : Mem.cells s !! l = None).
  { apply not_elem_of_dom. apply is_fresh. }
  eexists _, _. split; [reflexivity|]. cbn. repeat split.
  - by apply insert_subseteq.
  - exact Hl.
  - by rewrite lookup_insert_eq.
Qed.

Section Returns.
Context {A : Type}.
Implicit Types (Q : result A -> Mem.Store -> Prop).

Lemma returns_ret (a : A) s Q : Q (Ok a) s -> returns (mret a) s Q.
Proof. intros H. exists (Ok a), s. auto using extends_refl. Qed.

Lemma returns_lift (r : result A) s Q : Q r s -> returns (Mem.lift r) s Q.
Proof. intros H. exists r, s. auto using extends_refl. Qed.

Lemma returns_bind {B} (m : Mem.S B) (f : B -> Mem.S A) s Q :
  returns m s (fun r s1 =>
    match r with
    | Ok b => returns (f b) s1 Q
    | Raise e => Q (Raise e) s1
    end) ->
  returns (m ≫= f) s Q.
Proof.
  intros (r & s1 & Hm & Hext & H).
  assert (E : (m ≫= f) s = match r with Ok b => f b s1 | Raise e => Some (Raise e, s1) end).
  { unfold mbind, Mem.S_bind. rewrite Hm. by destruct r. }
  destruct r as [b|e].
  - destruct H as (r' & s2 & Hf & Hext' & HQ).
    exists r', s2. rewrite E. eauto using extends_trans.
  - exists (Raise e), s1. auto.
Qed.

Lemma returns_mono (m : Mem.S A) s Q Q' :
  returns m s Q -> (forall r s', extends s s' -> Q r s' -> Q' r s') -> returns m s Q'.
Proof. intros (r & s' & Hm & Hext & H) HQ. exists r, s'. auto. Qed.
End Returns.

Lemma returns_load l c s (Q : result Mem.cell -> Mem.Store -> Prop) :
  Mem.cells s !! l = Some c -> Q (Ok c) s -> returns (Mem.load l) s Q.
Proof.
  intros Hl H. exists (Ok c), s. unfold Mem.load. rewrite Hl.
  auto using extends_refl.
Qed.

Lemma returns_getattr {A} (name : Mem.ClassObj -> A) c s
    (Q : result A -> Mem.Store -> Prop) :
  Mem.Preprocess_cls s = Some c -> Q (Ok (name c)) s ->
  returns (Mem.getattr name) s Q.
Proof.
  intros Hc H. exists (Ok (name c)), s. unfold Mem.getattr. rewrite Hc.
  auto using extends_refl.
Qed.

Lemma returns_read_uint8 a x s (Q : result (Np.ndarray Z) -> Mem.Store -> Prop) :
  Mem.uint8_of s a = Some x -> Q (Ok x) s -> returns (Mem.read_uint8 a) s Q.
Proof.
  intros Ha H. exists (Ok x), s. unfold Mem.read_uint8. rewrite Ha.
  auto using extends_refl.
Qed.

Lemma returns_read_float a x s (Q : result (Np.ndarray Py.float) -> Mem.Store -> Prop) :
  Mem.float_of s a = Some x -> Q (Ok x) s -> returns (Mem.read_float a) s Q.
Proof.
  intros Ha H. exists (Ok x), s. unfold Mem.read_float. rewrite Ha.
  auto using extends_refl.
Qed.

Lemma returns_new_uint8 x s (Q : result Mem.ndarray_ref -> Mem.Store -> Prop) :
  (forall a s', extends s s' -> Mem.cells s !! Mem.buffer a = None ->
                Mem.uint8_of s' a = Some x -> Q (Ok a) s') ->
  returns (Mem.new_uint8 x) s Q.
Proof.
  intros H. destruct (alloc_fresh (Mem.Uint8 x) s) as (l & s' & Hal & Hext & Hnone & Hsome).
  eexists _, s'. unfold Mem.new_uint8, mbind, Mem.S_bind. rewrite Hal.
  split; [reflexivity|]. split; [assumption|]. apply H; [assumption..|].
  unfold Mem.uint8_of. cbn. by rewrite Hsome.
Qed.

Lemma returns_new_float x s (Q : result Mem.ndarray_ref -> Mem.Store -> Prop) :
  (forall a s', extends s s' -> Mem.cells s !! Mem.buffer a = None ->
                Mem.float_of s' a = Some x -> Q (Ok a) s') ->
  returns (Mem.new_float x) s Q.
Proof.
  intros H. destruct (alloc_fresh (Mem.Float x) s) as (l & s' & Hal & Hext & Hnone & Hsome).
  eexists _, s'. unfold Mem.new_float, mbind, Mem.S_bind. rewrite Hal.
  split; [reflexivity|]. split; [assumption|]. apply H; [assumption..|].
  unfold Mem.float_of. cbn. by rewrite Hsome.
Qed.

Lemma returns_lift_bind {A B} (r : result B) (f : B -> Mem.S A) s
    (Q : result A -> Mem.Store -> Prop) :
  match r with
  | Ok b => returns (f b) s Q
  | Raise e => Q (Raise e) s
  end ->
  returns (Mem.lift r ≫= f) s Q.
Proof. intros H. apply returns_bind, returns_lift. exact H. Qed.

Lemma uint8_of_view s a op x y :
  Mem.uint8_of s a = Some x -> Mem.view op x = Some y ->
  Mem.uint8_of s (Mem.add_view a op) = Some y.
Proof.
  unfold Mem.uint8_of, Mem.add_view. cbn [Mem.buffer Mem.views].
  destruct (Mem.cells s !! Mem.buffer a) as [[| |]|]; try discriminate.
  intros Hx Hy. by rewrite look_snoc, Hx.
Qed.

Lemma float_of_view s a op x y :
  Mem.float_of s a = Some x -> Mem.view op x = Some y ->
  Mem.float_of s (Mem.add_view a op) = Some y.
Proof.
  unfold Mem.float_of, Mem.add_view. cbn [Mem.buffer Mem.views].
  destruct (Mem.cells s !! Mem.buffer a) as [[| |]|]; try discriminate.
  intros Hx Hy. by rewrite look_snoc, Hx.
Qed.

(** The value-level methods, written out. *)
Lemma resized_size_value h w W :
  Preprocess.resized_size h w W =
  (let sq := CLIP_INPUT_SIZE (Preprocess_cls W) +
             2 * CROP_CENTER_PADDING (Preprocess_cls W) in
   if h >? w then q ← Py.truediv (sq * w) h; n ← Py.round q; Ok (sq, sq, n)
   else q ← Py.truediv (sq * h) w; n ← Py.round q; Ok (sq, n, sq), W).
Proof.
  unfold Preprocess.resized_size.
  rewrite (run_bind_ok _ _ _ _ _ (run_getattr _ _)).
  rewrite (run_bind_ok _ _ _ _ _ (run_getattr _ _)). cbv zeta.
  destruct (h >? w); (destruct (Py.truediv _ _) as [q|e]; [|reflexivity]);
    cbv [mbind M_bind result_bind lift mret M_ret];
    by destruct (Py.round q).
Qed.

Lemma encode_image_value (INTER_LINEAR : Cv.kernel) (im : Image) (W : World) :
  (Preprocess.encode_image INTER_LINEAR (PilImage im) W).1 =
  (let p := CROP_CENTER_PADDING (Preprocess_cls W) in
   '(sq, rh, rw) ← (Preprocess.resized_size (im_height im) (im_width im) W).1;
   resized ← Cv.resize INTER_LINEAR (im_array im) (rw, rh);
   padded ← Preprocess.pad_to_square sq rh rw resized;
   u ← Preprocess.scale_to_unit (Np.getitem2 padded (p, - p) (p, - p));
   a ← Np.binop Py.fsub u (NORM_MEAN (Preprocess_cls W));
   b ← Np.binop Py.fdiv a (NORM_STD (Preprocess_cls W));
   Preprocess.to_model_format b).
Proof.
  unfold Preprocess.encode_image, Preprocess._assert_pil, Preprocess.crop_center,
    Preprocess._smart_resize, Preprocess.normalize_channels, im_height, im_width.
  cbv [mbind M_bind M_ret mret lift getattr].
  destruct (Np.shape2 (im_array im)) as [h w]. cbn [fst snd].
  rewrite resized_size_value. cbv zeta.
  set (R := if h >? w then _ else _). clearbody R.
  destruct R as [[[sq rh] rw]|e]; [|reflexivity].
  cbv beta iota delta [result_bind fst snd].
  destruct (Cv.resize _ _ _) as [resized|e]; [|reflexivity].
  destruct (Preprocess.pad_to_square _ _ _ _) as [padded|e]; [|reflexivity].
  destruct (Preprocess.scale_to_unit _) as [u|e]; [|reflexivity].
  destruct (Np.binop Py.fsub _ _) as [a|e]; [|reflexivity].
  destruct (Np.binop Py.fdiv _ _) as [b|e]; reflexivity.
Qed.

(** What the operations on objects do, for a call that goes on with [Q]. *)
Section Operations.
Implicit Types (Q : result Mem.ndarray_ref -> Mem.Store -> Prop).

Lemma returns_cv_resize INTER_LINEAR a x dsize s Q :
  Mem.uint8_of s a = Some x ->
  match Cv.resize INTER_LINEAR x dsize with
  | Ok r => forall b s', extends s s' -> Mem.uint8_of s' b = Some r -> Q (Ok b) s'
  | Raise e => Q (Raise e) s
  end ->
  returns (Mem.cv_resize INTER_LINEAR a dsize) s Q.
Proof.
  intros Ha H. unfold Mem.cv_resize.
  apply returns_bind. eapply returns_read_uint8; [exact Ha|].
  apply returns_lift_bind. destruct (Cv.resize _ _ _); [|exact H].
  apply returns_new_uint8. intros b s' Hext _ Hb. by apply H.
Qed.

Lemma returns_np_pad a x padding fill s Q :
  Mem.uint8_of s a = Some x ->
  match Np.pad x padding fill with
  | Ok r => forall b s', extends s s' -> Mem.uint8_of s' b = Some r -> Q (Ok b) s'
  | Raise e => Q (Raise e) s
  end ->
  returns (Mem.np_pad a padding fill) s Q.
Proof.
  intros Ha H. unfold Mem.np_pad.
  apply returns_bind. eapply returns_read_uint8; [exact Ha|].
  apply returns_lift_bind. destruct (Np.pad _ _ _); [|exact H].
  apply returns_new_uint8. intros b s' Hext _ Hb. by apply H.
Qed.

Lemma returns_getitem2 a x r c s Q :
  Mem.uint8_of s a = Some x ->
  (forall b, Mem.uint8_of s b = Some (Np.getitem2 x r c) -> Q (Ok b) s) ->
  returns (Mem.getitem2 a r c) s Q.
Proof.
  intros Ha H. apply returns_ret, H. by apply (uint8_of_view s a _ x).
Qed.

Lemma returns_truediv_scalar a x d s Q :
  Mem.uint8_of s a = Some x ->
  (forall b s', extends s s' ->
     Mem.float_of s' b = Some (Np.truediv_scalar x d) -> Q (Ok b) s') ->
  returns (Mem.truediv_scalar a d) s Q.
Proof.
  intros Ha H. unfold Mem.truediv_scalar.
  apply returns_bind. eapply returns_read_uint8; [exact Ha|].
  apply returns_new_float. intros b s' Hext _ Hb. by apply H.
Qed.

Lemma returns_binop f a b x y s Q :
  Mem.float_of s a = Some x -> Mem.float_of s b = Some y ->
  match Np.binop f x y with
  | Ok r => forall c s', extends s s' -> Mem.float_of s' c = Some r -> Q (Ok c) s'
  | Raise e => Q (Raise e) s
  end ->
  returns (Mem.binop f a b) s Q.
Proof.
  intros Ha Hb H. unfold Mem.binop.
  apply returns_bind. eapply returns_read_float; [exact Ha|].
  apply returns_bind. eapply returns_read_float; [exact Hb|].
  apply returns_lift_bind. destruct (Np.binop _ _ _); [|exact H].
  apply returns_new_float. intros c s' Hext _ Hc. by apply H.
Qed.

Lemma returns_transpose201 a x s Q :
  Mem.float_of s a = Some x ->
  match Np.transpose201 x with
  | Ok r => forall b, Mem.float_of s b = Some r -> Q (Ok b) s
  | Raise e => Q (Raise e) s
  end ->
  returns (Mem.transpose201 a) s Q.
Proof.
  intros Ha H. unfold Mem.transpose201.
  apply returns_bind. eapply returns_read_float; [exact Ha|].
  apply returns_lift_bind. destruct (Np.transpose201 x) as [r|e] eqn:E; [|exact H].
  apply returns_ret, H. apply (float_of_view s a _ x); [exact Ha|].
  cbn [Mem.view]. by rewrite E.
Qed.

Lemma returns_astype_float32 a x s Q :
  Mem.float_of s a = Some x ->
  (forall b s', extends s s' -> Mem.cells s !! Mem.buffer b = None ->
     Mem.float_of s' b = Some (Np.astype_float32 x) -> Q (Ok b) s') ->
  returns (Mem.astype_float32 a) s Q.
Proof.
  intros Ha H. unfold Mem.astype_float32.
  apply returns_bind. eapply returns_read_float; [exact Ha|].
  apply returns_new_float. exact H.
Qed.

(** Lines 92-96 on the array after the division. *)
Lemma returns_replicate a x s Q :
  Mem.float_of s a = Some x ->
  match match x with
        | Np.Nd2 h w rows => Np.concatenate3 (Np.expand_dims2 h w rows)
        | Np.Nd3 _ _ _ _ => Ok x
        end with
  | Ok u => forall b s', extends s s' -> Mem.float_of s' b = Some u -> Q (Ok b) s'
  | Raise e => Q (Raise e) s
  end ->
  returns (if Np.ndim x =? 2
           then img ← Mem.expand_dims2 a; Mem.concatenate3 img
           else mret a) s Q.
Proof.
  intros Ha H. destruct x as [h w rows|h w c rows].
  - change (Np.ndim (Np.Nd2 h w rows) =? 2) with true. cbv iota.
    apply returns_bind. unfold Mem.expand_dims2.
    apply returns_bind. eapply returns_read_float; [exact Ha|]. cbv iota.
    apply returns_ret. unfold Mem.concatenate3.
    apply returns_bind. eapply returns_read_float.
    { by apply (float_of_view s a Mem.ExpandDims2 (Np.Nd2 h w rows)). }
    apply returns_lift_bind. cbn [Np.concatenate3 Np.expand_dims2] in H |- *.
    apply returns_new_float. intros b s' Hext _ Hb. by apply H.
  - change (Np.ndim (Np.Nd3 h w c rows) =? 2) with false. cbv iota.
    apply returns_ret. apply H; [apply extends_refl|exact Ha].
Qed.
End Operations.

Lemma returns_reshape4 a x n c h w s
    (Q : result Mem.tensor_ref -> Mem.Store -> Prop) :
  Mem.float_of s a = Some x ->
  match Np.reshape4 x n c h w with
  | Ok v => forall t, Mem.tensor_of t = a -> Mem.tensor_value s t = Some v -> Q (Ok t) s
  | Raise e => Q (Raise e) s
  end ->
  returns (Mem.reshape4 a n c h w) s Q.
Proof.
  intros Ha H. unfold Mem.reshape4.
  apply returns_bind. eapply returns_read_float; [exact Ha|].
  apply returns_lift_bind. destruct (Np.reshape4 x n c h w) as [v|e] eqn:E; [|exact H].
  apply returns_ret, H; [reflexivity|].
  unfold Mem.tensor_value. cbn [Mem.tensor_of Mem.tensor_shape].
  rewrite Ha. cbn. by rewrite E.
Qed.

(** Lines 28-33 on objects: no object is read or made. *)
Lemma returns_resized_size (sq h w : Z) s
    (Q : result (Z * Z) -> Mem.Store -> Prop) :
  match (if h >? w then q ← Py.truediv (sq * w) h; n ← Py.round q; Ok (sq, sq, n)
         else q ← Py.truediv (sq * h) w; n ← Py.round q; Ok (sq, n, sq)) with
  | Ok (_, rh, rw) => Q (Ok (rh, rw)) s
  | Raise e => Q (Raise e) s
  end ->
  returns (if h >? w then
             q ← Mem.lift (Py.truediv (sq * w) h);
             resized_w ← Mem.lift (Py.round q);
             mret (sq, resized_w)
           else
             q ← Mem.lift (Py.truediv (sq * h) w);
             resized_h ← Mem.lift (Py.round q);
             mret (resized_h, sq)) s Q.
Proof.
  destruct (h >? w); intros H; apply returns_lift_bind;
    (destruct (Py.truediv _ _) as [q|e]; [|exact H]);
    apply returns_lift_bind; cbn [mbind result_bind] in H;
    (destruct (Py.round q) as [n|e]; [|exact H]);
    apply returns_ret; exact H.
Qed.

Lemma result_bind_ok {A B} (a : A) (f : A -> result B) : (Ok a ≫= f) = f a.
Proof. reflexivity. Qed.

Section Refinement.
Variable INTER_LINEAR : Cv.kernel.
Variables (s : Mem.Store) (c : Mem.ClassObj) (mean std : Np.ndarray Py.float).
Hypothesis class_bound : Mem.Preprocess_cls s = Some c.
Hypothesis mean_there : Mem.float_of s (Mem.NORM_MEAN c) = Some mean.
Hypothesis std_there : Mem.float_of s (Mem.NORM_STD c) = Some std.

(** On a PIL image the call on objects makes new objects only, and the
    tensor it returns holds what the value-level method computes from
    the pixels and the class. *)
Lemma encode_image_runs img im :
  Mem.cells s !! img = Some (Mem.Object (PilImage im)) ->
  returns (Mem.encode_image INTER_LINEAR img) s (fun r s' =>
    Mem.outcome s' r =
      Some (Preprocess.encode_image INTER_LINEAR (PilImage im) (world_of c mean std)).1 /\
    forall t, r = Ok t -> Mem.cells s !! Mem.buffer (Mem.tensor_of t) = None).
Proof.
  intros Himg. rewrite encode_image_value, resized_size_value.
  unfold im_height, im_width, Preprocess.pad_to_square, Preprocess.scale_to_unit,
    Preprocess.to_model_format.
  cbn [world_of Preprocess_cls CLIP_INPUT_SIZE CROP_CENTER_PADDING NORM_MEAN NORM_STD fst].
  cbv zeta.
  unfold Mem.encode_image.
  apply returns_bind. unfold Mem._assert_pil.
  apply returns_bind. eapply returns_load; [exact Himg|]. cbv iota.
  apply returns_ret.
  apply returns_bind. unfold Mem._smart_resize.
  apply returns_bind. unfold Mem.np_array.
  apply returns_bind. eapply returns_load; [exact Himg|]. cbv iota.
  apply returns_new_uint8. intros a0 s1 He1 _ Ha0.
  apply returns_bind. eapply returns_getattr; [by rewrite (proj1 He1)|].
  apply returns_bind. eapply returns_getattr; [by rewrite (proj1 He1)|].
  apply returns_bind. unfold Mem.shape2.
  apply returns_bind. eapply returns_read_uint8; [exact Ha0|].
  apply returns_ret.
  destruct (Np.shape2 (im_array im)) as [h w]. cbn [fst snd].
  apply returns_bind. apply returns_resized_size.
  set (sq := Mem.CLIP_INPUT_SIZE c + 2 * Mem.CROP_CENTER_PADDING c).
  destruct (if h >? w then _ else _) as [[[sq' rh] rw]|e] eqn:Esz; [|by split].
  assert (sq' = sq) as ->.
  { destruct (h >? w); (destruct (Py.truediv _ _); [|discriminate]);
      cbn [mbind result_bind] in Esz; (destruct (Py.round _); [|discriminate]);
      by injection Esz. }
  clear Esz. cbn [mbind result_bind].
  apply returns_bind. eapply returns_cv_resize; [exact Ha0|].
  destruct (Cv.resize INTER_LINEAR (im_array im) (rw, rh)) as [resized|e]; [|by split].
  rewrite result_bind_ok. intros a1 s2 He2 Ha1.
  apply returns_bind. unfold Mem.ndim_uint8.
  apply returns_bind. eapply returns_read_uint8; [exact Ha1|]. apply returns_ret.
  eapply returns_np_pad; [exact Ha1|].
  destruct (Np.pad resized _ 0) as [padded|e]; [|by split].
  rewrite result_bind_ok. intros a2 s3 He3 Ha2.
  assert (H03 : extends s s3) by eauto using extends_trans.
  apply returns_bind. eapply returns_getattr; [by rewrite (proj1 H03)|].
  apply returns_bind. eapply returns_getitem2; [exact Ha2|]. intros a3 Ha3.
  apply returns_bind. eapply returns_truediv_scalar; [exact Ha3|].
  intros a4 s4 He4 Ha4.
  apply returns_bind. unfold Mem.ndim_float.
  apply returns_bind. eapply returns_read_float; [exact Ha4|]. apply returns_ret.
  apply returns_bind. eapply returns_replicate; [exact Ha4|].
  set (U := match Np.truediv_scalar _ _ with Np.Nd2 _ _ _ => _ | Np.Nd3 _ _ _ _ => _ end).
  clearbody U. destruct U as [u|e]; [|by split].
  rewrite result_bind_ok. intros a5 s5 He5 Ha5.
  assert (H05 : extends s s5) by eauto using extends_trans.
  apply returns_bind. eapply returns_getattr; [by rewrite (proj1 H05)|].
  apply returns_bind.
  eapply returns_binop; [exact Ha5|exact (float_of_extends _ _ _ _ H05 mean_there)|].
  destruct (Np.binop Py.fsub u mean) as [n1|e]; [|by split].
  rewrite result_bind_ok. intros a6 s6 He6 Ha6.
  assert (H06 : extends s s6) by eauto using extends_trans.
  apply returns_bind. eapply returns_getattr; [by rewrite (proj1 H06)|].
  apply returns_bind.
  eapply returns_binop; [exact Ha6|exact (float_of_extends _ _ _ _ H06 std_there)|].
  destruct (Np.binop Py.fdiv n1 std) as [n2|e]; [|by split].
  rewrite result_bind_ok. intros a7 s7 He7 Ha7.
  assert (H07 : extends s s7) by eauto using extends_trans.
  apply returns_bind. eapply returns_transpose201; [exact Ha7|].
  destruct (Np.transpose201 n2) as [n3|e]; [|by split].
  rewrite result_bind_ok. intros a8 Ha8.
  apply returns_bind. eapply returns_astype_float32; [exact Ha8|].
  intros a9 s9 He9 Hfresh Ha9.
  eapply returns_reshape4; [exact Ha9|].
  destruct (Np.reshape4 (Np.astype_float32 n3) 1 3 224 224) as [v|e]; [|by split].
  intros t Ht Hv. split.
  - cbn [Mem.outcome]. by rewrite Hv.
  - intros t' [= <-]. rewrite Ht. exact (extends_fresh _ _ _ H07 Hfresh).
Qed.

(** On any other object the call raises at the type check and makes
    nothing. *)
Lemma encode_image_rejects img o :
  Mem.cells s !! img = Some (Mem.Object o) -> (forall im, o <> PilImage im) ->
  Mem.encode_image INTER_LINEAR img s =
  Some (Raise (AssertionError ("Expected PIL Image but instead got " +:+ type_repr o)), s).
Proof.
  intros Himg Hno. unfold Mem.encode_image, Mem._assert_pil, Mem.load.
  unfold mbind at 1, Mem.S_bind. unfold mbind at 1, Mem.S_bind. rewrite Himg.
  destruct o as [im| | | | |]; [by destruct (Hno im)|..]; reflexivity.
Qed.
End Refinement.

(** The class statement and the making of the image lead to [store0]. *)
Lemma class_body_store0 :
  (_ ← Mem.class_body; Mem.alloc (Mem.Object (PilImage gray_1x4)))
    {| Mem.Preprocess_cls := None; Mem.cells := ∅ |} = Some (Ok 2%nat, store0).
Proof. vm_compute. reflexivity. Qed.

(** Writing in place is seen by whoever holds the object: the store after
    it does not extend the one before. *)
Lemma store_seen l c c' s :
  Mem.cells s !! l = Some c -> c <> c' ->
  exists s', Mem.store l c' s = Some (Ok tt, s') /\ ~ extends s s'.
Proof.
  intros Hl Hne. eexists. split; [reflexivity|]. intros [_ Hsub].
  pose proof (lookup_weaken _ _ _ _ Hl Hsub) as H. cbn in H.
  rewrite lookup_insert_eq in H. congruence.
Qed.

(** * The claims *)

(** C1 (as amended).  For every decoded image with height >= 1, width >= 1
    and one or three channels whose resize target has at least one row and
    one column, [_smart_resize] returns a 672 x 672 square, the center crop
    is rows and columns [224:448] of it (224 removed on every side, 224 x
    224 left), and [encode_image] returns a well-formed tensor of shape
    (1, 3, 224, 224), in the world it was called in. *)
Theorem encode_image_shape (INTER_LINEAR : Cv.kernel) (W : World)
    (img : Image) (sq rh rw : Z) :
  Preprocess_cls W = Preprocess.class_body ->
  1 <= im_height img -> 1 <= im_width img ->
  im_channels img = 1 \/ im_channels img = 3 ->
  Preprocess.resized_size (im_height img) (im_width img) W = (Ok (sq, rh, rw), W) ->
  1 <= rh -> 1 <= rw ->
  exists square t,
    Preprocess._smart_resize INTER_LINEAR img W = (Ok square, W) /\
    Np.shape2 square = (672, 672) /\
    Preprocess.crop_center INTER_LINEAR img W =
      (Ok (Np.getitem2 square (224, 448) (224, 448)), W) /\
    Np.shape2 (Np.getitem2 square (224, 448) (224, 448)) = (224, 224) /\
    Preprocess.encode_image INTER_LINEAR (PilImage img) W = (Ok t, W) /\
    Np.shape4 t = [1; 3; 224; 224] /\ Np.wf4 t.
Proof.
  intros Hcls Hh Hw Hc Hsz Hrh Hrw.
  assert (Hc' : 1 <= im_channels img <= Cv.CV_CN_MAX) by (unfold Cv.CV_CN_MAX; lia).
  destruct (smart_resize_ok INTER_LINEAR W Hcls img sq rh rw Hh Hw Hc' Hsz Hrh Hrw)
    as (resized & Hres & Hwf & Hall & Hshape & Hrh' & Hrw' & Hrun).
  destruct (encode_image_ok INTER_LINEAR W Hcls img sq rh rw Hh Hw Hc Hsz Hrh Hrw)
    as (resized' & Hres' & Hs2 & _ & _ & _ & _ & Hcrop & _ & Hpre & Henc).
  assert (resized' = resized) by congruence. subst resized'.
  assert (Hb1 : 0 <= (Np.shape2 resized).1 <= 672) by (rewrite Hs2; cbn; lia).
  assert (Hb2 : 0 <= (Np.shape2 resized).2 <= 672) by (rewrite Hs2; cbn; lia).
  assert (Hsq : Np.shape2 (padded 672 resized) = (672, 672)) by (by destruct resized).
  exists (padded 672 resized). eexists. split; [exact Hrun|]. split; [exact Hsq|].
  rewrite <- (cropped_explicit (padded 672 resized)) by (auto using padded_wf).
  split; [exact Hcrop|]. split; [by destruct resized|].
  split; [exact Henc|]. split; [reflexivity|].
  cbn. split; [lia|]. split; [lia|]. split; [reflexivity|].
  constructor; [|constructor]. split; [reflexivity|].
  repeat (constructor; [by apply plane_rows_wf|]). constructor.
Qed.

Lemma encode_image_shape_witness :
  exists square t,
    Preprocess._smart_resize nearest rgb_1x1 world0 = (Ok square, world0) /\
    Np.shape2 square = (672, 672) /\
    Preprocess.crop_center nearest rgb_1x1 world0 =
      (Ok (Np.getitem2 square (224, 448) (224, 448)), world0) /\
    Np.shape2 (Np.getitem2 square (224, 448) (224, 448)) = (224, 224) /\
    Preprocess.encode_image nearest (PilImage rgb_1x1) world0 = (Ok t, world0) /\
    Np.shape4 t = [1; 3; 224; 224] /\ Np.wf4 t.
Proof.
  apply (encode_image_shape nearest world0 rgb_1x1 672 672 672).
  - reflexivity.
  - vm_compute. discriminate.
  - vm_compute. discriminate.
  - right. reflexivity.
  - vm_compute. reflexivity.
  - lia.
  - lia.
Defined.

(** C1 (as stated) fails: a gray strip 1 pixel high and 1344 wide has
    height >= 1, width >= 1 and one channel; its resized height is
    round(672 * 1 / 1344) = round(0.5) = 0 and [cv.resize] raises. *)
Lemma encode_image_shape_counterexample :
  im_height gray_1x1344 = 1 /\ im_width gray_1x1344 = 1344 /\
  im_channels gray_1x1344 = 1 /\
  Preprocess.resized_size 1 1344 world0 = (Ok (672, 0, 672), world0) /\
  Preprocess.encode_image nearest (PilImage gray_1x1344) world0 =
    (Raise cv2_error, world0).
Proof.
  do 3 (split; [reflexivity|]). split; [vm_compute; reflexivity|].
  apply (encode_image_empty_target nearest world0 gray_1x1344 672 0 672).
  - vm_compute. reflexivity.
  - right. right. left. lia.
Qed.

(** The boundary in terms of the sides, for sides up to 2^40: below an
    aspect ratio of 1344 to 1 the tensor has shape (1, 3, 224, 224), from
    1344 to 1 on [cv.resize] raises. *)
Corollary encode_image_aspect (INTER_LINEAR : Cv.kernel) (W : World) (img : Image) :
  Preprocess_cls W = Preprocess.class_body ->
  1 <= im_height img <= 2 ^ 40 -> 1 <= im_width img <= 2 ^ 40 ->
  im_channels img = 1 \/ im_channels img = 3 ->
  (Z.max (im_height img) (im_width img) < 1344 * Z.min (im_height img) (im_width img) ->
   exists t,
     Preprocess.encode_image INTER_LINEAR (PilImage img) W = (Ok t, W) /\
     Np.shape4 t = [1; 3; 224; 224] /\ Np.wf4 t) /\
  (1344 * Z.min (im_height img) (im_width img) <= Z.max (im_height img) (im_width img) ->
   Preprocess.encode_image INTER_LINEAR (PilImage img) W = (Raise cv2_error, W)).
Proof.
  intros Hcls Hh Hw Hc.
  destruct (resize_target_aspect W Hcls _ _ Hh Hw) as (rh & rw & Hsz & Hiff).
  split; intros Hasp.
  - apply (encode_image_tensor INTER_LINEAR W img 672 rh rw); try assumption; try lia.
  - apply (encode_image_empty_target INTER_LINEAR W img 672 rh rw Hsz). lia.
Qed.

(** C2.  For an image of height h >= 1 and width w >= 1: when h > w the
    new height is 672 and the new width is round(672 * w / h); otherwise
    the new width is 672 and the new height is round(672 * h / w).  The
    division is Python's true division of ints, the rounding Python's
    round; neither raises, and the rounded side lies in 0..672.  For
    sides up to 2^40 the float quotient rounds as the exact one: the
    shorter side is 672 * short / long rounded to the nearest integer,
    ties to even. *)
Theorem resized_size_spec (W : World) (h w : Z) :
  Preprocess_cls W = Preprocess.class_body ->
  1 <= h -> 1 <= w ->
  (h > w ->
   exists q new_w, Py.truediv (672 * w) h = Ok q /\ Py.round q = Ok new_w /\
                   0 <= new_w <= 672 /\
                   Preprocess.resized_size h w W = (Ok (672, 672, new_w), W)) /\
  (h <= w ->
   exists q new_h, Py.truediv (672 * h) w = Ok q /\ Py.round q = Ok new_h /\
                   0 <= new_h <= 672 /\
                   Preprocess.resized_size h w W = (Ok (672, new_h, 672), W)) /\
  (h <= 2 ^ 40 -> w <= 2 ^ 40 ->
   Preprocess.resized_size h w W =
   (Ok (if h >? w then (672, 672, Py.div_half_even (672 * w) h)
        else (672, Py.div_half_even (672 * h) w, 672)), W)).
Proof.
  intros Hcls Hh Hw. split; [|split].
  - intros Hcmp. apply resized_size_tall; [assumption|assumption|lia].
  - intros Hcmp. apply resized_size_wide; assumption.
  - intros Hh' Hw'. apply resized_size_exact; [assumption|lia|lia].
Qed.

Lemma resized_size_spec_witness :
  (480 > 640 ->
   exists q new_w, Py.truediv (672 * 640) 480 = Ok q /\ Py.round q = Ok new_w /\
                   0 <= new_w <= 672 /\
                   Preprocess.resized_size 480 640 world0 = (Ok (672, 672, new_w), world0)) /\
  (480 <= 640 ->
   exists q new_h, Py.truediv (672 * 480) 640 = Ok q /\ Py.round q = Ok new_h /\
                   0 <= new_h <= 672 /\
                   Preprocess.resized_size 480 640 world0 = (Ok (672, new_h, 672), world0)) /\
  (480 <= 2 ^ 40 -> 640 <= 2 ^ 40 ->
   Preprocess.resized_size 480 640 world0 =
   (Ok (if 480 >? 640 then (672, 672, Py.div_half_even (672 * 640) 480)
        else (672, Py.div_half_even (672 * 480) 640, 672)), world0)).
Proof.
  apply (resized_size_spec world0 480 640); [reflexivity|lia|lia].
Defined.

(** C3.  A resized image of size (new_h, new_w) within the 672 square is
    padded to 672 x 672: with residuals 672 - new_h and 672 - new_w, the
    leading side gets residual // 2 and the trailing side the rest, the
    fill is 0 on both spatial axes, and a channel axis keeps its length
    and its samples (the fill pixel is one 0 per channel). *)
Theorem pad_to_square_spec (img : Np.ndarray Z) (new_h new_w : Z) :
  Np.shape2 img = (new_h, new_w) ->
  0 <= new_h <= 672 -> 0 <= new_w <= 672 ->
  let vert_residual := 672 - new_h in
  let hor_residual := 672 - new_w in
  let vert_pad := vert_residual `div` 2 in
  let hor_pad := hor_residual `div` 2 in
  Preprocess.pad_to_square 672 new_h new_w img =
  Ok match img with
     | Np.Nd2 _ _ rows =>
         Np.Nd2 672 672
           (framed 672 0 vert_pad (vert_residual - vert_pad)
              hor_pad (hor_residual - hor_pad) rows)
     | Np.Nd3 _ _ c rows =>
         Np.Nd3 672 672 c
           (framed 672 (replicate (Z.to_nat c) 0)
              vert_pad (vert_residual - vert_pad)
              hor_pad (hor_residual - hor_pad) rows)
     end.
Proof.
  intros Hs Hh Hw. cbv zeta.
  pose proof (pad_to_square_padded 672 img) as Hp.
  rewrite Hs in Hp. cbn [fst snd] in Hp. rewrite Hp by assumption.
  unfold padded. rewrite Hs. reflexivity.
Qed.

Lemma pad_to_square_spec_witness :
  Preprocess.pad_to_square 672 1 2 (Np.Nd3 1 2 3 [[[1; 2; 3]; [4; 5; 6]]]) =
  Ok (Np.Nd3 672 672 3
        (framed 672 (replicate (Z.to_nat 3) 0)
           ((672 - 1) `div` 2) (672 - 1 - (672 - 1) `div` 2)
           ((672 - 2) `div` 2) (672 - 2 - (672 - 2) `div` 2)
           [[[1; 2; 3]; [4; 5; 6]]])).
Proof.
  apply (pad_to_square_spec (Np.Nd3 1 2 3 [[[1; 2; 3]; [4; 5; 6]]]) 1 2);
    [reflexivity|lia|lia].
Defined.

(** C4 (as amended).  For a gray image the channel is replicated after the
    crop and the division by 255.0 and before the normalisation: at every
    pixel the three channels hold the same sample g / 255.0 before line
    99, and channel c of the output holds its normalisation by the
    statistics of c.  The value x * NORM_STD[c] + NORM_MEAN[c], in float64
    and in real arithmetic on the decimal statistics, is within 2^-25 of
    that common sample for every channel; the three values agree up to
    this rounding, not exactly. *)
Theorem grayscale_replicated (INTER_LINEAR : Cv.kernel) (W : World)
    (img : Image) (sq rh rw : Z) :
  Preprocess_cls W = Preprocess.class_body ->
  1 <= im_height img -> 1 <= im_width img -> im_channels img = 1 ->
  Preprocess.resized_size (im_height img) (im_width img) W = (Ok (sq, rh, rw), W) ->
  1 <= rh -> 1 <= rw ->
  exists u8 pre t,
    Preprocess.crop_center INTER_LINEAR img W = (Ok u8, W) /\
    Preprocess.scale_to_unit u8 = Ok pre /\
    Preprocess.encode_image INTER_LINEAR (PilImage img) W = (Ok t, W) /\
    forall i j, (i < 224)%nat -> (j < 224)%nat ->
      exists g, is_u8 g /\ item2 u8 i j = Some g /\
        forall c, (c < 3)%nat ->
          Np.item3 pre i j c = Some (unit_sample g) /\
          Np.item4 t 0 c i j = Some (normalized c (unit_sample g)) /\
          Py.is_finite (denormalized c (normalized c (unit_sample g))) = true /\
          (Qabs (Py.to_Q (denormalized c (normalized c (unit_sample g))) -
                 Py.to_Q (unit_sample g)) <= eps25)%Q /\
          (Qabs (denormalized_real c (normalized c (unit_sample g)) -
                 Py.to_Q (unit_sample g)) <= eps25)%Q.
Proof.
  intros Hcls Hh Hw Hc Hsz Hrh Hrw.
  destruct (encode_image_ok INTER_LINEAR W Hcls img sq rh rw Hh Hw (or_introl Hc) Hsz Hrh Hrw)
    as (resized & _ & _ & _ & Hwf & Hall & Hshape & Hcrop & Hscale & _ & Henc).
  set (u8 := cropped (padded 672 resized)) in *. clearbody u8.
  rewrite Hc in Hshape. change (1 =? 1) with true in Hshape. cbv iota in Hshape.
  destruct u8 as [h w rows|]; [|discriminate]. injection Hshape as -> ->.
  eexists _, _, _. split; [exact Hcrop|]. split; [exact Hscale|]. split; [exact Henc|].
  intros i j Hi Hj.
  destruct (item2_in_range 224 224 rows i j Hwf) as [g Hg]; [lia|lia|].
  pose proof (item2_all is_u8 _ i j g Hall Hg) as Hu8.
  exists g. split; [exact Hu8|]. split; [exact Hg|]. intros c Hc3.
  pose proof (unit_pixels_gray_lookup 224 224 rows i j g Hg) as Hpx.
  destruct (item4_gray _ i j c _ Hc3 Hpx) as [H3 H4].
  destruct (denormalized_close c g Hc3 Hu8) as (Hfin & Hclose & Hreal).
  repeat split; assumption.
Qed.

Lemma grayscale_replicated_witness :
  exists u8 pre t,
    Preprocess.crop_center nearest gray_1x4 world0 = (Ok u8, world0) /\
    Preprocess.scale_to_unit u8 = Ok pre /\
    Preprocess.encode_image nearest (PilImage gray_1x4) world0 = (Ok t, world0) /\
    forall i j, (i < 224)%nat -> (j < 224)%nat ->
      exists g, is_u8 g /\ item2 u8 i j = Some g /\
        forall c, (c < 3)%nat ->
          Np.item3 pre i j c = Some (unit_sample g) /\
          Np.item4 t 0 c i j = Some (normalized c (unit_sample g)) /\
          Py.is_finite (denormalized c (normalized c (unit_sample g))) = true /\
          (Qabs (Py.to_Q (denormalized c (normalized c (unit_sample g))) -
                 Py.to_Q (unit_sample g)) <= eps25)%Q /\
          (Qabs (denormalized_real c (normalized c (unit_sample g)) -
                 Py.to_Q (unit_sample g)) <= eps25)%Q.
Proof.
  apply (grayscale_replicated nearest world0 gray_1x4 672 168 672).
  - reflexivity.
  - vm_compute. discriminate.
  - vm_compute. discriminate.
  - reflexivity.
  - vm_compute. reflexivity.
  - lia.
  - lia.
Defined.

(** C4 (as stated) fails: on the gray strip the corner of the output comes
    from the zero padding, and x * NORM_STD[c] + NORM_MEAN[c] differs
    between channel 0 and channel 1, in float64 (about -4.1e-9 against
    -2.3e-8), in float32 (0.0 against -3.0e-8) and in real arithmetic on
    the decimal statistics. *)
Lemma grayscale_replicated_counterexample :
  im_channels gray_1x4 = 1 /\
  exists t x0 x1,
    Preprocess.encode_image nearest (PilImage gray_1x4) world0 = (Ok t, world0) /\
    Np.item4 t 0 0 0 0 = Some x0 /\ Np.item4 t 0 1 0 0 = Some x1 /\
    denormalized 0 x0 <> denormalized 1 x1 /\
    ~ (Py.to_Q (denormalized 0 x0) == Py.to_Q (denormalized 1 x1))%Q /\
    ~ (Py.to_Q (denormalized32 0 x0) == Py.to_Q (denormalized32 1 x1))%Q /\
    ~ (denormalized_real 0 x0 == denormalized_real 1 x1)%Q.
Proof.
  split; [reflexivity|].
  destruct gray_1x4_corner as (t & Henc & Hcorner).
  exists t, (normalized 0 (unit_sample 0)), (normalized 1 (unit_sample 0)).
  split; [exact Henc|]. split; [apply Hcorner; lia|]. split; [apply Hcorner; lia|].
  repeat split; vm_compute; discriminate.
Qed.

(** C5.  For every argument that is not a PIL image, [encode_image] raises
    the AssertionError of [_assert_pil] (the type error of the
    specification), whatever the argument holds, and the world is as it
    was: nothing has been processed. *)
Theorem encode_image_type_guard (INTER_LINEAR : Cv.kernel) (W : World) (o : PyObj) :
  (forall img, o <> PilImage img) ->
  Preprocess._assert_pil o W =
    (Raise (AssertionError ("Expected PIL Image but instead got " +:+ type_repr o)), W) /\
  Preprocess.encode_image INTER_LINEAR o W =
    (Raise (AssertionError ("Expected PIL Image but instead got " +:+ type_repr o)), W).
Proof.
  intros Hno. destruct o as [img| | | | |]; [by destruct (Hno img)|..];
    split; reflexivity.
Qed.

Lemma encode_image_type_guard_witness :
  Preprocess._assert_pil (PyBytes [137; 80; 78; 71]) world0 =
    (Raise (AssertionError "Expected PIL Image but instead got <class 'bytes'>"), world0) /\
  Preprocess.encode_image nearest (PyBytes [137; 80; 78; 71]) world0 =
    (Raise (AssertionError "Expected PIL Image but instead got <class 'bytes'>"), world0).
Proof.
  apply (encode_image_type_guard nearest world0 (PyBytes [137; 80; 78; 71])).
  intros img. discriminate.
Defined.

(** C6 (as amended).  [encode_image] has no guard for degenerate images and
    no exception of its own for them, and it never returns a tensor for
    one: an image without rows and without columns raises
    ZeroDivisionError (from the division of line 33); an image without
    rows or without columns, or one whose resize target has no rows or no
    columns, raises OpenCV's error from [cv.resize]. *)
Theorem encode_image_degenerate (INTER_LINEAR : Cv.kernel) (W : World) (img : Image) :
  Preprocess_cls W = Preprocess.class_body ->
  0 <= im_height img -> 0 <= im_width img ->
  (im_height img = 0 /\ im_width img = 0 ->
   Preprocess.encode_image INTER_LINEAR (PilImage img) W = (Raise ZeroDivisionError, W)) /\
  (im_height img = 0 /\ 1 <= im_width img \/ 1 <= im_height img /\ im_width img = 0 ->
   Preprocess.encode_image INTER_LINEAR (PilImage img) W = (Raise cv2_error, W)) /\
  (forall sq rh rw,
     Preprocess.resized_size (im_height img) (im_width img) W = (Ok (sq, rh, rw), W) ->
     rh <= 0 \/ rw <= 0 ->
     Preprocess.encode_image INTER_LINEAR (PilImage img) W = (Raise cv2_error, W)).
Proof.
  intros Hcls Hh Hw. split; [|split].
  - intros [Eh Ew]. by apply encode_image_no_pixels.
  - intros [[Eh Ew]|[Eh Ew]].
    + apply (encode_image_empty_target INTER_LINEAR W img 672 0 672); [|lia].
      rewrite Eh. by apply resized_size_no_rows.
    + apply (encode_image_empty_target INTER_LINEAR W img 672 672 0); [|lia].
      rewrite Ew. by apply resized_size_no_columns.
  - intros sq rh rw Hsz Hdeg.
    apply (encode_image_empty_target INTER_LINEAR W img sq rh rw Hsz). tauto.
Qed.

Lemma encode_image_degenerate_witness :
  (im_height empty_0x0 = 0 /\ im_width empty_0x0 = 0 ->
   Preprocess.encode_image nearest (PilImage empty_0x0) world0 = (Raise ZeroDivisionError, world0)) /\
  (im_height empty_0x0 = 0 /\ 1 <= im_width empty_0x0 \/
   1 <= im_height empty_0x0 /\ im_width empty_0x0 = 0 ->
   Preprocess.encode_image nearest (PilImage empty_0x0) world0 = (Raise cv2_error, world0)) /\
  (forall sq rh rw,
     Preprocess.resized_size (im_height empty_0x0) (im_width empty_0x0) world0 =
       (Ok (sq, rh, rw), world0) ->
     rh <= 0 \/ rw <= 0 ->
     Preprocess.encode_image nearest (PilImage empty_0x0) world0 = (Raise cv2_error, world0)).
Proof.
  apply (encode_image_degenerate nearest world0 empty_0x0);
    [reflexivity|vm_compute; discriminate|vm_compute; discriminate].
Defined.

(** C6 (as stated) fails: on an image without rows and columns no guard
    runs and no shape error is raised; the call fails in the arithmetic of
    the resize, with ZeroDivisionError. *)
Lemma encode_image_degenerate_counterexample :
  Preprocess.encode_image nearest (PilImage empty_0x0) world0 =
  (Raise ZeroDivisionError, world0).
Proof. vm_compute. reflexivity. Qed.

(** C7.  A call of [encode_image] on objects in memory.  Every object the
    caller holds (the image, the two arrays of the class, anything else)
    and the class are as before: the call only makes new objects, and
    the tensor it returns lies in memory that was not in use.  What the
    tensor holds, or the exception, is the value-level [encode_image] of
    the object and the class attributes, for an image of its pixel grid
    only (the metadata plays no role).  A second call, in the store the
    first one left, gives a tensor with the same samples, and the first
    tensor is still what it was. *)
Theorem encode_image_pure_function (INTER_LINEAR : Cv.kernel) (s : Mem.Store)
    (img : Mem.loc) (o : PyObj) (c : Mem.ClassObj) (mean std : Np.ndarray Py.float) :
  Mem.Preprocess_cls s = Some c ->
  Mem.float_of s (Mem.NORM_MEAN c) = Some mean ->
  Mem.float_of s (Mem.NORM_STD c) = Some std ->
  Mem.cells s !! img = Some (Mem.Object o) ->
  exists r s',
    Mem.encode_image INTER_LINEAR img s = Some (r, s') /\
    Mem.Preprocess_cls s' = Mem.Preprocess_cls s /\
    (forall l x, Mem.cells s !! l = Some x -> Mem.cells s' !! l = Some x) /\
    (forall t, r = Ok t -> Mem.cells s !! Mem.buffer (Mem.tensor_of t) = None) /\
    Mem.outcome s' r =
      Some (Preprocess.encode_image INTER_LINEAR o (world_of c mean std)).1 /\
    (forall im info, o = PilImage im ->
       (Preprocess.encode_image INTER_LINEAR
          (PilImage {| im_array := im_array im; im_info := info |})
          (world_of c mean std)).1 =
       (Preprocess.encode_image INTER_LINEAR o (world_of c mean std)).1) /\
    exists r2 s'',
      Mem.encode_image INTER_LINEAR img s' = Some (r2, s'') /\
      Mem.outcome s'' r2 = Mem.outcome s' r /\
      Mem.outcome s'' r = Mem.outcome s' r.
Proof.
  intros Hcls Hmean Hstd Himg.
  assert (Hrun : forall s0, extends s s0 ->
            returns (Mem.encode_image INTER_LINEAR img) s0 (fun r s' =>
              Mem.outcome s' r =
                Some (Preprocess.encode_image INTER_LINEAR o (world_of c mean std)).1 /\
              forall t, r = Ok t -> Mem.cells s0 !! Mem.buffer (Mem.tensor_of t) = None)).
  { intros s0 Hext.
    assert (Hcls0 : Mem.Preprocess_cls s0 = Some c) by (by rewrite (proj1 Hext)).
    pose proof (float_of_extends _ _ _ _ Hext Hmean) as Hmean0.
    pose proof (float_of_extends _ _ _ _ Hext Hstd) as Hstd0.
    pose proof (extends_lookup _ _ _ _ Hext Himg) as Himg0.
    destruct o as [im| | | | |];
      [exact (encode_image_runs INTER_LINEAR s0 c mean std Hcls0 Hmean0 Hstd0 img im Himg0)|..];
      (eexists _, s0; split;
         [apply (encode_image_rejects INTER_LINEAR s0 img _ Himg0); discriminate|];
       split; [apply extends_refl|]; split; [reflexivity|discriminate]). }
  destruct (Hrun s (extends_refl s)) as (r & s' & Hr & Hext & Hout & Hnew).
  exists r, s'. split; [exact Hr|]. split; [exact (proj1 Hext)|].
  split; [intros l x; apply (extends_lookup _ _ _ _ Hext)|].
  split; [exact Hnew|]. split; [exact Hout|]. split.
  { intros im info ->. by rewrite !encode_image_value. }
  destruct (Hrun s' Hext) as (r2 & s'' & Hr2 & Hext2 & Hout2 & _).
  exists r2, s''. split; [exact Hr2|]. split; [congruence|].
  rewrite Hout. exact (outcome_extends _ _ _ _ Hext2 Hout).
Qed.

Lemma encode_image_pure_function_witness :
  exists r s',
    Mem.encode_image nearest 2%nat store0 = Some (r, s') /\
    Mem.Preprocess_cls s' = Mem.Preprocess_cls store0 /\
    (forall l x, Mem.cells store0 !! l = Some x -> Mem.cells s' !! l = Some x) /\
    (forall t, r = Ok t -> Mem.cells store0 !! Mem.buffer (Mem.tensor_of t) = None) /\
    Mem.outcome s' r =
      Some (Preprocess.encode_image nearest (PilImage gray_1x4)
              (world_of class0 (NORM_MEAN Preprocess.class_body)
                 (NORM_STD Preprocess.class_body))).1 /\
    (forall im info, PilImage gray_1x4 = PilImage im ->
       (Preprocess.encode_image nearest
          (PilImage {| im_array := im_array im; im_info := info |})
          (world_of class0 (NORM_MEAN Preprocess.class_body)
             (NORM_STD Preprocess.class_body))).1 =
       (Preprocess.encode_image nearest (PilImage gray_1x4)
          (world_of class0 (NORM_MEAN Preprocess.class_body)
             (NORM_STD Preprocess.class_body))).1) /\
    exists r2 s'',
      Mem.encode_image nearest 2%nat s' = Some (r2, s'') /\
      Mem.outcome s'' r2 = Mem.outcome s' r /\
      Mem.outcome s'' r = Mem.outcome s' r.
Proof.
  apply (encode_image_pure_function nearest store0 2%nat (PilImage gray_1x4) class0
           (NORM_MEAN Preprocess.class_body) (NORM_STD Preprocess.class_body));
    reflexivity.
Defined.

(** C8 (as amended).  For a valid image every sample after the division by
    255.0 and before the normalisation is finite and in [0, 1].  Every
    sample x of channel c of the output is finite and lies between the
    float32 roundings of (0 - NORM_MEAN[c]) / NORM_STD[c] and
    (1 - NORM_MEAN[c]) / NORM_STD[c]; these roundings can fall outside the
    real bounds, by less than 2^-23, so that x lies within 2^-23 of the
    real range, and in [-2.12, 2.64 + 2^-23]. *)
Theorem sample_ranges (INTER_LINEAR : Cv.kernel) (W : World)
    (img : Image) (sq rh rw : Z) :
  Preprocess_cls W = Preprocess.class_body ->
  1 <= im_height img -> 1 <= im_width img ->
  im_channels img = 1 \/ im_channels img = 3 ->
  Preprocess.resized_size (im_height img) (im_width img) W = (Ok (sq, rh, rw), W) ->
  1 <= rh -> 1 <= rw ->
  exists u8 pre t,
    Preprocess.crop_center INTER_LINEAR img W = (Ok u8, W) /\
    Preprocess.scale_to_unit u8 = Ok pre /\
    Preprocess.encode_image INTER_LINEAR (PilImage img) W = (Ok t, W) /\
    Np.all (fun v => Py.is_finite v = true /\ (0 <= Py.to_Q v <= 1)%Q) pre /\
    forall c i j x, Np.item4 t 0 c i j = Some x ->
      Py.is_finite x = true /\
      (Py.to_Q (Np.to_float32 (range_lo64 c)) <= Py.to_Q x)%Q /\
      (Py.to_Q x <= Py.to_Q (Np.to_float32 (range_hi64 c)))%Q /\
      (range_lo c - eps23 <= Py.to_Q x)%Q /\ (Py.to_Q x <= range_hi c + eps23)%Q /\
      (- (212 # 100) <= Py.to_Q x)%Q /\ (Py.to_Q x <= (264 # 100) + eps23)%Q.
Proof.
  intros Hcls Hh Hw Hc Hsz Hrh Hrw.
  destruct (encode_image_ok INTER_LINEAR W Hcls img sq rh rw Hh Hw Hc Hsz Hrh Hrw)
    as (resized & _ & _ & _ & Hwf & Hall & _ & Hcrop & Hscale & Hpre & Henc).
  set (u8 := cropped (padded 672 resized)) in *. clearbody u8.
  pose proof (unit_pixels_all u8 Hall) as Hunit.
  eexists _, _, _. split; [exact Hcrop|]. split; [exact Hscale|]. split; [exact Henc|].
  split.
  - cbn [Np.all]. eapply Forall_impl; [exact Hunit|]. intros row Hrow. cbn in Hrow |- *.
    eapply Forall_impl; [exact Hrow|]. intros px Hpx. cbn in Hpx |- *.
    eapply Forall_impl; [exact Hpx|]. intros v (g & Hg & ->). by apply unit_sample_range.
  - intros c i j x Hx. rewrite item4_planes in Hx.
    case_decide as Hc3; [|discriminate]. destruct Hc3 as [_ Hc3].
    destruct (unit_pixels u8 !! i) as [row|] eqn:Hrow; [|discriminate]. cbn in Hx.
    destruct (row !! j) as [px|] eqn:Hpx; [|discriminate]. cbn in Hx.
    injection Hx as <-.
    assert (Hlen : length px = 3%nat).
    { destruct Hpre as (_ & _ & Hl). rewrite Forall_lookup in Hl.
      specialize (Hl i row Hrow). rewrite Forall_lookup in Hl.
      exact (Hl j px Hpx). }
    assert (Hu : unit_of_u8 (px !!! c)).
    { apply pixel_sample; [assumption..|].
      rewrite Forall_lookup in Hunit. specialize (Hunit i row Hrow).
      rewrite Forall_lookup in Hunit. exact (Hunit j px Hpx). }
    destruct Hu as (g & Hg & ->).
    destruct (normalized_range c g Hc3 Hg) as (Hfin & Hlo & Hhi).
    destruct (range_ends c Hc3) as [E0 E1]. rewrite <- E0, <- E1.
    destruct (range_close c Hc3) as [Hl Hr].
    destruct (range_within c Hc3) as [Hl' Hr'].
    repeat split; try assumption.
    + eapply Qle_trans; [exact Hl|exact Hlo].
    + eapply Qle_trans; [exact Hhi|exact Hr].
    + eapply Qle_trans; [exact Hl'|]. eapply Qle_trans; [exact Hl|exact Hlo].
    + eapply Qle_trans; [exact Hhi|]. eapply Qle_trans; [exact Hr|exact Hr'].
Qed.

Lemma sample_ranges_witness :
  exists u8 pre t,
    Preprocess.crop_center nearest rgb_1x1 world0 = (Ok u8, world0) /\
    Preprocess.scale_to_unit u8 = Ok pre /\
    Preprocess.encode_image nearest (PilImage rgb_1x1) world0 = (Ok t, world0) /\
    Np.all (fun v => Py.is_finite v = true /\ (0 <= Py.to_Q v <= 1)%Q) pre /\
    forall c i j x, Np.item4 t 0 c i j = Some x ->
      Py.is_finite x = true /\
      (Py.to_Q (Np.to_float32 (range_lo64 c)) <= Py.to_Q x)%Q /\
      (Py.to_Q x <= Py.to_Q (Np.to_float32 (range_hi64 c)))%Q /\
      (range_lo c - eps23 <= Py.to_Q x)%Q /\ (Py.to_Q x <= range_hi c + eps23)%Q /\
      (- (212 # 100) <= Py.to_Q x)%Q /\ (Py.to_Q x <= (264 # 100) + eps23)%Q.
Proof.
  apply (sample_ranges nearest world0 rgb_1x1 672 672 672).
  - reflexivity.
  - vm_compute. discriminate.
  - vm_compute. discriminate.
  - right. reflexivity.
  - vm_compute. reflexivity.
  - lia.
  - lia.
Defined.

(** C8 (as stated) fails: on the gray strip the corner sample of channel 0
    is the float32 number -2.1179039478..., below (0 - 0.485) / 0.229 =
    -2.1179039301..., as a real number and as the float64 quotient. *)
Lemma sample_ranges_counterexample :
  exists t x,
    Preprocess.encode_image nearest (PilImage gray_1x4) world0 = (Ok t, world0) /\
    Np.item4 t 0 0 0 0 = Some x /\
    (Py.to_Q x < range_lo 0)%Q /\ (Py.to_Q x < Py.to_Q (range_lo64 0))%Q.
Proof.
  destruct gray_1x4_corner as (t & Henc & Hcorner).
  exists t, (normalized 0 (unit_sample 0)).
  split; [exact Henc|]. split; [apply Hcorner; lia|].
  split; vm_compute; reflexivity.
Qed.

(** C9.  The shorter side is rounded by Python's round on the float
    quotient: whenever the quotient 672 * short / long, as a float, is
    exactly k + 1/2, the resized shorter side is the even one of k and
    k + 1. *)
Theorem resized_size_half_to_even (W : World) (h w : Z) (q : Py.float) (k : Z) :
  Preprocess_cls W = Preprocess.class_body ->
  1 <= h -> 1 <= w ->
  Py.truediv (672 * Z.min h w) (Z.max h w) = Ok q ->
  (Py.to_Q q == inject_Z k + (1 # 2))%Q ->
  let even_neighbour := if Z.even k then k else k + 1 in
  Py.round q = Ok even_neighbour /\
  Preprocess.resized_size h w W =
    (Ok (if h >? w then (672, 672, even_neighbour) else (672, even_neighbour, 672)), W).
Proof.
  intros Hcls Hh Hw Hq Hhalf. cbv zeta.
  pose proof (round_tie q k Hhalf) as Hround. split; [exact Hround|].
  destruct (Z.gtb_spec h w) as [Hgt|Hle].
  - rewrite Z.min_r, Z.max_l in Hq by lia.
    destruct (resized_size_tall W Hcls h w Hw Hgt) as (q' & n & Hq' & Hn & _ & E).
    rewrite E. congruence.
  - rewrite Z.min_l, Z.max_r in Hq by lia.
    destruct (resized_size_wide W Hcls h w Hh Hle) as (q' & n & Hq' & Hn & _ & E).
    rewrite E. congruence.
Qed.

Lemma resized_size_half_to_even_witness :
  Py.round (S754_finite false 5629499534213120 (-51)) = Ok 2 /\
  Preprocess.resized_size 1344 5 world0 = (Ok (672, 672, 2), world0).
Proof.
  apply (resized_size_half_to_even world0 1344 5
           (S754_finite false 5629499534213120 (-51)) 2);
    [reflexivity|lia|lia|vm_compute; reflexivity|vm_compute; reflexivity].
Defined.

(** The same rule seen from the images: 0.5 goes to 0, 1.5 and 2.5 go to
    2 (rounding half away from zero would give 1, 2 and 3). *)
Example resized_size_ties :
  Preprocess.resized_size 1344 1 world0 = (Ok (672, 672, 0), world0) /\
  Preprocess.resized_size 1344 3 world0 = (Ok (672, 672, 2), world0) /\
  Preprocess.resized_size 5 1344 world0 = (Ok (672, 2, 672), world0) /\
  Preprocess.resized_size 1 1000 world0 = (Ok (672, 1, 672), world0).
Proof. repeat split; vm_compute; reflexivity. Qed.

(** C10 (as amended).  A decoded image of two or four channels never comes
    back as a tensor, and no channel is dropped or reordered: when its
    resize target has a row and a column, the call raises at the
    subtraction of line 99, where (224, 224, C) does not broadcast against
    (1, 1, 3), before the transpose and the reshape are reached; when the
    target is empty it raises at [cv.resize]. *)
Theorem encode_image_channel_mismatch (INTER_LINEAR : Cv.kernel) (W : World)
    (img : Image) :
  Preprocess_cls W = Preprocess.class_body ->
  1 <= im_height img -> 1 <= im_width img ->
  im_channels img = 2 \/ im_channels img = 4 ->
  exists sq rh rw,
    Preprocess.resized_size (im_height img) (im_width img) W = (Ok (sq, rh, rw), W) /\
    Preprocess.encode_image INTER_LINEAR (PilImage img) W =
    (Raise (if (1 <=? rh) && (1 <=? rw)
            then ValueError (broadcast_mismatch [224; 224; im_channels img] [1; 1; 3])
            else cv2_error), W).
Proof.
  intros Hcls Hh Hw Hc.
  assert (exists sq rh rw,
            Preprocess.resized_size (im_height img) (im_width img) W = (Ok (sq, rh, rw), W))
    as (sq & rh & rw & Hsz).
  { destruct (Z_lt_le_dec (im_width img) (im_height img)) as [Hlt|Hle].
    - destruct (resized_size_tall W Hcls _ _ Hw Hlt) as (? & ? & _ & _ & _ & E); eauto.
    - destruct (resized_size_wide W Hcls _ _ Hh Hle) as (? & ? & _ & _ & _ & E); eauto. }
  exists sq, rh, rw. split; [exact Hsz|].
  destruct (Z.leb_spec 1 rh) as [Hrh|Hrh]; cbn [andb].
  - destruct (Z.leb_spec 1 rw) as [Hrw|Hrw].
    + apply (encode_image_extra_channels INTER_LINEAR W Hcls img sq rh rw);
        try assumption; unfold Cv.CV_CN_MAX; lia.
    + apply (encode_image_empty_target INTER_LINEAR W img sq rh rw Hsz). lia.
  - apply (encode_image_empty_target INTER_LINEAR W img sq rh rw Hsz). lia.
Qed.

Lemma encode_image_channel_mismatch_witness :
  exists sq rh rw,
    Preprocess.resized_size (im_height rgba_1x1) (im_width rgba_1x1) world0 =
      (Ok (sq, rh, rw), world0) /\
    Preprocess.encode_image nearest (PilImage rgba_1x1) world0 =
    (Raise (if (1 <=? rh) && (1 <=? rw)
            then ValueError (broadcast_mismatch [224; 224; im_channels rgba_1x1] [1; 1; 3])
            else cv2_error), world0).
Proof.
  apply (encode_image_channel_mismatch nearest world0 rgba_1x1);
    [reflexivity|vm_compute; discriminate|vm_compute; discriminate|right; reflexivity].
Defined.

(** C10 (as stated) fails: on one RGBA pixel the exception is the
    broadcasting error of the normalisation, not the size error of the
    reshape, which is never reached. *)
Lemma encode_image_channel_mismatch_counterexample :
  Preprocess.encode_image nearest (PilImage rgba_1x1) world0 =
    (Raise (ValueError (broadcast_mismatch [224; 224; 4] [1; 1; 3])), world0) /\
  forall size newshape,
    Preprocess.encode_image nearest (PilImage rgba_1x1) world0 <>
    (Raise (ValueError (reshape_size_mismatch size newshape)), world0).
Proof.
  assert (E : Preprocess.encode_image nearest (PilImage rgba_1x1) world0 =
              (Raise (ValueError (broadcast_mismatch [224; 224; 4] [1; 1; 3])), world0)).
  { apply (encode_image_extra_channels nearest world0 world0_class rgba_1x1 672 672 672);
      [vm_compute; discriminate|vm_compute; discriminate|
       split; vm_compute; discriminate|discriminate|vm_compute; reflexivity|lia|lia]. }
  split; [exact E|]. intros size newshape. rewrite E. discriminate.
Qed.

(** * Further properties of the methods *)

(** ** The resize target *)

(** The quotient of a multiple by its divisor is exact, whatever the size
    of the ints. *)
Lemma truediv_round_multiple k b :
  0 <= k < 2 ^ 53 -> 0 < b ->
  exists q, Py.truediv (k * b) b = Ok q /\ Py.round q = Ok k.
Proof.
  intros Hk Hb.
  destruct (truediv_between k k 0 ltac:(lia) ltac:(lia) Hk (k * b) b)
    as [[-> ->]|(m & e & -> & He & Hm)]; [nia|lia|lia|lia| |].
  { exists (S754_zero false). split; reflexivity. }
  eexists. split; [reflexivity|]. rewrite Z.sub_0_r in Hm.
  cbn [Py.round cond_Zopp]. f_equal.
  destruct (Z.leb_spec 0 e).
  - replace e with 0 in * by lia. cbn in Hm |- *. lia.
  - assert (0 < 2 ^ (- e)) by (apply Z.pow_pos_nonneg; lia).
    rewrite (div_half_even_unique (Z.pos m) (2 ^ (- e)) k 0) by lia.
    replace (2 * 0 ?= 2 ^ (- e)) with Lt
      by (symmetry; apply Z.compare_lt_iff; lia).
    reflexivity.
Qed.

Lemma div_half_even_nearest n d :
  0 < d -> 2 * Z.abs (n - Py.div_half_even n d * d) <= d.
Proof.
  intros Hd. unfold Py.div_half_even.
  pose proof (Z.div_mod n d ltac:(lia)) as Hdm.
  pose proof (Z.mod_pos_bound n d Hd) as Hmod.
  destruct (Z.compare_spec (2 * (n mod d)) d); try destruct (Z.even _); nia.
Qed.

Lemma div_half_even_scale k n d :
  0 < k -> 0 < d -> Py.div_half_even (k * n) (k * d) = Py.div_half_even n d.
Proof.
  intros Hk Hd. unfold Py.div_half_even.
  rewrite Z.div_mul_cancel_l, Z.mul_mod_distr_l by lia.
  assert (E : (2 * (k * (n mod d)) ?= k * d) = (2 * (n mod d) ?= d)).
  { destruct (Z.compare_spec (2 * (n mod d)) d);
      [apply Z.compare_eq_iff|apply Z.compare_lt_iff|apply Z.compare_gt_iff]; nia. }
  by rewrite E.
Qed.

Lemma div_half_even_224 n d :
  0 <= n -> 0 < d -> (224 <= Py.div_half_even n d <-> 447 * d <= 2 * n).
Proof.
  intros Hn Hd. unfold Py.div_half_even.
  pose proof (Z.div_mod n d ltac:(lia)) as Hdm.
  pose proof (Z.mod_pos_bound n d Hd) as Hmod.
  set (q := n `div` d) in *. set (r := n `mod` d) in *. clearbody q r.
  destruct (Z.compare_spec (2 * r) d) as [E|E|E].
  - destruct (Z.even q) eqn:Hev.
    + apply Z.even_spec in Hev as [m ->]. split; nia.
    + split; nia.
  - split; nia.
  - split; nia.
Qed.

Lemma resized_size_square W h :
  Preprocess_cls W = Preprocess.class_body -> 1 <= h ->
  Preprocess.resized_size h h W = (Ok (672, 672, 672), W).
Proof.
  intros Hcls Hh.
  destruct (resized_size_wide W Hcls h h Hh ltac:(lia)) as (q & n & Hq & Hn & _ & E).
  destruct (truediv_round_multiple 672 h ltac:(split; [lia|reflexivity]) ltac:(lia))
    as (q' & Hq' & Hn').
  rewrite E. congruence.
Qed.

(** X1.  Portrait and landscape are treated alike (lines 28-33): for an
    image of height h >= 1 and width w >= 1, whatever its size, the
    resize target of the transposed size is the transposed target; a
    square image resizes to 672 x 672. *)
Theorem resized_size_transpose (W : World) (h w : Z) :
  Preprocess_cls W = Preprocess.class_body ->
  1 <= h -> 1 <= w ->
  exists rh rw,
    Preprocess.resized_size h w W = (Ok (672, rh, rw), W) /\
    Preprocess.resized_size w h W = (Ok (672, rw, rh), W) /\
    (h = w -> rh = 672 /\ rw = 672).
Proof.
  intros Hcls Hh Hw.
  destruct (Z.lt_total h w) as [Hlt|[->|Hgt]].
  - destruct (resized_size_wide W Hcls h w Hh ltac:(lia)) as (q & n & Hq & Hn & _ & E).
    destruct (resized_size_tall W Hcls w h Hh Hlt) as (q' & n' & Hq' & Hn' & _ & E').
    exists n, 672. split; [exact E|]. split; [rewrite E'; congruence|lia].
  - exists 672, 672. split; [by apply resized_size_square|].
    split; [by apply resized_size_square|auto].
  - destruct (resized_size_tall W Hcls h w Hw Hgt) as (q & n & Hq & Hn & _ & E).
    destruct (resized_size_wide W Hcls w h Hw ltac:(lia)) as (q' & n' & Hq' & Hn' & _ & E').
    exists 672, n. split; [exact E|]. split; [rewrite E'; congruence|lia].
Qed.

Lemma resized_size_transpose_witness :
  exists rh rw,
    Preprocess.resized_size 480 640 world0 = (Ok (672, rh, rw), world0) /\
    Preprocess.resized_size 640 480 world0 = (Ok (672, rw, rh), world0) /\
    (480 = 640 -> rh = 672 /\ rw = 672).
Proof. apply (resized_size_transpose world0 480 640); [reflexivity|lia|lia]. Defined.

(** X2.  The resize keeps the ratio of the sides up to rounding (the
    docstring of [_smart_resize]): for sides up to 2^40 the longer side of
    the target is 672 and the shorter one is within half a pixel of
    672 * short / long, that is 2 * |rh * w - rw * h| <= max(h, w). *)
Theorem resized_size_keeps_ratio (W : World) (h w : Z) :
  Preprocess_cls W = Preprocess.class_body ->
  1 <= h <= 2 ^ 40 -> 1 <= w <= 2 ^ 40 ->
  exists rh rw,
    Preprocess.resized_size h w W = (Ok (672, rh, rw), W) /\
    Z.max rh rw = 672 /\ 0 <= Z.min rh rw /\
    2 * Z.abs (rh * w - rw * h) <= Z.max h w.
Proof.
  intros Hcls Hh Hw. rewrite (resized_size_exact W Hcls h w Hh Hw).
  destruct (Z.gtb_spec h w) as [Hgt|Hle]; eexists _, _; (split; [reflexivity|]).
  - pose proof (div_half_even_bound 672 (672 * w) h ltac:(lia) ltac:(lia)).
    pose proof (div_half_even_nearest (672 * w) h ltac:(lia)). lia.
  - pose proof (div_half_even_bound 672 (672 * h) w ltac:(lia) ltac:(lia)).
    pose proof (div_half_even_nearest (672 * h) w ltac:(lia)). lia.
Qed.

Lemma resized_size_keeps_ratio_witness :
  exists rh rw,
    Preprocess.resized_size 480 640 world0 = (Ok (672, rh, rw), world0) /\
    Z.max rh rw = 672 /\ 0 <= Z.min rh rw /\
    2 * Z.abs (rh * 640 - rw * 480) <= Z.max 480 640.
Proof.
  apply (resized_size_keeps_ratio world0 480 640); [reflexivity|split; [lia|vm_compute; discriminate]..].
Defined.

(** X3.  The resize target depends on the ratio of the sides only: for
    sides up to 2^40, an image k times as high and k times as wide has
    the same target. *)
Theorem resized_size_scale_invariant (W : World) (k h w : Z) :
  Preprocess_cls W = Preprocess.class_body ->
  1 <= k -> 1 <= h -> 1 <= w -> k * h <= 2 ^ 40 -> k * w <= 2 ^ 40 ->
  Preprocess.resized_size (k * h) (k * w) W = Preprocess.resized_size h w W.
Proof.
  intros Hcls Hk Hh Hw Hkh Hkw.
  rewrite (resized_size_exact W Hcls (k * h) (k * w)) by nia.
  rewrite (resized_size_exact W Hcls h w) by nia.
  replace (k * h >? k * w) with (h >? w).
  2:{ destruct (Z.gtb_spec h w), (Z.gtb_spec (k * h) (k * w)); try reflexivity; nia. }
  replace (672 * (k * w)) with (k * (672 * w)) by lia.
  replace (672 * (k * h)) with (k * (672 * h)) by lia.
  by rewrite !div_half_even_scale by lia.
Qed.

Lemma resized_size_scale_invariant_witness :
  Preprocess.resized_size (10 * 48) (10 * 64) world0 = Preprocess.resized_size 48 64 world0.
Proof.
  apply (resized_size_scale_invariant world0 10 48 64);
    [reflexivity|lia|lia|lia|vm_compute; discriminate|vm_compute; discriminate].
Defined.

(** ** [_smart_resize] *)

Lemma framed_none {B} (side : Z) (fill : B) (rows : list (list B)) :
  framed side fill 0 0 0 0 rows = rows.
Proof.
  unfold framed. cbn. rewrite app_nil_r.
  rewrite <- (list_fmap_id rows) at 2. apply list_fmap_ext.
  intros _ row _. cbn. by rewrite app_nil_r.
Qed.

Lemma padded_full side img :
  Np.shape2 img = (side, side) -> padded side img = img.
Proof.
  intros Hs. unfold padded. rewrite Hs.
  rewrite !Z.sub_diag. change (0 `div` 2) with 0.
  destruct img as [h w rows|h w c rows]; cbn in Hs; injection Hs as -> ->;
    by rewrite framed_none.
Qed.

(** [cv.resize] raises its own error or returns an array of the size asked
    for. *)
Lemma resize_cases (INTER_LINEAR : Cv.kernel) (src : Np.ndarray Z) (dw dh : Z) :
  Cv.resize INTER_LINEAR src (dw, dh) = Raise cv2_error \/
  exists r, Cv.resize INTER_LINEAR src (dw, dh) = Ok r /\
            Np.shape2 r = (dh, dw) /\ Np.channels r = Np.channels src /\
            1 <= dh /\ 1 <= dw /\ 1 <= Np.channels src <= Cv.CV_CN_MAX /\
            Np.shape r = (if Np.channels src =? 1 then [dh; dw]
                          else [dh; dw; Np.channels src]).
Proof.
  unfold Cv.resize. destruct (Np.shape2 src) as [h w]. cbn [fst snd].
  destruct (Z.leb_spec h 0); [by left|].
  destruct (Z.leb_spec w 0); [by left|].
  destruct (Z.leb_spec (Np.channels src) 0); [by left|].
  destruct (Z.ltb_spec Cv.CV_CN_MAX (Np.channels src)); [by left|].
  destruct (Z.leb_spec dw 0); [by left|].
  destruct (Z.leb_spec dh 0); [by left|]. cbn [orb].
  right. destruct (Z.eqb_spec (Np.channels src) 1) as [E|E];
    eexists; (split; [reflexivity|]); cbn; repeat split; lia.
Qed.

Lemma smart_resize_run (INTER_LINEAR : Cv.kernel) (W : World) (img : Image) sq rh rw :
  Preprocess.resized_size (im_height img) (im_width img) W = (Ok (sq, rh, rw), W) ->
  Preprocess._smart_resize INTER_LINEAR img W =
  (resized ← Cv.resize INTER_LINEAR (im_array img) (rw, rh);
   Preprocess.pad_to_square sq rh rw resized, W).
Proof.
  intros Hsz. unfold Preprocess._smart_resize, im_height, im_width in *.
  destruct (Np.shape2 (im_array img)) as [h w]. cbn [fst snd] in Hsz.
  rewrite (run_bind_ok _ _ _ _ _ Hsz).
  by destruct (Cv.resize _ _ _) as [r|e].
Qed.

Lemma smart_resize_no_pixels (INTER_LINEAR : Cv.kernel) (W : World) (img : Image) :
  im_height img = 0 -> im_width img = 0 ->
  Preprocess._smart_resize INTER_LINEAR img W = (Raise ZeroDivisionError, W).
Proof.
  intros Hh Hw. unfold Preprocess._smart_resize, im_height, im_width in *.
  destruct (Np.shape2 (im_array img)) as [h w]. cbn [fst snd] in *. subst h w.
  apply run_bind_raise. unfold Preprocess.resized_size.
  rewrite (run_bind_ok _ _ _ _ _ (run_getattr _ _)).
  rewrite (run_bind_ok _ _ _ _ _ (run_getattr _ _)).
  reflexivity.
Qed.

Lemma resize_no_source (INTER_LINEAR : Cv.kernel) (src : Np.ndarray Z) dsize :
  (Np.shape2 src).1 <= 0 \/ (Np.shape2 src).2 <= 0 ->
  Cv.resize INTER_LINEAR src dsize = Raise cv2_error.
Proof.
  intros H. unfold Cv.resize. destruct (Np.shape2 src) as [h w]. cbn [fst snd] in H.
  destruct (Z.leb_spec h 0); [reflexivity|].
  destruct (Z.leb_spec w 0); [reflexivity|]. lia.
Qed.

(** X4.  A square image is resized to 672 x 672 and gets no padding:
    [_smart_resize] returns the array [cv.resize] returned, for the one
    to four channels of an 8-bit PIL image. *)
Theorem smart_resize_square_image (INTER_LINEAR : Cv.kernel) (W : World) (img : Image) :
  Preprocess_cls W = Preprocess.class_body ->
  1 <= im_height img -> im_width img = im_height img ->
  1 <= im_channels img <= 4 ->
  exists resized,
    Cv.resize INTER_LINEAR (im_array img) (672, 672) = Ok resized /\
    Np.shape2 resized = (672, 672) /\
    Preprocess._smart_resize INTER_LINEAR img W = (Ok resized, W).
Proof.
  intros Hcls Hh Hw Hc.
  pose proof (resized_size_square W (im_height img) Hcls Hh) as Hsz.
  rewrite <- Hw in Hsz at 2.
  destruct (smart_resize_ok INTER_LINEAR W Hcls img 672 672 672)
    as (resized & Hres & _ & _ & Hshape & _ & _ & Hrun);
    [lia|lia|unfold Cv.CV_CN_MAX; lia|assumption|lia|lia|].
  assert (Hs2 : Np.shape2 resized = (672, 672)).
  { destruct (im_channels img =? 1), resized; cbn in Hshape |- *; congruence. }
  exists resized. split; [exact Hres|]. split; [exact Hs2|].
  by rewrite padded_full in Hrun.
Qed.

Lemma smart_resize_square_image_witness :
  exists resized,
    Cv.resize nearest (im_array rgb_1x1) (672, 672) = Ok resized /\
    Np.shape2 resized = (672, 672) /\
    Preprocess._smart_resize nearest rgb_1x1 world0 = (Ok resized, world0).
Proof.
  apply (smart_resize_square_image nearest world0 rgb_1x1);
    [reflexivity|vm_compute; discriminate|reflexivity|split; vm_compute; discriminate].
Defined.

(** X5.  [_smart_resize] fails in two places only: the division of line 33
    raises ZeroDivisionError on an image without rows and columns, and
    [cv.resize] raises on an empty source, an empty target or a channel
    count it does not take.  The residuals of lines 39-40 are never
    negative, so [np.pad] never raises; what is returned is 672 x 672 with
    the channels of the image. *)
Theorem smart_resize_outcomes (INTER_LINEAR : Cv.kernel) (W : World) (img : Image) :
  Preprocess_cls W = Preprocess.class_body ->
  0 <= im_height img -> 0 <= im_width img ->
  (im_height img = 0 /\ im_width img = 0 /\
   Preprocess._smart_resize INTER_LINEAR img W = (Raise ZeroDivisionError, W)) \/
  (0 < im_height img + im_width img /\
   Preprocess._smart_resize INTER_LINEAR img W = (Raise cv2_error, W)) \/
  (1 <= im_height img /\ 1 <= im_width img /\
   exists square,
     Preprocess._smart_resize INTER_LINEAR img W = (Ok square, W) /\
     Np.shape2 square = (672, 672) /\ Np.channels square = im_channels img).
Proof.
  intros Hcls Hh Hw.
  destruct (Z.eq_dec (im_height img) 0) as [Eh|Nh].
  { destruct (Z.eq_dec (im_width img) 0) as [Ew|Nw].
    - left. repeat split; [assumption..|by apply smart_resize_no_pixels].
    - right. left. split; [lia|].
      rewrite (smart_resize_run INTER_LINEAR W img 672 0 672)
        by (rewrite Eh; apply resized_size_no_rows; [assumption|lia]).
      rewrite resize_no_source; [reflexivity|]. left. fold (im_height img). lia. }
  destruct (Z.eq_dec (im_width img) 0) as [Ew|Nw].
  { right. left. split; [lia|].
    rewrite (smart_resize_run INTER_LINEAR W img 672 672 0)
      by (rewrite Ew; apply resized_size_no_columns; [assumption|lia]).
    rewrite resize_no_source; [reflexivity|]. right. fold (im_width img). lia. }
  assert (exists sq rh rw,
            Preprocess.resized_size (im_height img) (im_width img) W = (Ok (sq, rh, rw), W))
    as (sq & rh & rw & Hsz).
  { destruct (Z_lt_le_dec (im_width img) (im_height img)) as [Hlt|Hle].
    - destruct (resized_size_tall W Hcls (im_height img) (im_width img) ltac:(lia) Hlt) as (? & ? & _ & _ & _ & E); eauto.
    - destruct (resized_size_wide W Hcls (im_height img) (im_width img) ltac:(lia) Hle) as (? & ? & _ & _ & _ & E); eauto. }
  destruct (resized_size_range W Hcls (im_height img) (im_width img) sq rh rw ltac:(lia) ltac:(lia) Hsz) as (-> & Hrh & Hrw).
  rewrite (smart_resize_run INTER_LINEAR W img 672 rh rw Hsz).
  destruct (resize_cases INTER_LINEAR (im_array img) rw rh)
    as [->|(r & -> & Hs2 & Hcn & Hrh1 & Hrw1)].
  { right. left. split; [lia|reflexivity]. }
  right. right. split; [lia|]. split; [lia|].
  exists (padded 672 r). cbn [mbind result_bind].
  pose proof (pad_to_square_padded 672 r) as Hp. rewrite Hs2 in Hp. cbn [fst snd] in Hp.
  rewrite Hp by lia. split; [reflexivity|].
  split; [by destruct r|]. unfold im_channels. rewrite <- Hcn. by destruct r.
Qed.

Lemma smart_resize_outcomes_witness :
  (im_height rgba_1x1 = 0 /\ im_width rgba_1x1 = 0 /\
   Preprocess._smart_resize nearest rgba_1x1 world0 = (Raise ZeroDivisionError, world0)) \/
  (0 < im_height rgba_1x1 + im_width rgba_1x1 /\
   Preprocess._smart_resize nearest rgba_1x1 world0 = (Raise cv2_error, world0)) \/
  (1 <= im_height rgba_1x1 /\ 1 <= im_width rgba_1x1 /\
   exists square,
     Preprocess._smart_resize nearest rgba_1x1 world0 = (Ok square, world0) /\
     Np.shape2 square = (672, 672) /\ Np.channels square = im_channels rgba_1x1).
Proof.
  apply (smart_resize_outcomes nearest world0 rgba_1x1);
    [reflexivity|vm_compute; discriminate|vm_compute; discriminate].
Defined.

(** ** The tensor, sample by sample *)

Lemma framed_lookup {B} (side : Z) (fill : B) (top bottom left right h w : Z)
    (rows : list (list B)) (I J : nat) :
  Np.rows_wf h w rows -> 0 <= top -> 0 <= bottom -> 0 <= left -> 0 <= right ->
  side = left + w + right ->
  (I < Z.to_nat (top + h + bottom))%nat -> (J < Z.to_nat side)%nat ->
  (row ← framed side fill top bottom left right rows !! I; (row : list B) !! J) =
  if decide ((Z.to_nat top <= I < Z.to_nat (top + h))%nat /\
             (Z.to_nat left <= J < Z.to_nat (left + w))%nat)
  then row ← rows !! (I - Z.to_nat top)%nat; (row : list B) !! (J - Z.to_nat left)%nat
  else Some fill.
Proof.
  intros (Hh & Hw & Hlen & Hrows) Ht Hb Hl Hr -> HI HJ. unfold framed.
  destruct (decide (I < Z.to_nat top)%nat) as [Htop|Htop].
  { rewrite lookup_app_l by (rewrite length_replicate; lia).
    rewrite lookup_replicate_2 by lia. cbn.
    rewrite lookup_replicate_2 by lia. case_decide; [lia|reflexivity]. }
  rewrite lookup_app_r by (rewrite length_replicate; lia). rewrite length_replicate.
  destruct (decide (I - Z.to_nat top < Z.to_nat h)%nat) as [Hmid|Hmid].
  - rewrite lookup_app_l by (rewrite length_fmap; lia).
    rewrite list_lookup_fmap.
    destruct (lookup_lt_is_Some_2 rows (I - Z.to_nat top)%nat ltac:(lia)) as [row Hrow].
    rewrite Hrow. cbn.
    rewrite Forall_lookup in Hrows. specialize (Hrows _ _ Hrow). cbn in Hrows.
    destruct (decide (J < Z.to_nat left)%nat) as [Hleft|Hleft].
    { rewrite lookup_app_l by (rewrite length_replicate; lia).
      rewrite lookup_replicate_2 by lia. case_decide; [lia|reflexivity]. }
    rewrite lookup_app_r by (rewrite length_replicate; lia). rewrite length_replicate.
    destruct (decide (J - Z.to_nat left < Z.to_nat w)%nat) as [Hin|Hin].
    + rewrite lookup_app_l by lia. case_decide; [reflexivity|lia].
    + rewrite lookup_app_r by lia. rewrite lookup_replicate_2 by lia.
      case_decide; [lia|reflexivity].
  - rewrite lookup_app_r by (rewrite length_fmap; lia). rewrite length_fmap.
    rewrite lookup_replicate_2 by lia. cbn.
    rewrite lookup_replicate_2 by lia. case_decide; [lia|reflexivity].
Qed.

Lemma crop_lookup {B} (rows : list (list B)) (i j : nat) :
  Np.rows_wf 672 672 rows -> (i < 224)%nat -> (j < 224)%nat ->
  (row ← lmap (Py.slice 224 (-224)) (Py.slice 224 (-224) rows) !! i; (row : list B) !! j) =
  (row ← rows !! (224 + i)%nat; (row : list B) !! (224 + j)%nat).
Proof.
  intros (_ & _ & Hlen & Hrows) Hi Hj.
  rewrite list_lookup_fmap, slice_center_lookup by (rewrite ?Hlen; lia).
  destruct (rows !! (224 + i)%nat) as [row|] eqn:Hrow; [|reflexivity]. cbn.
  rewrite Forall_lookup in Hrows. specialize (Hrows _ _ Hrow). cbn in Hrows.
  apply slice_center_lookup; [rewrite Hrows|]; lia.
Qed.

(** The sample of the crop at (i, j): the sample of the resized image the
    padding has moved there, or the 0 of the padding. *)
Lemma sample_cropped_padded (resized : Np.ndarray Z) (rh rw : Z) (i j k : nat) :
  Np.wf resized -> Np.shape2 resized = (rh, rw) ->
  0 <= rh <= 672 -> 0 <= rw <= 672 ->
  (i < 224)%nat -> (j < 224)%nat ->
  match resized with
  | Np.Nd2 _ _ _ => True
  | Np.Nd3 _ _ c _ => Z.of_nat k < c
  end ->
  let top := Z.to_nat ((672 - rh) `div` 2) in
  let left := Z.to_nat ((672 - rw) `div` 2) in
  sample (cropped (padded 672 resized)) i j k =
  if decide ((top <= 224 + i < top + Z.to_nat rh)%nat /\
             (left <= 224 + j < left + Z.to_nat rw)%nat)
  then sample resized (224 + i - top)%nat (224 + j - left)%nat k
  else Some 0.
Proof.
  intros Hwf Hs Hrh Hrw Hi Hj Hk. cbv zeta.
  pose proof (padded_wf 672 resized Hwf) as Hp.
  rewrite Hs in Hp. cbn [fst snd] in Hp. specialize (Hp Hrh Hrw).
  pose proof (half_range (672 - rh) ltac:(lia)) as Hv.
  pose proof (half_range (672 - rw) ltac:(lia)) as Hz.
  unfold cropped, padded in *. rewrite Hs in *.
  set (vp := (672 - rh) `div` 2) in *. set (hp := (672 - rw) `div` 2) in *.
  clearbody vp hp.
  destruct resized as [h w rows|h w c rows]; cbn in Hs; injection Hs as -> ->;
    cbn [Np.getitem2 sample item2 Np.item3 fst snd Np.wf Np.channels] in *.
  - rewrite crop_lookup by assumption.
    rewrite (framed_lookup 672 0 vp (672 - rh - vp) hp (672 - rw - hp) rh rw)
      by (try assumption; lia).
    repeat case_decide; try reflexivity; lia.
  - destruct Hwf as (Hrows & Hc & Hpx). destruct Hp as (Hprows & _ & _).
    pose proof (crop_lookup _ i j Hprows Hi Hj) as E.
    pose proof (framed_lookup 672 (replicate (Z.to_nat c) 0) vp (672 - rh - vp)
                  hp (672 - rw - hp) rh rw rows (224 + i) (224 + j) Hrows) as F.
    rewrite F in E by lia. clear F.
    set (crows := lmap _ _) in *. clearbody crows.
    destruct (crows !! i) as [row|]; cbn in E |- *.
    + rewrite E. repeat case_decide; try lia.
      * by destruct (rows !! _).
      * cbn. apply lookup_replicate_2. lia.
    + repeat case_decide; try lia; [|discriminate].
      destruct (rows !! _) as [row|]; [|reflexivity]. cbn in E |- *.
      by rewrite <- E.
Qed.

Lemma sample_all (P : Z -> Prop) (a : Np.ndarray Z) (i j k : nat) (g : Z) :
  Np.all P a -> sample a i j k = Some g -> P g.
Proof.
  destruct a as [h w rows|h w c rows]; cbn; intros Hall H.
  - destruct (rows !! i) as [row|] eqn:Hrow; [|discriminate]. cbn in H.
    rewrite Forall_lookup in Hall. specialize (Hall i row Hrow).
    rewrite Forall_lookup in Hall. by eapply Hall.
  - destruct (rows !! i) as [row|] eqn:Hrow; [|discriminate]. cbn in H.
    destruct (row !! j) as [px|] eqn:Hpx; [|discriminate]. cbn in H.
    rewrite Forall_lookup in Hall. specialize (Hall i row Hrow).
    rewrite Forall_lookup in Hall. specialize (Hall j px Hpx).
    rewrite Forall_lookup in Hall. by eapply Hall.
Qed.

Lemma sample_in_range (a : Np.ndarray Z) (i j k : nat) :
  Np.wf a -> (i < Z.to_nat (Np.shape2 a).1)%nat -> (j < Z.to_nat (Np.shape2 a).2)%nat ->
  Z.of_nat k < Np.channels a ->
  exists g, sample a i j k = Some g.
Proof.
  destruct a as [h w rows|h w c rows]; cbn [Np.wf Np.shape2 Np.channels fst snd sample].
  - intros Hwf Hi Hj _. by apply (item2_in_range h w rows i j).
  - intros ((_ & _ & Hlen & Hrows) & Hc & Hpx) Hi Hj Hk. cbn [Np.item3].
    destruct (lookup_lt_is_Some_2 rows i ltac:(lia)) as [row Hrow]. rewrite Hrow.
    rewrite Forall_lookup in Hrows. specialize (Hrows i row Hrow). cbn in Hrows.
    destruct (lookup_lt_is_Some_2 row j ltac:(lia)) as [px Hp]. cbn. rewrite Hp.
    rewrite Forall_lookup in Hpx. specialize (Hpx i row Hrow).
    rewrite Forall_lookup in Hpx. specialize (Hpx j px Hp). cbn in Hpx |- *.
    apply lookup_lt_is_Some_2. lia.
Qed.

(** A sample of the crop, through the scaling, the normalisation, the
    transposition and the cast: channel [k] of the tensor at the same
    row and column. *)
Lemma planes_sample (u8 : Np.ndarray Z) (i j k : nat) (g : Z) :
  (k < 3)%nat -> sample u8 i j k = Some g ->
  Np.item4 (Np.Nd4 1 3 224 224
              [[plane 0 (unit_pixels u8); plane 1 (unit_pixels u8);
                plane 2 (unit_pixels u8)]]) 0 k i j =
  Some (normalized k (unit_sample g)).
Proof.
  intros Hk Hs. rewrite item4_planes. case_decide; [|lia].
  destruct u8 as [h w rows|h w c rows]; cbn [sample item2 Np.item3 unit_pixels] in *.
  - rewrite list_lookup_fmap. destruct (rows !! i) as [row|]; [|discriminate].
    cbn in Hs |- *. rewrite list_lookup_fmap, Hs. cbn.
    destruct k as [|[|[|]]]; [reflexivity..|lia].
  - rewrite list_lookup_fmap. destruct (rows !! i) as [row|]; [|discriminate].
    cbn in Hs |- *. rewrite list_lookup_fmap.
    destruct (row !! j) as [px|]; [|discriminate]. cbn in Hs |- *.
    do 2 f_equal. apply list_lookup_total_correct.
    by rewrite list_lookup_fmap, Hs.
Qed.

Section Samples.
Variable INTER_LINEAR : Cv.kernel.
Variable W : World.
Hypothesis class_intact : Preprocess_cls W = Preprocess.class_body.

(** The tensor, sample by sample, from the crop and from the resized
    image. *)
Lemma encode_image_samples img sq rh rw :
  1 <= im_height img -> 1 <= im_width img ->
  im_channels img = 1 \/ im_channels img = 3 ->
  Preprocess.resized_size (im_height img) (im_width img) W = (Ok (sq, rh, rw), W) ->
  1 <= rh -> 1 <= rw ->
  exists resized u8 t,
    Cv.resize INTER_LINEAR (im_array img) (rw, rh) = Ok resized /\
    Preprocess.crop_center INTER_LINEAR img W = (Ok u8, W) /\
    Preprocess.encode_image INTER_LINEAR (PilImage img) W = (Ok t, W) /\
    Np.all is_u8 resized /\ Np.all is_u8 u8 /\
    (forall i j k g, (k < 3)%nat -> sample u8 i j k = Some g ->
       Np.item4 t 0 k i j = Some (normalized k (unit_sample g))) /\
    (forall i j k, (i < 224)%nat -> (j < 224)%nat -> (k < 3)%nat ->
       exists g, sample u8 i j k = Some g) /\
    (forall i j k, (i < 224)%nat -> (j < 224)%nat -> (k < 3)%nat ->
       let top := Z.to_nat ((672 - rh) `div` 2) in
       let left := Z.to_nat ((672 - rw) `div` 2) in
       sample u8 i j k =
       if decide ((top <= 224 + i < top + Z.to_nat rh)%nat /\
                  (left <= 224 + j < left + Z.to_nat rw)%nat)
       then sample resized (224 + i - top)%nat (224 + j - left)%nat k
       else Some 0).
Proof.
  intros Hh Hw Hc Hsz Hrh Hrw.
  assert (Hc' : 1 <= im_channels img <= Cv.CV_CN_MAX) by (unfold Cv.CV_CN_MAX; lia).
  destruct (resized_size_range W class_intact _ _ _ _ _ Hh Hw Hsz) as (_ & Hrh' & Hrw').
  destruct (resize_ok INTER_LINEAR (im_array img) rw rh Hh Hw Hc' Hrw Hrh)
    as (r & Hr & Hwfr & Hallr & Hshape').
  destruct (encode_image_ok INTER_LINEAR W class_intact img sq rh rw Hh Hw Hc Hsz Hrh Hrw)
    as (resized & Hres & Hs2 & Hcn & Hwf & Hall & Hshape & Hcrop & _ & _ & Henc).
  assert (r = resized) by congruence. subst r.
  exists resized, (cropped (padded 672 resized)). eexists.
  split; [exact Hres|]. split; [exact Hcrop|]. split; [exact Henc|].
  split; [exact Hallr|]. split; [exact Hall|].
  split; [|split].
  - intros i j k g. apply planes_sample.
  - intros i j k Hi Hj Hk3.
    set (u8 := cropped (padded 672 resized)) in *. clearbody u8.
    destruct Hc as [E|E]; rewrite E in Hshape; cbn in Hshape;
      destruct u8 as [h w rows|h w c rows]; try discriminate.
    + injection Hshape as -> ->. apply (item2_in_range 224 224 rows i j Hwf); lia.
    + injection Hshape as -> -> ->.
      apply (sample_in_range (Np.Nd3 224 224 3 rows)); cbn; try assumption; lia.
  - intros i j k Hi Hj Hk3.
    apply sample_cropped_padded; try assumption; try lia.
    unfold im_channels in Hc.
    destruct Hc as [E|E]; rewrite E in Hshape'; cbn in Hshape';
      destruct resized as [h w rows|h w c rows]; try discriminate; [exact I|].
    injection Hshape' as -> -> ->. lia.
Qed.
End Samples.

Lemma increasing_checked :
  forallb (fun k => forallb (increasing_ok k) (seqZ 0 255)) [0; 1; 2]%nat = true.
Proof. vm_compute. reflexivity. Qed.

Lemma normalized_step k g :
  (k < 3)%nat -> 0 <= g < 255 ->
  (Py.to_Q (normalized k (unit_sample g)) < Py.to_Q (normalized k (unit_sample (g + 1))))%Q.
Proof.
  intros Hk Hg.
  pose proof (channels_forallb _ increasing_checked k Hk) as H. cbv beta in H.
  rewrite forallb_forall in H. specialize (H g).
  unfold increasing_ok in H. apply Qnot_le_lt. intros Hle.
  apply Qle_bool_iff in Hle. rewrite Hle in H. cbn in H.
  assert (true = false); [|discriminate]. symmetry. apply H.
  apply list_elem_of_In, elem_of_seqZ. lia.
Qed.

(** From one 8-bit level to the next the float32 sample of a channel
    grows. *)
Lemma normalized_increasing k g g' :
  (k < 3)%nat -> is_u8 g -> is_u8 g' -> g < g' ->
  (Py.to_Q (normalized k (unit_sample g)) < Py.to_Q (normalized k (unit_sample g')))%Q.
Proof.
  intros Hk [Hg _] [_ Hg'] Hlt.
  replace g' with (g + Z.of_nat (Z.to_nat (g' - g - 1)) + 1) in * by lia.
  induction (Z.to_nat (g' - g - 1)) as [|n IH].
  - rewrite Z.add_0_r. apply normalized_step; [assumption|lia].
  - eapply Qlt_trans; [apply IH; lia|].
    replace (g + Z.of_nat (S n) + 1) with (g + Z.of_nat n + 1 + 1) by lia.
    apply normalized_step; [assumption|lia].
Qed.

(** X6.  The tensor is channel-first and pixel-wise: for an image of one or
    three channels with a non-empty resize target, the sample of channel
    k at row i and column j of the output is
    float32((g / 255.0 - NORM_MEAN[k]) / NORM_STD[k]) for the uint8 sample
    g of the crop at row i, column j (channel k of an RGB crop, the one
    channel of a gray crop). *)
Theorem encode_image_channel_first (INTER_LINEAR : Cv.kernel) (W : World)
    (img : Image) (sq rh rw : Z) :
  Preprocess_cls W = Preprocess.class_body ->
  1 <= im_height img -> 1 <= im_width img ->
  im_channels img = 1 \/ im_channels img = 3 ->
  Preprocess.resized_size (im_height img) (im_width img) W = (Ok (sq, rh, rw), W) ->
  1 <= rh -> 1 <= rw ->
  exists u8 t,
    Preprocess.crop_center INTER_LINEAR img W = (Ok u8, W) /\
    Preprocess.encode_image INTER_LINEAR (PilImage img) W = (Ok t, W) /\
    forall i j k, (i < 224)%nat -> (j < 224)%nat -> (k < 3)%nat ->
      exists g, is_u8 g /\ sample u8 i j k = Some g /\
        Np.item4 t 0 k i j = Some (normalized k (unit_sample g)).
Proof.
  intros Hcls Hh Hw Hc Hsz Hrh Hrw.
  destruct (encode_image_samples INTER_LINEAR W Hcls img sq rh rw Hh Hw Hc Hsz Hrh Hrw)
    as (resized & u8 & t & _ & Hcrop & Henc & _ & Hall & Hout & Hin & _).
  exists u8, t. split; [exact Hcrop|]. split; [exact Henc|].
  intros i j k Hi Hj Hk. destruct (Hin i j k Hi Hj Hk) as [g Hg].
  exists g. split; [exact (sample_all is_u8 u8 i j k g Hall Hg)|].
  split; [exact Hg|]. by apply Hout.
Qed.

Lemma encode_image_channel_first_witness :
  exists u8 t,
    Preprocess.crop_center nearest rgb_1x1 world0 = (Ok u8, world0) /\
    Preprocess.encode_image nearest (PilImage rgb_1x1) world0 = (Ok t, world0) /\
    forall i j k, (i < 224)%nat -> (j < 224)%nat -> (k < 3)%nat ->
      exists g, is_u8 g /\ sample u8 i j k = Some g /\
        Np.item4 t 0 k i j = Some (normalized k (unit_sample g)).
Proof.
  apply (encode_image_channel_first nearest world0 rgb_1x1 672 672 672).
  - reflexivity.
  - vm_compute. discriminate.
  - vm_compute. discriminate.
  - right. reflexivity.
  - vm_compute. reflexivity.
  - lia.
  - lia.
Defined.

(** X7.  Where the output comes from: with top = (672 - rh) // 2 and
    left = (672 - rw) // 2, the output at row i and column j is the
    resized image's sample at row 224 + i - top and column 224 + j - left
    when that position lies inside the resized image; everywhere else it
    is the padding, which the normalisation turns into
    float32((0 / 255.0 - NORM_MEAN[k]) / NORM_STD[k]), not into 0. *)
Theorem encode_image_letterbox (INTER_LINEAR : Cv.kernel) (W : World)
    (img : Image) (sq rh rw : Z) :
  Preprocess_cls W = Preprocess.class_body ->
  1 <= im_height img -> 1 <= im_width img ->
  im_channels img = 1 \/ im_channels img = 3 ->
  Preprocess.resized_size (im_height img) (im_width img) W = (Ok (sq, rh, rw), W) ->
  1 <= rh -> 1 <= rw ->
  exists resized t,
    Cv.resize INTER_LINEAR (im_array img) (rw, rh) = Ok resized /\
    Preprocess.encode_image INTER_LINEAR (PilImage img) W = (Ok t, W) /\
    let top := Z.to_nat ((672 - rh) `div` 2) in
    let left := Z.to_nat ((672 - rw) `div` 2) in
    forall i j k, (i < 224)%nat -> (j < 224)%nat -> (k < 3)%nat ->
      if decide ((top <= 224 + i < top + Z.to_nat rh)%nat /\
                 (left <= 224 + j < left + Z.to_nat rw)%nat)
      then exists g,
             sample resized (224 + i - top)%nat (224 + j - left)%nat k = Some g /\
             Np.item4 t 0 k i j = Some (normalized k (unit_sample g))
      else Np.item4 t 0 k i j = Some (normalized k (unit_sample 0)).
Proof.
  intros Hcls Hh Hw Hc Hsz Hrh Hrw.
  destruct (encode_image_samples INTER_LINEAR W Hcls img sq rh rw Hh Hw Hc Hsz Hrh Hrw)
    as (resized & u8 & t & Hres & _ & Henc & _ & _ & Hout & Hin & Hfrom).
  exists resized, t. split; [exact Hres|]. split; [exact Henc|].
  cbv zeta in *. intros i j k Hi Hj Hk.
  specialize (Hfrom i j k Hi Hj Hk). destruct (Hin i j k Hi Hj Hk) as [g Hg].
  case_decide.
  - exists g. split; [congruence|]. by apply Hout.
  - apply Hout; [assumption|]. congruence.
Qed.

Lemma encode_image_letterbox_witness :
  exists resized t,
    Cv.resize nearest (im_array gray_1x4) (672, 168) = Ok resized /\
    Preprocess.encode_image nearest (PilImage gray_1x4) world0 = (Ok t, world0) /\
    let top := Z.to_nat ((672 - 168) `div` 2) in
    let left := Z.to_nat ((672 - 672) `div` 2) in
    forall i j k, (i < 224)%nat -> (j < 224)%nat -> (k < 3)%nat ->
      if decide ((top <= 224 + i < top + Z.to_nat 168)%nat /\
                 (left <= 224 + j < left + Z.to_nat 672)%nat)
      then exists g,
             sample resized (224 + i - top)%nat (224 + j - left)%nat k = Some g /\
             Np.item4 t 0 k i j = Some (normalized k (unit_sample g))
      else Np.item4 t 0 k i j = Some (normalized k (unit_sample 0)).
Proof.
  apply (encode_image_letterbox nearest world0 gray_1x4 672 168 672).
  - reflexivity.
  - vm_compute. discriminate.
  - vm_compute. discriminate.
  - left. reflexivity.
  - vm_compute. reflexivity.
  - lia.
  - lia.
Defined.

(** X8.  When padding reaches the output: if both sides of the resize
    target are at least 224, every output sample comes from a sample of
    the resized image; if the target has at most 223 rows (columns), the
    last row (column) of every channel is padding.  For sides up to 2^40
    the first case is the one of 447 * long <= 1344 * short, an aspect
    ratio of about 3 to 1. *)
Theorem encode_image_padding_visible (INTER_LINEAR : Cv.kernel) (W : World)
    (img : Image) (sq rh rw : Z) :
  Preprocess_cls W = Preprocess.class_body ->
  1 <= im_height img -> 1 <= im_width img ->
  im_channels img = 1 \/ im_channels img = 3 ->
  Preprocess.resized_size (im_height img) (im_width img) W = (Ok (sq, rh, rw), W) ->
  1 <= rh -> 1 <= rw ->
  exists resized t,
    Cv.resize INTER_LINEAR (im_array img) (rw, rh) = Ok resized /\
    Preprocess.encode_image INTER_LINEAR (PilImage img) W = (Ok t, W) /\
    (224 <= rh -> 224 <= rw ->
     forall i j k, (i < 224)%nat -> (j < 224)%nat -> (k < 3)%nat ->
       exists g,
         sample resized (224 + i - Z.to_nat ((672 - rh) `div` 2))%nat
                        (224 + j - Z.to_nat ((672 - rw) `div` 2))%nat k = Some g /\
         Np.item4 t 0 k i j = Some (normalized k (unit_sample g))) /\
    (rh <= 223 ->
     forall j k, (j < 224)%nat -> (k < 3)%nat ->
       Np.item4 t 0 k 223 j = Some (normalized k (unit_sample 0))) /\
    (rw <= 223 ->
     forall i k, (i < 224)%nat -> (k < 3)%nat ->
       Np.item4 t 0 k i 223 = Some (normalized k (unit_sample 0))) /\
    (im_height img <= 2 ^ 40 -> im_width img <= 2 ^ 40 ->
     (224 <= rh /\ 224 <= rw <->
      447 * Z.max (im_height img) (im_width img) <=
      1344 * Z.min (im_height img) (im_width img))).
Proof.
  intros Hcls Hh Hw Hc Hsz Hrh Hrw.
  destruct (resized_size_range W Hcls _ _ _ _ _ Hh Hw Hsz) as (_ & Hrh' & Hrw').
  assert (Haspect : im_height img <= 2 ^ 40 -> im_width img <= 2 ^ 40 ->
            (224 <= rh /\ 224 <= rw <->
             447 * Z.max (im_height img) (im_width img) <=
             1344 * Z.min (im_height img) (im_width img))).
  { intros Hh40 Hw40.
    pose proof (resized_size_exact W Hcls (im_height img) (im_width img)
                  ltac:(lia) ltac:(lia)) as E.
    rewrite Hsz in E.
    destruct (Z.gtb_spec (im_height img) (im_width img)) as [Hgt|Hle];
      injection E as -> -> ->.
    - rewrite Z.max_l, Z.min_r by lia.
      pose proof (div_half_even_224 (672 * im_width img) (im_height img)
                    ltac:(lia) ltac:(lia)). lia.
    - rewrite Z.max_r, Z.min_l by lia.
      pose proof (div_half_even_224 (672 * im_height img) (im_width img)
                    ltac:(lia) ltac:(lia)). lia. }
  destruct (encode_image_samples INTER_LINEAR W Hcls img sq rh rw Hh Hw Hc Hsz Hrh Hrw)
    as (resized & u8 & t & Hres & _ & Henc & _ & _ & Hout & Hin & Hfrom).
  exists resized, t. split; [exact Hres|]. split; [exact Henc|].
  cbv zeta in Hfrom.
  assert (Hv : 0 <= (672 - rh) `div` 2 /\ 672 - rh - 1 <= 2 * ((672 - rh) `div` 2) <= 672 - rh).
  { pose proof (Z.div_mod (672 - rh) 2 ltac:(lia)).
    pose proof (Z.mod_pos_bound (672 - rh) 2 ltac:(lia)). lia. }
  assert (Hz : 0 <= (672 - rw) `div` 2 /\ 672 - rw - 1 <= 2 * ((672 - rw) `div` 2) <= 672 - rw).
  { pose proof (Z.div_mod (672 - rw) 2 ltac:(lia)).
    pose proof (Z.mod_pos_bound (672 - rw) 2 ltac:(lia)). lia. }
  set (vp := (672 - rh) `div` 2) in *. set (hp := (672 - rw) `div` 2) in *.
  clearbody vp hp.
  split; [|split; [|split; [|exact Haspect]]].
  - intros Hrh224 Hrw224 i j k Hi Hj Hk.
    specialize (Hfrom i j k Hi Hj Hk). destruct (Hin i j k Hi Hj Hk) as [g Hg].
    case_decide; [|lia]. exists g. split; [congruence|]. by apply Hout.
  - intros Hsmall j k Hj Hk.
    specialize (Hfrom 223%nat j k ltac:(lia) Hj Hk).
    case_decide; [lia|]. by apply Hout.
  - intros Hsmall i k Hi Hk.
    specialize (Hfrom i 223%nat k Hi ltac:(lia) Hk).
    case_decide; [lia|]. by apply Hout.
Qed.

Lemma encode_image_padding_visible_witness :
  exists resized t,
    Cv.resize nearest (im_array gray_1x4) (672, 168) = Ok resized /\
    Preprocess.encode_image nearest (PilImage gray_1x4) world0 = (Ok t, world0) /\
    (224 <= 168 -> 224 <= 672 ->
     forall i j k, (i < 224)%nat -> (j < 224)%nat -> (k < 3)%nat ->
       exists g,
         sample resized (224 + i - Z.to_nat ((672 - 168) `div` 2))%nat
                        (224 + j - Z.to_nat ((672 - 672) `div` 2))%nat k = Some g /\
         Np.item4 t 0 k i j = Some (normalized k (unit_sample g))) /\
    (168 <= 223 ->
     forall j k, (j < 224)%nat -> (k < 3)%nat ->
       Np.item4 t 0 k 223 j = Some (normalized k (unit_sample 0))) /\
    (672 <= 223 ->
     forall i k, (i < 224)%nat -> (k < 3)%nat ->
       Np.item4 t 0 k i 223 = Some (normalized k (unit_sample 0))) /\
    (im_height gray_1x4 <= 2 ^ 40 -> im_width gray_1x4 <= 2 ^ 40 ->
     (224 <= 168 /\ 224 <= 672 <->
      447 * Z.max (im_height gray_1x4) (im_width gray_1x4) <=
      1344 * Z.min (im_height gray_1x4) (im_width gray_1x4))).
Proof.
  apply (encode_image_padding_visible nearest world0 gray_1x4 672 168 672).
  - reflexivity.
  - vm_compute. discriminate.
  - vm_compute. discriminate.
  - left. reflexivity.
  - vm_compute. reflexivity.
  - lia.
  - lia.
Defined.

(** X9.  The normalisation and the cast to float32 keep the 8-bit levels
    apart and in order: within a channel, two samples of the crop compare
    as the samples of the output at their positions do, and they are equal
    exactly when those are. *)
Theorem encode_image_keeps_order (INTER_LINEAR : Cv.kernel) (W : World)
    (img : Image) (sq rh rw : Z) :
  Preprocess_cls W = Preprocess.class_body ->
  1 <= im_height img -> 1 <= im_width img ->
  im_channels img = 1 \/ im_channels img = 3 ->
  Preprocess.resized_size (im_height img) (im_width img) W = (Ok (sq, rh, rw), W) ->
  1 <= rh -> 1 <= rw ->
  exists u8 t,
    Preprocess.crop_center INTER_LINEAR img W = (Ok u8, W) /\
    Preprocess.encode_image INTER_LINEAR (PilImage img) W = (Ok t, W) /\
    forall k i j i' j' g g', (k < 3)%nat ->
      sample u8 i j k = Some g -> sample u8 i' j' k = Some g' ->
      exists x x',
        Np.item4 t 0 k i j = Some x /\ Np.item4 t 0 k i' j' = Some x' /\
        (g < g' <-> (Py.to_Q x < Py.to_Q x')%Q) /\ (g = g' <-> x = x').
Proof.
  intros Hcls Hh Hw Hc Hsz Hrh Hrw.
  destruct (encode_image_samples INTER_LINEAR W Hcls img sq rh rw Hh Hw Hc Hsz Hrh Hrw)
    as (resized & u8 & t & _ & Hcrop & Henc & _ & Hall & Hout & _ & _).
  exists u8, t. split; [exact Hcrop|]. split; [exact Henc|].
  intros k i j i' j' g g' Hk Hg Hg'.
  pose proof (sample_all is_u8 u8 i j k g Hall Hg) as Hu.
  pose proof (sample_all is_u8 u8 i' j' k g' Hall Hg') as Hu'.
  eexists _, _. split; [by apply Hout|]. split; [by apply Hout|].
  assert (Hup : forall a b, is_u8 a -> is_u8 b -> a < b ->
            (Py.to_Q (normalized k (unit_sample a)) < Py.to_Q (normalized k (unit_sample b)))%Q)
    by (intros; by apply normalized_increasing).
  split; split.
  - by apply Hup.
  - intros Hlt. destruct (Z.lt_total g g') as [?|[->|Hgt]]; [assumption| |].
    + by apply Qlt_irrefl in Hlt.
    + pose proof (Hup g' g Hu' Hu Hgt) as Hlt'.
      destruct (Qlt_irrefl _ (Qlt_trans _ _ _ Hlt Hlt')).
  - by intros ->.
  - intros Heq. destruct (Z.lt_total g g') as [Hlt|[?|Hgt]]; [|assumption|].
    + pose proof (Hup g g' Hu Hu' Hlt) as H. rewrite Heq in H.
      by apply Qlt_irrefl in H.
    + pose proof (Hup g' g Hu' Hu Hgt) as H. rewrite Heq in H.
      by apply Qlt_irrefl in H.
Qed.

Lemma encode_image_keeps_order_witness :
  exists u8 t,
    Preprocess.crop_center nearest rgb_1x1 world0 = (Ok u8, world0) /\
    Preprocess.encode_image nearest (PilImage rgb_1x1) world0 = (Ok t, world0) /\
    forall k i j i' j' g g', (k < 3)%nat ->
      sample u8 i j k = Some g -> sample u8 i' j' k = Some g' ->
      exists x x',
        Np.item4 t 0 k i j = Some x /\ Np.item4 t 0 k i' j' = Some x' /\
        (g < g' <-> (Py.to_Q x < Py.to_Q x')%Q) /\ (g = g' <-> x = x').
Proof.
  apply (encode_image_keeps_order nearest world0 rgb_1x1 672 672 672).
  - reflexivity.
  - vm_compute. discriminate.
  - vm_compute. discriminate.
  - right. reflexivity.
  - vm_compute. reflexivity.
  - lia.
  - lia.
Defined.

(** ** Other sizes in the class *)

Section Sizes.
Variable INTER_LINEAR : Cv.kernel.
Variable W : World.
Variables s p : Z.
Hypothesis input_size : CLIP_INPUT_SIZE (Preprocess_cls W) = s.
Hypothesis padding : CROP_CENTER_PADDING (Preprocess_cls W) = p.
Hypothesis s_nonneg : 0 <= s.
Hypothesis p_nonneg : 0 <= p.
Hypothesis square_fits : s + 2 * p < 2 ^ 53.

Lemma resized_size_sizes h w sq rh rw :
  1 <= h -> 1 <= w ->
  Preprocess.resized_size h w W = (Ok (sq, rh, rw), W) ->
  sq = s + 2 * p /\ 0 <= rh <= sq /\ 0 <= rw <= sq.
Proof.
  intros Hh Hw. unfold Preprocess.resized_size.
  rewrite (run_bind_ok _ _ _ _ _ (run_getattr _ _)).
  rewrite (run_bind_ok _ _ _ _ _ (run_getattr _ _)).
  rewrite input_size, padding. set (S := s + 2 * p).
  destruct (Z.gtb_spec h w) as [Hgt|Hle].
  - destruct (truediv_round_bound S (S * w) h) as (q & n & Hq & Hn & Hr);
      [unfold S; lia|unfold S; nia|lia|nia|].
    rewrite (run_bind_ok _ _ _ q W) by (by rewrite run_lift, Hq).
    rewrite (run_bind_ok _ _ _ n W) by (by rewrite run_lift, Hn).
    intros [= <- <- <-]. unfold S in *. lia.
  - destruct (truediv_round_bound S (S * h) w) as (q & n & Hq & Hn & Hr);
      [unfold S; lia|unfold S; nia|lia|nia|].
    rewrite (run_bind_ok _ _ _ q W) by (by rewrite run_lift, Hq).
    rewrite (run_bind_ok _ _ _ n W) by (by rewrite run_lift, Hn).
    intros [= <- <- <-]. unfold S in *. lia.
Qed.

Lemma slice_len_center : Np.slice_len p (- p) (s + 2 * p) = crop_side s p.
Proof.
  unfold Np.slice_len, Py.slice_bound, crop_side.
  destruct (Z.eqb_spec p 0) as [E|Hp].
  - rewrite E. change (- 0) with 0. change (0 <? 0) with false. cbv iota. lia.
  - destruct (Z.ltb_spec (- p) 0); [|lia].
    destruct (Z.ltb_spec p 0); lia.
Qed.

Lemma crop_center_run img sq rh rw :
  1 <= im_height img -> 1 <= im_width img ->
  Preprocess.resized_size (im_height img) (im_width img) W = (Ok (sq, rh, rw), W) ->
  Preprocess.crop_center INTER_LINEAR img W =
  (resized ← Cv.resize INTER_LINEAR (im_array img) (rw, rh);
   Ok (Np.getitem2 (padded (s + 2 * p) resized) (p, - p) (p, - p)), W).
Proof.
  intros Hh Hw Hsz.
  destruct (resized_size_sizes _ _ _ _ _ Hh Hw Hsz) as (-> & Hrh & Hrw).
  unfold Preprocess.crop_center.
  pose proof (smart_resize_run INTER_LINEAR W img _ rh rw Hsz) as Hrun.
  destruct (resize_cases INTER_LINEAR (im_array img) rw rh)
    as [Hres|(r & Hres & Hs2 & _)];
    rewrite Hres in Hrun |- *; cbn [mbind result_bind] in Hrun |- *.
  { by apply run_bind_raise. }
  pose proof (pad_to_square_padded (s + 2 * p) r) as Hp.
  rewrite Hs2 in Hp. cbn [fst snd] in Hp. rewrite Hp in Hrun by lia.
  rewrite (run_bind_ok _ _ _ _ _ Hrun).
  rewrite (run_bind_ok _ _ _ _ _ (run_getattr _ _)), padding. reflexivity.
Qed.

Lemma cropped_shape_sizes (r : Np.ndarray Z) :
  Np.shape (Np.getitem2 (padded (s + 2 * p) r) (p, - p) (p, - p)) =
  match r with
  | Np.Nd2 _ _ _ => [crop_side s p; crop_side s p]
  | Np.Nd3 _ _ c _ => [crop_side s p; crop_side s p; c]
  end.
Proof. destruct r; cbn; by rewrite slice_len_center. Qed.

Hypothesis mean_intact : NORM_MEAN (Preprocess_cls W) = NORM_MEAN Preprocess.class_body.
Hypothesis std_intact : NORM_STD (Preprocess_cls W) = NORM_STD Preprocess.class_body.

Lemma bcast_dim_one n : Np.bcast_dim n 1 = Some n.
Proof.
  unfold Np.bcast_dim. destruct (Z.eqb_spec n 1) as [->|]; [reflexivity|].
  reflexivity.
Qed.

Lemma normalize_channels_shape n rows :
  exists rows',
    Preprocess.normalize_channels (Np.Nd3 n n 3 rows) W = (Ok (Np.Nd3 n n 3 rows'), W).
Proof.
  unfold Preprocess.normalize_channels.
  rewrite (run_bind_ok _ _ _ _ _ (run_getattr _ _)), mean_intact.
  cbn [NORM_MEAN Preprocess.class_body].
  unfold Np.binop at 2. cbn [Np.as3]. rewrite !bcast_dim_one.
  change (Np.bcast_dim 3 3) with (Some 3).
  erewrite run_bind_ok; [|rewrite run_lift; reflexivity].
  rewrite (run_bind_ok _ _ _ _ _ (run_getattr _ _)), std_intact.
  cbn [NORM_STD Preprocess.class_body].
  unfold Np.binop. cbn [Np.as3]. rewrite !bcast_dim_one.
  change (Np.bcast_dim 3 3) with (Some 3).
  eexists. rewrite run_lift. reflexivity.
Qed.

Lemma to_model_format_other_size n rows :
  0 <= n -> n <> 224 ->
  Preprocess.to_model_format (Np.Nd3 n n 3 rows) =
  Raise (ValueError (reshape_size_mismatch (3 * n * n) [1; 3; 224; 224])).
Proof.
  intros Hn Hne. unfold Preprocess.to_model_format.
  cbn [Np.transpose201 mbind result_bind].
  unfold Np.reshape4, Np.size. cbn [Np.astype_float32 Np.map Np.shape foldr].
  destruct (Z.eqb_spec (3 * (n * (n * 1))) (1 * 3 * 224 * 224)) as [E|E].
  - exfalso. apply Hne. nia.
  - do 3 f_equal. lia.
Qed.
End Sizes.

Lemma to_model_format_size n rows :
  n = 224 ->
  exists t, Preprocess.to_model_format (Np.Nd3 n n 3 rows) = Ok t /\
            Np.shape4 t = [1; 3; 224; 224].
Proof.
  intros ->. unfold Preprocess.to_model_format.
  cbn [Np.transpose201 mbind result_bind].
  unfold Np.reshape4, Np.size. cbn [Np.astype_float32 Np.map Np.shape foldr].
  change (3 * (224 * (224 * 1)) =? 1 * 3 * 224 * 224) with true. cbv iota.
  eexists. split; reflexivity.
Qed.

(** X10.  The crop and the class attributes (lines 22 and 84-87): with
    CLIP_INPUT_SIZE = s and CROP_CENTER_PADDING = p, for a square of at
    most 1024 rows and an image of one to four channels, the square has
    side s + 2 * p and the crop [p : -p] leaves s x s for every p >= 1;
    for p = 0 the stop index -0 is 0 and the crop is empty, 0 x 0. *)
Theorem crop_center_size (INTER_LINEAR : Cv.kernel) (W : World) (img : Image)
    (s p sq rh rw : Z) :
  CLIP_INPUT_SIZE (Preprocess_cls W) = s ->
  CROP_CENTER_PADDING (Preprocess_cls W) = p ->
  0 <= s -> 0 <= p -> s + 2 * p <= 1024 ->
  1 <= im_height img -> 1 <= im_width img ->
  1 <= im_channels img <= 4 ->
  Preprocess.resized_size (im_height img) (im_width img) W = (Ok (sq, rh, rw), W) ->
  1 <= rh -> 1 <= rw ->
  exists u8,
    Preprocess.crop_center INTER_LINEAR img W = (Ok u8, W) /\
    Np.channels u8 = im_channels img /\
    Np.shape2 u8 = if p =? 0 then (0, 0) else (s, s).
Proof.
  intros Hs Hp Hs0 Hp0 Hsmall Hh Hw Hc4 Hsz Hrh Hrw.
  assert (Hfit : s + 2 * p < 2 ^ 53) by (change (2 ^ 53) with 9007199254740992; lia).
  assert (Hc : 1 <= im_channels img <= Cv.CV_CN_MAX) by (unfold Cv.CV_CN_MAX; lia).
  rewrite (crop_center_run INTER_LINEAR W s p Hs Hp Hs0 Hp0 Hfit img sq rh rw Hh Hw Hsz).
  destruct (resize_ok INTER_LINEAR (im_array img) rw rh Hh Hw Hc Hrw Hrh)
    as (r & -> & _ & _ & Hshape).
  eexists. split; [reflexivity|].
  pose proof (cropped_shape_sizes s p Hs0 Hp0 r) as Hcs. unfold crop_side in Hcs.
  set (u8 := Np.getitem2 _ _ _) in *. clearbody u8. unfold im_channels.
  destruct (Np.channels (im_array img) =? 1) eqn:E, r as [h0 w0 rows|h0 w0 c0 rows];
    try discriminate; destruct u8; try discriminate; cbn in Hcs, Hshape |- *;
    destruct (p =? 0); injection Hcs as -> ->; subst;
    (split; [|reflexivity]); try congruence.
  all: symmetry; by apply Z.eqb_eq.
Qed.

Lemma crop_center_size_witness :
  (exists u8,
     Preprocess.crop_center nearest rgb_1x1 (world_with 224 0) = (Ok u8, world_with 224 0) /\
     Np.channels u8 = im_channels rgb_1x1 /\
     Np.shape2 u8 = if 0 =? 0 then (0, 0) else (224, 224)) /\
  (exists u8,
     Preprocess.crop_center nearest rgb_1x1 (world_with 256 100) = (Ok u8, world_with 256 100) /\
     Np.channels u8 = im_channels rgb_1x1 /\
     Np.shape2 u8 = if 100 =? 0 then (0, 0) else (256, 256)).
Proof.
  split.
  - apply (crop_center_size nearest (world_with 224 0) rgb_1x1 224 0 224 224 224);
      try reflexivity; try lia; try (vm_compute; discriminate).
    split; vm_compute; discriminate.
  - apply (crop_center_size nearest (world_with 256 100) rgb_1x1 256 100 456 456 456);
      try reflexivity; try lia; try (vm_compute; discriminate).
    split; vm_compute; discriminate.
Defined.

(** X11.  The reshape of line 103 fixes the size: with the statistics of
    the class body and a square of at most 1024 rows,
    CROP_CENTER_PADDING may be any p >= 1, but [encode_image] returns a
    tensor only when the crop is 224 x 224, that is when CLIP_INPUT_SIZE
    is 224; for every other size, and for p = 0, the reshape raises
    ValueError on the 3 * n * n samples it is given. *)
Theorem encode_image_fixed_size (INTER_LINEAR : Cv.kernel) (W : World) (img : Image)
    (s p sq rh rw : Z) :
  CLIP_INPUT_SIZE (Preprocess_cls W) = s ->
  CROP_CENTER_PADDING (Preprocess_cls W) = p ->
  NORM_MEAN (Preprocess_cls W) = NORM_MEAN Preprocess.class_body ->
  NORM_STD (Preprocess_cls W) = NORM_STD Preprocess.class_body ->
  0 <= s -> 0 <= p -> s + 2 * p <= 1024 ->
  1 <= im_height img -> 1 <= im_width img ->
  im_channels img = 1 \/ im_channels img = 3 ->
  Preprocess.resized_size (im_height img) (im_width img) W = (Ok (sq, rh, rw), W) ->
  1 <= rh -> 1 <= rw ->
  let n := if p =? 0 then 0 else s in
  (n = 224 ->
   exists t, Preprocess.encode_image INTER_LINEAR (PilImage img) W = (Ok t, W) /\
             Np.shape4 t = [1; 3; 224; 224]) /\
  (n <> 224 ->
   Preprocess.encode_image INTER_LINEAR (PilImage img) W =
   (Raise (ValueError (reshape_size_mismatch (3 * n * n) [1; 3; 224; 224])), W)).
Proof.
  intros Hs Hp Hmean Hstd Hs0 Hp0 Hsmall Hh Hw Hc Hsz Hrh Hrw n.
  assert (Hfit : s + 2 * p < 2 ^ 53) by (change (2 ^ 53) with 9007199254740992; lia).
  assert (Hc' : 1 <= im_channels img <= Cv.CV_CN_MAX) by (unfold Cv.CV_CN_MAX; lia).
  pose proof (crop_center_run INTER_LINEAR W s p Hs Hp Hs0 Hp0 Hfit img sq rh rw Hh Hw Hsz)
    as Hcrop.
  destruct (resize_ok INTER_LINEAR (im_array img) rw rh Hh Hw Hc' Hrw Hrh)
    as (r & Hres & _ & _ & Hshape).
  rewrite Hres in Hcrop. cbn [mbind result_bind] in Hcrop.
  pose proof (cropped_shape_sizes s p Hs0 Hp0 r) as Hcs. unfold crop_side in Hcs.
  fold n in Hcs.
  set (u8 := Np.getitem2 _ _ _) in *. clearbody u8.
  rewrite (encode_image_run_crop INTER_LINEAR W img _ Hcrop).
  assert (Hn : 0 <= n) by (unfold n; destruct (p =? 0); lia).
  assert (Hu : Np.shape2 u8 = (n, n) /\ unit_channels u8 = 3).
  { unfold im_channels in Hc.
    destruct Hc as [E|E]; rewrite E in Hshape; cbn in Hshape;
      destruct r as [h0 w0 rows|h0 w0 c0 rows]; try discriminate;
      destruct u8; try discriminate; cbn in Hcs |- *;
      injection Hshape; injection Hcs; intros; subst; auto. }
  destruct Hu as [Hu2 Hu3].
  pose proof (scale_to_unit_pixels u8) as Hscale.
  rewrite Hu2, Hu3 in Hscale. cbn [fst snd] in Hscale.
  destruct (normalize_channels_shape W Hmean Hstd n (unit_pixels u8)) as [rows' Hnorm].
  erewrite run_bind_ok; [|rewrite run_lift, Hscale; reflexivity].
  rewrite (run_bind_ok _ _ _ _ _ Hnorm), run_lift.
  split.
  - intros E. destruct (to_model_format_size n rows' E) as (t & -> & Ht). eauto.
  - intros E. by rewrite to_model_format_other_size.
Qed.

Lemma encode_image_fixed_size_witness :
  (let n := if 224 =? 0 then 0 else 256 in
   (n = 224 ->
    exists t, Preprocess.encode_image nearest (PilImage rgb_1x1) (world_with 256 224) =
                (Ok t, world_with 256 224) /\
              Np.shape4 t = [1; 3; 224; 224]) /\
   (n <> 224 ->
    Preprocess.encode_image nearest (PilImage rgb_1x1) (world_with 256 224) =
    (Raise (ValueError (reshape_size_mismatch (3 * n * n) [1; 3; 224; 224])),
     world_with 256 224))) /\
  (let n := if 100 =? 0 then 0 else 224 in
   (n = 224 ->
    exists t, Preprocess.encode_image nearest (PilImage rgb_1x1) (world_with 224 100) =
                (Ok t, world_with 224 100) /\
              Np.shape4 t = [1; 3; 224; 224]) /\
   (n <> 224 ->
    Preprocess.encode_image nearest (PilImage rgb_1x1) (world_with 224 100) =
    (Raise (ValueError (reshape_size_mismatch (3 * n * n) [1; 3; 224; 224])),
     world_with 224 100))).
Proof.
  split.
  - apply (encode_image_fixed_size nearest (world_with 256 224) rgb_1x1 256 224 704 704 704);
      try reflexivity; try lia; try (vm_compute; discriminate).
    right. reflexivity.
  - apply (encode_image_fixed_size nearest (world_with 224 100) rgb_1x1 224 100 424 424 424);
      try reflexivity; try lia; try (vm_compute; discriminate).
    right. reflexivity.
Defined.

(** ** Outcomes and shapes *)

Lemma same_run_bind {A B} (sa : A -> list Z) (sb : B -> list Z)
    (m m' : M A) (f f' : A -> M B) W :
  same_run sa m m' W ->
  (forall a a', sa a = sa a' -> same_run sb (f a) (f' a') W) ->
  same_run sb (m ≫= f) (m' ≫= f') W.
Proof.
  intros (Hr & Hw & Hw') Hf. unfold same_run, mbind, M_bind in *.
  destruct (m W) as [[a|e] W1], (m' W) as [[a'|e'] W1']; cbn in *; subst;
    try contradiction; [by apply Hf|auto].
Qed.

Lemma same_run_lift {A} (sa : A -> list Z) (r r' : result A) W :
  same_outcome sa r r' -> same_run sa (lift r) (lift r') W.
Proof. intros H. by repeat split. Qed.

Lemma same_run_same {A B} (sb : B -> list Z) (m : M A) (f f' : A -> M B) W :
  preserves m ->
  (forall a, same_run sb (f a) (f' a) W) ->
  same_run sb (m ≫= f) (m ≫= f') W.
Proof.
  intros Hp Hf. unfold same_run, mbind, M_bind in *. specialize (Hp W).
  destruct (m W) as [[a|e] W1]; cbn in *; subst; [apply Hf|auto].
Qed.

Lemma shape_cases {A} (a b : Np.ndarray A) :
  Np.shape a = Np.shape b ->
  (exists h w ra rb, a = Np.Nd2 h w ra /\ b = Np.Nd2 h w rb) \/
  (exists h w c ra rb, a = Np.Nd3 h w c ra /\ b = Np.Nd3 h w c rb).
Proof.
  destruct a, b; cbn; intros [=]; subst; [left|right]; eauto 10.
Qed.

Lemma resize_same_shape (INTER_LINEAR : Cv.kernel) (a b : Np.ndarray Z) dsize :
  Np.shape a = Np.shape b ->
  same_outcome Np.shape (Cv.resize INTER_LINEAR a dsize) (Cv.resize INTER_LINEAR b dsize).
Proof.
  intros [(h & w & ra & rb & -> & ->)|(h & w & c & ra & rb & -> & ->)]%shape_cases;
    unfold Cv.resize; cbn [Np.shape2 Np.channels];
    destruct (_ || _); try reflexivity;
    destruct (_ || _); try reflexivity;
    destruct (_ =? 1); reflexivity.
Qed.

Lemma pad_same_shape {A} (a b : Np.ndarray A) padding (fill : A) :
  Np.shape a = Np.shape b ->
  same_outcome Np.shape (Np.pad a padding fill) (Np.pad b padding fill).
Proof.
  intros [(h & w & ra & rb & -> & ->)|(h & w & c & ra & rb & -> & ->)]%shape_cases;
    unfold Np.pad; destruct (existsb _ _); try reflexivity.
  - destruct padding as [|p0 [|p1 [|]]]; reflexivity.
  - destruct padding as [|p0 [|p1 [|p2 [|]]]]; reflexivity.
Qed.

Lemma pad_to_square_same_shape (a b : Np.ndarray Z) sq rh rw :
  Np.shape a = Np.shape b ->
  same_outcome Np.shape (Preprocess.pad_to_square sq rh rw a)
    (Preprocess.pad_to_square sq rh rw b).
Proof.
  intros Hs. unfold Preprocess.pad_to_square, Np.ndim. rewrite Hs.
  by apply pad_same_shape.
Qed.

Lemma getitem2_same_shape {A} (a b : Np.ndarray A) r c :
  Np.shape a = Np.shape b ->
  Np.shape (Np.getitem2 a r c) = Np.shape (Np.getitem2 b r c).
Proof.
  by intros [(h & w & ra & rb & -> & ->)|(h & w & k & ra & rb & -> & ->)]%shape_cases.
Qed.

Lemma scale_to_unit_same_shape (a b : Np.ndarray Z) :
  Np.shape a = Np.shape b ->
  same_outcome Np.shape (Preprocess.scale_to_unit a) (Preprocess.scale_to_unit b).
Proof.
  by intros [(h & w & ra & rb & -> & ->)|(h & w & k & ra & rb & -> & ->)]%shape_cases.
Qed.

Lemma binop_same_shape {A} (f : A -> A -> A) (a b m : Np.ndarray A) :
  Np.shape a = Np.shape b ->
  same_outcome Np.shape (Np.binop f a m) (Np.binop f b m).
Proof.
  intros [(h & w & ra & rb & -> & ->)|(h & w & k & ra & rb & -> & ->)]%shape_cases;
    unfold Np.binop; cbn [Np.as3 Np.shape]; destruct (Np.as3 m) as [[[h' w'] c'] rm];
    destruct (Np.bcast_dim _ _); try reflexivity;
    destruct (Np.bcast_dim _ _); try reflexivity;
    destruct (Np.bcast_dim _ _); reflexivity.
Qed.

Lemma to_model_format_same_shape (a b : Np.ndarray Py.float) :
  Np.shape a = Np.shape b ->
  same_outcome Np.shape4 (Preprocess.to_model_format a) (Preprocess.to_model_format b).
Proof.
  intros [(h & w & ra & rb & -> & ->)|(h & w & k & ra & rb & -> & ->)]%shape_cases;
    [reflexivity|].
  unfold Preprocess.to_model_format. cbn [Np.transpose201 mbind result_bind].
  unfold Np.reshape4, Np.size. cbn [Np.astype_float32 Np.map Np.shape].
  destruct (_ =? _); cbv beta iota delta [same_outcome Np.shape4]; reflexivity.
Qed.

Section ByShape.
Variable INTER_LINEAR : Cv.kernel.
Variable W : World.

Lemma smart_resize_same_shape img img' :
  Np.shape (im_array img) = Np.shape (im_array img') ->
  same_run Np.shape (Preprocess._smart_resize INTER_LINEAR img)
    (Preprocess._smart_resize INTER_LINEAR img') W.
Proof.
  intros Hs. unfold Preprocess._smart_resize.
  assert (Hs2 : Np.shape2 (im_array img) = Np.shape2 (im_array img')).
  { by apply shape_cases in Hs
      as [(h & w & ra & rb & -> & ->)|(h & w & k & ra & rb & -> & ->)]. }
  rewrite <- Hs2. destruct (Np.shape2 (im_array img)) as [h w].
  apply same_run_same; [apply resized_size_pure|]. intros [[sq rh] rw].
  eapply same_run_bind; [apply same_run_lift, resize_same_shape, Hs|].
  intros a a' Ha. by apply same_run_lift, pad_to_square_same_shape.
Qed.

Lemma crop_center_same_shape img img' :
  Np.shape (im_array img) = Np.shape (im_array img') ->
  same_run Np.shape (Preprocess.crop_center INTER_LINEAR img)
    (Preprocess.crop_center INTER_LINEAR img') W.
Proof.
  intros Hs. unfold Preprocess.crop_center.
  eapply same_run_bind; [by apply smart_resize_same_shape|].
  intros a a' Ha. apply same_run_same; [apply preserves_getattr|]. intros p.
  repeat split. cbn. by apply getitem2_same_shape.
Qed.

Lemma normalize_channels_same_shape a a' :
  Np.shape a = Np.shape a' ->
  same_run Np.shape (Preprocess.normalize_channels a)
    (Preprocess.normalize_channels a') W.
Proof.
  intros Hs. unfold Preprocess.normalize_channels.
  apply same_run_same; [apply preserves_getattr|]. intros mean.
  eapply same_run_bind; [by apply same_run_lift, binop_same_shape|].
  intros b b' Hb. apply same_run_same; [apply preserves_getattr|]. intros std.
  by apply same_run_lift, binop_same_shape.
Qed.
End ByShape.

(** X12.  No sample decides how a call ends: in every world and for every
    interpolation, two images whose arrays have the same shape make
    [encode_image] raise the same exception or return tensors of the same
    shape. *)
Theorem encode_image_outcome_by_shape (INTER_LINEAR : Cv.kernel) (W : World)
    (img img' : Image) :
  Np.shape (im_array img) = Np.shape (im_array img') ->
  same_outcome Np.shape4
    (Preprocess.encode_image INTER_LINEAR (PilImage img) W).1
    (Preprocess.encode_image INTER_LINEAR (PilImage img') W).1.
Proof.
  intros Hs.
  enough (same_run Np.shape4 (Preprocess.encode_image INTER_LINEAR (PilImage img))
            (Preprocess.encode_image INTER_LINEAR (PilImage img')) W) as [H _]
    by exact H.
  unfold Preprocess.encode_image.
  eapply (same_run_bind (fun im : Image => Np.shape (im_array im))).
  { repeat split. exact Hs. }
  intros im im' Him.
  eapply same_run_bind; [by apply crop_center_same_shape|]. intros a a' Ha.
  eapply same_run_bind; [by apply same_run_lift, scale_to_unit_same_shape|].
  intros b b' Hb.
  eapply same_run_bind; [by apply normalize_channels_same_shape|]. intros c c' Hc.
  by apply same_run_lift, to_model_format_same_shape.
Qed.

Lemma encode_image_outcome_by_shape_witness :
  same_outcome Np.shape4
    (Preprocess.encode_image nearest (PilImage rgb_1x1) world0).1
    (Preprocess.encode_image nearest
       (PilImage (image_of (Np.Nd3 1 1 3 [[[0; 0; 0]]]))) world0).1.
Proof.
  apply (encode_image_outcome_by_shape nearest world0 rgb_1x1
           (image_of (Np.Nd3 1 1 3 [[[0; 0; 0]]]))).
  reflexivity.
Defined.
